(** * Gallery indexer: an executable model of [scripts/generate_indexes.py]

    The indexer walks the album directories under a root, validates the
    images, keeps one thumbnail per image in [<album>/thumbnails/] and writes
    an [index.json] manifest per album and one for the root.

    The model follows the Python source function by function.  The file
    system is a tree of named entries, the program runs in a monad that
    threads the file system, the console output and a trace of the mutating
    system calls, and that carries Python exceptions.  Everything the program
    gets from a library or from the external [convert] tool (SHA-256, PIL,
    the JSON codec, ImageMagick, the time formatter) is a field of the
    [Platform] interface. *)

From Stdlib Require Import ZArith List String Ascii Bool Lia.
From Stdlib Require Import Sorted.
Import ListNotations.
Local Open Scope string_scope.
Local Open Scope list_scope.
Local Open Scope Z_scope.
Set Warnings "-register-all".

(** ** Strings: [str.lower], [str.startswith], [PurePath.suffix], sorting *)

Definition lower_ascii (c : ascii) : ascii :=
  let n := nat_of_ascii c in
  if ((65 <=? n) && (n <=? 90))%nat then ascii_of_nat (n + 32) else c.

(** [str.lower], on the ASCII letters. *)
Fixpoint lower (s : string) : string :=
  match s with
  | EmptyString => EmptyString
  | String c r => String (lower_ascii c) (lower r)
  end.

Definition startswith_dot (s : string) : bool :=
  match s with
  | String c _ => Ascii.eqb c "."
  | EmptyString => false
  end.

(** [name.rfind('.')] *)
Fixpoint rfind_dot (s : string) : option nat :=
  match s with
  | EmptyString => None
  | String c r =>
      match rfind_dot r with
      | Some i => Some (S i)
      | None => if Ascii.eqb c "." then Some 0%nat else None
      end
  end.

(** [PurePath.suffix]: the last dot-separated part of the name, with its dot,
    unless the only dot is the first or the last character. *)
Definition suffix (name : string) : string :=
  match rfind_dot name with
  | Some i =>
      if ((0 <? i) && (i <? String.length name - 1))%nat
      then substring i (String.length name - i) name
      else ""
  | None => ""
  end.

(** [list.sort] on the paths of one directory: the order of the names. *)
Fixpoint insert_sorted (x : string) (l : list string) : list string :=
  match l with
  | [] => [x]
  | y :: r => if String.leb x y then x :: l else y :: insert_sorted x r
  end.

Definition sort_names (l : list string) : list string :=
  fold_right insert_sorted [] l.

(** ** JSON values, as [json.load] returns them

    A Python [dict] is kept as the list of its items in insertion order; its
    keys are pairwise distinct ([wf_json]).  Numbers are the integers: the
    manifests of this program hold no floats. *)

Inductive json :=
| JNull
| JBool (b : bool)
| JInt (n : Z)
| JStr (s : string)
| JList (items : list json)
| JDict (items : list (string * json)).

Fixpoint assoc {A : Type} (k : string) (d : list (string * A)) : option A :=
  match d with
  | [] => None
  | (k', v) :: r => if String.eqb k k' then Some v else assoc k r
  end.

(** Python truthiness: [not x] is [negb (truthy x)]. *)
Definition truthy (v : json) : bool :=
  match v with
  | JNull => false
  | JBool b => b
  | JInt n => negb (n =? 0)
  | JStr s => negb (String.eqb s "")
  | JList l => match l with [] => false | _ => true end
  | JDict d => match d with [] => false | _ => true end
  end.

(** Python [==] on JSON values: lists compare element by element, dicts
    compare as mappings (same number of keys, every key of the left one
    bound to an equal value in the right one), [True == 1] and [False == 0]. *)
Fixpoint py_eq (x y : json) : bool :=
  match x, y with
  | JNull, JNull => true
  | JBool a, JBool b => Bool.eqb a b
  | JBool a, JInt n => n =? (if a then 1 else 0)
  | JInt n, JBool a => n =? (if a then 1 else 0)
  | JInt a, JInt b => a =? b
  | JStr a, JStr b => String.eqb a b
  | JList a, JList b =>
      (fix go (a b : list json) : bool :=
         match a, b with
         | [], [] => true
         | x :: a', y :: b' => py_eq x y && go a' b'
         | _, _ => false
         end) a b
  | JDict a, JDict b =>
      Nat.eqb (List.length a) (List.length b)
      && (fix go (a : list (string * json)) : bool :=
            match a with
            | [] => true
            | (k, x) :: a' =>
                match assoc k b with
                | Some y => py_eq x y
                | None => false
                end && go a'
            end) a
  | _, _ => false
  end.

Definition hashable (v : json) : bool :=
  match v with
  | JList _ | JDict _ => false
  | _ => true
  end.

Fixpoint distinct (l : list string) : bool :=
  match l with
  | [] => true
  | x :: r => negb (existsb (String.eqb x) r) && distinct r
  end.

(** A value that a Python program can hold: no dict has a key twice. *)
Fixpoint wf_json (v : json) : bool :=
  match v with
  | JList l => forallb wf_json l
  | JDict d =>
      distinct (map fst d)
      && (fix go (d : list (string * json)) : bool :=
            match d with
            | [] => true
            | (_, x) :: r => wf_json x && go r
            end) d
  | _ => true
  end.

(** ** The platform: libraries and external tools

    What the program obtains from [hashlib], [PIL], [json], [datetime], the
    file object and ImageMagick's [convert].  File contents are opaque: the
    program hands them to these functions and never looks inside. *)

Class Platform := {
  bytes : Type;
  (** the content of a file just opened with mode ["w"] *)
  bytes_empty : bytes;
  (** the content after one more [fp.write(chunk)] *)
  bytes_app : bytes -> bytes -> bytes;
  (** [os.stat().st_size] of a file with this content *)
  size_of : bytes -> Z;
  (** [hashlib.sha256] over the whole content, as [hexdigest()] *)
  sha256_hexdigest : bytes -> string;
  (** [Image.open]: the decoded [(width, height)], [None] when it raises *)
  Image_open : bytes -> option (Z * Z);
  (** [img.verify()] does not raise *)
  Image_verify : bytes -> bool;
  (** [json.load]: [None] when it raises *)
  json_load : bytes -> option json;
  (** the chunks [json.dump(obj, f, indent=2)] passes to [f.write] *)
  json_iterencode : json -> list bytes;
  (** [convert src -thumbnail WxH^ -gravity center -extent WxH -quality 80 dst]:
      the captured error stream on a non-zero exit, the output file otherwise *)
  convert : bytes -> Z * Z -> string + bytes;
  (** [datetime.fromtimestamp(t).isoformat()] *)
  isoformat : Z -> string;
}.

Section Model.

Context {P : Platform}.

(** The text [json.dump] leaves in a file it wrote completely. *)
Definition json_dump (v : json) : bytes :=
  fold_left bytes_app (json_iterencode v) bytes_empty.

(** ** File system *)

Record file := {
  f_mtime : Z;
  (** [open(path)] for reading succeeds *)
  f_readable : bool;
  f_data : bytes;
}.

Inductive node :=
| File (f : file)
| Dir (mtime : Z) (entries : list (string * node)).

Definition path := list string.

Fixpoint dlookup (x : string) (d : list (string * node)) : option node :=
  match d with
  | [] => None
  | (y, n) :: r => if String.eqb x y then Some n else dlookup x r
  end.

(** Replace the entry named [x], in place. *)
Fixpoint dupdate (x : string) (n : node) (d : list (string * node))
  : list (string * node) :=
  match d with
  | [] => []
  | (y, c) :: r =>
      if String.eqb x y then (y, n) :: r else (y, c) :: dupdate x n r
  end.

Fixpoint lookup_path (p : path) (n : node) : option node :=
  match p with
  | [] => Some n
  | x :: q =>
      match n with
      | Dir _ d =>
          match dlookup x d with
          | Some c => lookup_path q c
          | None => None
          end
      | File _ => None
      end
  end.

(** The file system is what lies at the root path the processor was given:
    [None] when that path does not exist.  Paths are relative to it. *)
Definition fs_lookup (fs : option node) (p : path) : option node :=
  match fs with
  | Some n => lookup_path p n
  | None => None
  end.

(** Put [new] at [p]: replace what is there, or add an entry to the parent
    directory, whose modification time then becomes [now]. *)
Fixpoint store (now : Z) (p : path) (new : node) (n : node) : option node :=
  match p with
  | [] => Some new
  | x :: q =>
      match n with
      | Dir m d =>
          match dlookup x d with
          | Some c =>
              match store now q new c with
              | Some c' => Some (Dir m (dupdate x c' d))
              | None => None
              end
          | None =>
              match q with
              | [] => Some (Dir now (d ++ [(x, new)]))
              | _ => None
              end
          end
      | File _ => None
      end
  end.

Definition fs_store (now : Z) (p : path) (new : node) (fs : option node)
  : option node :=
  match fs with
  | Some n => store now p new n
  | None => None
  end.

Definition st_mtime (n : node) : Z :=
  match n with
  | File f => f_mtime f
  | Dir m _ => m
  end.

(** The program reads [st_size] of image files only. *)
Definition st_size (n : node) : Z :=
  match n with
  | File f => size_of (f_data f)
  | Dir _ _ => 0
  end.

Definition path_name (p : path) : string := last p "".

(** ** Exceptions, console output, system-call trace *)

Inductive exn :=
| ValueError (message : string)
| FileNotFoundError
| NotADirectoryError
| IsADirectoryError
| FileExistsError
| PermissionError
| OSError
| AttributeError
| TypeError
| KeyError (key : string)
| UnidentifiedImageError
| JSONDecodeError
| CalledProcessError (stderr : string).


(** One constructor per [print] of the program. *)
Inductive msg :=
| WarnInvalidImage (p : path) (e : exn)
| WouldCreateThumbnail (p : path)
| ThumbnailUpToDate (p : path)
| ErrorCreatingThumbnail (p : path) (stderr : string)
| WarnCouldNotRead (p : path) (e : exn)
| CreatedRootIndex (albums : nat)
| RootIndexUpToDate (dry : bool)
| CreatedAlbumIndex (album : string) (images : nat)
| AlbumIndexUpToDate (album : string) (dry : bool)
| ImageMagickMissing
| ProcessingCompleted
| ErrorMessage (e : exn).

(** The calls that change the file system or start the external tool. *)
Inductive event :=
| EvMkdir (p : path)
| EvOpenW (p : path)
| EvConvert (src dst : path) (ok : bool).

Definition msg_in (a : string) (m : msg) : msg :=
  match m with
  | WarnInvalidImage p e => WarnInvalidImage (a :: p) e
  | WouldCreateThumbnail p => WouldCreateThumbnail (a :: p)
  | ThumbnailUpToDate p => ThumbnailUpToDate (a :: p)
  | ErrorCreatingThumbnail p s => ErrorCreatingThumbnail (a :: p) s
  | WarnCouldNotRead p e => WarnCouldNotRead (a :: p) e
  | m => m
  end.

Definition ev_in (a : string) (e : event) : event :=
  match e with
  | EvMkdir p => EvMkdir (a :: p)
  | EvOpenW p => EvOpenW (a :: p)
  | EvConvert s d ok => EvConvert (a :: s) (a :: d) ok
  end.

(** ** The monad of the program *)

Record world := {
  w_fs : option node;
  (** the wall clock *)
  w_now : Z;
  (** how many more [f.write] calls the disk accepts; [None]: no limit *)
  w_quota : option nat;
  w_out : list msg;
  w_ev : list event;
}.

Inductive res (A : Type) :=
| Ret (a : A)
| Raise (e : exn).
#[global] Arguments Ret {A} a.
#[global] Arguments Raise {A} e.

(** A computation returns or raises, and in both cases leaves a world. *)
Definition M (A : Type) : Type := world -> res A * world.

Definition ret {A : Type} (a : A) : M A := fun w => (Ret a, w).

Definition raise {A : Type} (e : exn) : M A := fun w => (Raise e, w).

Definition bind {A B : Type} (m : M A) (k : A -> M B) : M B :=
  fun w =>
    match m w with
    | (Ret a, w') => k a w'
    | (Raise e, w') => (Raise e, w')
    end.

(** [try: m except Exception as e: h e] *)
Definition try_except {A : Type} (m : M A) (h : exn -> M A) : M A :=
  fun w =>
    match m w with
    | (Ret a, w') => (Ret a, w')
    | (Raise e, w') => h e w'
    end.

Definition is_CalledProcessError (e : exn) : option string :=
  match e with
  | CalledProcessError s => Some s
  | _ => None
  end.

(** [try: m except subprocess.CalledProcessError as e: h e.stderr] *)
Definition try_except_called {A : Type} (m : M A) (h : string -> M A) : M A :=
  fun w =>
    match m w with
    | (Ret a, w') => (Ret a, w')
    | (Raise e, w') =>
        match is_CalledProcessError e with
        | Some s => h s w'
        | None => (Raise e, w')
        end
    end.

End Model.

Declare Scope prog_scope.
Delimit Scope prog_scope with prog.
Notation "x <- m ;; k" := (bind m (fun x => k))
  (at level 61, m at next level, right associativity) : prog_scope.
Notation "m ;; k" := (bind m (fun _ => k))
  (at level 61, right associativity) : prog_scope.

Section Program.

Context {P : Platform}.
Local Open Scope prog_scope.

Fixpoint foldM {A B : Type} (f : A -> B -> M A) (acc : A) (l : list B) : M A :=
  match l with
  | [] => ret acc
  | x :: r => acc' <- f acc x ;; foldM f acc' r
  end.

(** [for x in l: f x] *)
Definition for_ {B : Type} (l : list B) (f : B -> M unit) : M unit :=
  foldM (fun _ x => f x) tt l.

Definition gets {A : Type} (f : world -> A) : M A := fun w => (Ret (f w), w).

Definition with_fs (w : world) (fs : option node) : world :=
  {| w_fs := fs; w_now := w_now w; w_quota := w_quota w;
     w_out := w_out w; w_ev := w_ev w |}.

Definition with_quota (w : world) (q : option nat) : world :=
  {| w_fs := w_fs w; w_now := w_now w; w_quota := q;
     w_out := w_out w; w_ev := w_ev w |}.

Definition print (m : msg) : M unit :=
  fun w =>
    (Ret tt, {| w_fs := w_fs w; w_now := w_now w; w_quota := w_quota w;
                w_out := w_out w ++ [m]; w_ev := w_ev w |}).

Definition emit (e : event) : M unit :=
  fun w =>
    (Ret tt, {| w_fs := w_fs w; w_now := w_now w; w_quota := w_quota w;
                w_out := w_out w; w_ev := w_ev w ++ [e] |}).

(** *** System calls *)

Definition fs_exists (fs : option node) (p : path) : bool :=
  match fs_lookup fs p with
  | Some _ => true
  | None => false
  end.

Definition fs_is_dir (fs : option node) (p : path) : bool :=
  match fs_lookup fs p with
  | Some (Dir _ _) => true
  | _ => false
  end.

Definition fs_is_file (fs : option node) (p : path) : bool :=
  match fs_lookup fs p with
  | Some (File _) => true
  | _ => false
  end.

Definition path_exists (p : path) : M bool :=
  gets (fun w => fs_exists (w_fs w) p).

(** The names in a directory, in the order the system lists them. *)
Definition iterdir (p : path) : M (list string) :=
  fun w =>
    match fs_lookup (w_fs w) p with
    | Some (Dir _ d) => (Ret (map fst d), w)
    | Some (File _) => (Raise NotADirectoryError, w)
    | None => (Raise FileNotFoundError, w)
    end.

Definition stat (p : path) : M node :=
  fun w =>
    match fs_lookup (w_fs w) p with
    | Some n => (Ret n, w)
    | None => (Raise FileNotFoundError, w)
    end.

(** [open(path, "rb")] and reading to the end *)
Definition open_read (p : path) : M bytes :=
  fun w =>
    match fs_lookup (w_fs w) p with
    | Some (File f) =>
        if f_readable f then (Ret (f_data f), w) else (Raise PermissionError, w)
    | Some (Dir _ _) => (Raise IsADirectoryError, w)
    | None => (Raise FileNotFoundError, w)
    end.

Definition datetime_now : M Z := gets w_now.

Definition put (p : path) (n : node) (e : exn) : M unit :=
  fun w =>
    match fs_store (w_now w) p n (w_fs w) with
    | Some r => (Ret tt, with_fs w (Some r))
    | None => (Raise e, w)
    end.

(** [open(path, "w")]: the file is created, or cut to length zero. *)
Definition open_w (p : path) : M unit :=
  fun w =>
    match fs_lookup (w_fs w) p with
    | Some (Dir _ _) => (Raise IsADirectoryError, w)
    | Some (File f) =>
        (put p (File {| f_mtime := w_now w; f_readable := f_readable f;
                        f_data := bytes_empty |}) FileNotFoundError ;;
         emit (EvOpenW p)) w
    | None =>
        (put p (File {| f_mtime := w_now w; f_readable := true;
                        f_data := bytes_empty |}) FileNotFoundError ;;
         emit (EvOpenW p)) w
    end.

(** [f.write(chunk)] on the file opened at [p]; the disk may be full. *)
Definition write_chunk (p : path) (c : bytes) : M unit :=
  fun w =>
    match w_quota w with
    | Some O => (Raise OSError, w)
    | q =>
        match fs_lookup (w_fs w) p with
        | Some (File f) =>
            put p (File {| f_mtime := w_now w; f_readable := f_readable f;
                           f_data := bytes_app (f_data f) c |}) OSError
              (with_quota w (match q with Some (S k) => Some k | _ => q end))
        | _ => (Raise OSError, w)
        end
    end.

(** [with open(path, "w", encoding="utf-8") as f: json.dump(v, f, indent=2)] *)
Definition write_json (p : path) (v : json) : M unit :=
  open_w p ;;
  for_ (json_iterencode v) (write_chunk p).

(** [path.mkdir(exist_ok=True)] *)
Definition mkdir (p : path) : M unit :=
  fun w =>
    match fs_lookup (w_fs w) p with
    | Some (Dir _ _) => (Ret tt, w)
    | Some (File _) => (Raise FileExistsError, w)
    | None =>
        (put p (Dir (w_now w) []) FileNotFoundError ;; emit (EvMkdir p)) w
    end.

(** What [convert src ... dst] does to the file system: the tool reads
    [src], and on success leaves its output at [dst]; when it cannot read
    [src] or cannot write [dst] it exits non-zero, as it does when the
    conversion itself fails.  The result is the captured error stream, or the
    file system with the new thumbnail. *)
Definition convert_outcome (now : Z) (fs : option node) (src dst : path)
    (size : Z * Z) : string + node :=
  let unable := inl "convert: unable to open image" in
  match fs_lookup fs src with
  | Some (File f) =>
      if f_readable f then
        match convert (f_data f) size with
        | inl s => inl s
        | inr out =>
            match fs_lookup fs dst with
            | Some (Dir _ _) => unable
            | old =>
                let readable :=
                  match old with
                  | Some (File o) => f_readable o
                  | _ => true
                  end in
                match fs_store now dst
                        (File {| f_mtime := now; f_readable := readable;
                                 f_data := out |}) fs with
                | Some r => inr r
                | None => unable
                end
            end
        end
      else unable
  | _ => unable
  end.

(** [subprocess.run(["convert", src, ..., dst], check=True, capture_output=True)] *)
Definition run_convert (src dst : path) (size : Z * Z) : M unit :=
  fun w =>
    match convert_outcome (w_now w) (w_fs w) src dst size with
    | inl s => (emit (EvConvert src dst false) ;;
                raise (CalledProcessError s)) w
    | inr r => emit (EvConvert src dst true) (with_fs w (Some r))
    end.

(** Run [m] with the directory [a] as the root of its paths: what the source
    writes [album_dir / ...] is a path inside [a].  The messages and events
    of [m] come out with their paths prefixed by [a]. *)
Definition in_dir {A : Type} (a : string) (m : M A) : M A :=
  fun w =>
    let sub := {| w_fs := fs_lookup (w_fs w) [a]; w_now := w_now w;
                  w_quota := w_quota w; w_out := []; w_ev := [] |} in
    let (r, sub') := m sub in
    (r, {| w_fs := match w_fs w, w_fs sub' with
                   | Some (Dir mt d), Some c => Some (Dir mt (dupdate a c d))
                   | fs, _ => fs
                   end;
           w_now := w_now w;
           w_quota := w_quota sub';
           w_out := w_out w ++ map (msg_in a) (w_out sub');
           w_ev := w_ev w ++ map (ev_in a) (w_ev sub') |}).

(** *** Python operations on JSON values *)

(** [v.get(k, default)] *)
Definition py_get (v : json) (k : string) (default : json) : M json :=
  match v with
  | JDict d => ret (match assoc k d with Some x => x | None => default end)
  | _ => raise AttributeError
  end.

(** [v[k]] for a string [k] *)
Definition py_getitem (v : json) (k : string) : M json :=
  match v with
  | JDict d =>
      match assoc k d with
      | Some x => ret x
      | None => raise (KeyError k)
      end
  | _ => raise TypeError
  end.

(** [for x in v] *)
Definition py_iter (v : json) : M (list json) :=
  match v with
  | JList l => ret l
  | JDict d => ret (map (fun kv => JStr (fst kv)) d)
  | JStr s => ret (map (fun c => JStr (String c "")) (list_ascii_of_string s))
  | _ => raise TypeError
  end.

(** [{img["name"]: img for img in imgs}], as the list of the insertions. *)
Definition name_index (imgs : list json) : M (list (json * json)) :=
  foldM (fun d img =>
           k <- py_getitem img "name" ;;
           if hashable k then ret (d ++ [(k, img)]) else raise TypeError)
        [] imgs.

(** [d.get(name)]: the value inserted last under a key equal to [name]. *)
Definition index_get (d : list (json * json)) (name : string) : json :=
  match find (fun kv => py_eq (fst kv) (JStr name)) (rev d) with
  | Some (_, v) => v
  | None => JNull
  end.

(** ** class ImageProcessor *)

Record ImageProcessor := {
  extensions : list string;
  thumbnail_size : Z * Z;
  dry_run : bool;
}.

Definition size_eqb (a b : Z * Z) : bool :=
  (fst a =? fst b) && (snd a =? snd b).

Definition normalize_ext (ext : string) : string :=
  if startswith_dot ext then lower ext else ("." ++ lower ext)%string.

(** [get_albums] *)
Definition get_albums : M (list string) :=
  names <- iterdir [] ;;
  fs <- gets w_fs ;;
  ret (filter (fun d => fs_is_dir fs [d] && negb (String.eqb d "thumbnails"))
              names).

(** [__init__] *)
Definition init (exts : list string) (size : Z * Z) (dry : bool)
  : M ImageProcessor :=
  let self := {| extensions := map normalize_ext exts;
                 thumbnail_size := size; dry_run := dry |} in
  root_exists <- path_exists [] ;;
  (if negb root_exists then raise (ValueError "Root path does not exist")
   else ret tt) ;;
  (if negb dry then
     albums <- get_albums ;;
     for_ albums (fun album => mkdir [album; "thumbnails"])
   else ret tt) ;;
  ret self.

(** [calculate_image_hash] *)
Definition calculate_image_hash (p : path) : M string :=
  data <- open_read p ;;
  ret (sha256_hexdigest data).

(** [Image.open(path)]: the opened image is its content and its size. *)
Definition pil_open (p : path) : M (bytes * (Z * Z)) :=
  data <- open_read p ;;
  match Image_open data with
  | Some size => ret (data, size)
  | None => raise UnidentifiedImageError
  end.

(** [img.verify()] *)
Definition pil_verify (img : bytes * (Z * Z)) : M unit :=
  if Image_verify (fst img) then ret tt else raise UnidentifiedImageError.

(** [is_valid_image] *)
Definition is_valid_image (self : ImageProcessor) (p : path) : M bool :=
  if negb (existsb (String.eqb (lower (suffix (path_name p))))
                   (extensions self))
  then ret false
  else
    try_except
      (img <- pil_open p ;;
       pil_verify img ;;
       ret true)
      (fun e => print (WarnInvalidImage p e) ;; ret false).

(** [get_image_info] *)
Definition get_image_info (p : path) : M json :=
  img <- pil_open p ;;
  st <- stat p ;;
  hash <- calculate_image_hash p ;;
  ret (JDict [("name", JStr (path_name p));
              ("width", JInt (fst (snd img)));
              ("height", JInt (snd (snd img)));
              ("size", JInt (st_size st));
              ("modified", JStr (isoformat (st_mtime st)));
              ("thumbnail", JStr ("thumbnails/" ++ path_name p)%string);
              ("hash", JStr hash)]).

(** [should_update_thumbnail] *)
Definition should_update_thumbnail (self : ImageProcessor)
    (image_path thumb_path : path) : M bool :=
  thumb_exists <- path_exists thumb_path ;;
  if negb thumb_exists then ret true
  else
    image_st <- stat image_path ;;
    thumb_st <- stat thumb_path ;;
    if st_mtime image_st >? st_mtime thumb_st then ret true
    else
      try_except
        (thumb <- pil_open thumb_path ;;
         if negb (size_eqb (snd thumb) (thumbnail_size self)) then ret true
         else ret false)
        (fun _ => ret true).

(** [create_thumbnail] *)
Definition create_thumbnail (self : ImageProcessor)
    (image_path thumb_path : path) : M bool :=
  if dry_run self then
    print (WouldCreateThumbnail thumb_path) ;;
    ret true
  else
    stale <- should_update_thumbnail self image_path thumb_path ;;
    if negb stale then
      print (ThumbnailUpToDate thumb_path) ;;
      ret true
    else
      try_except_called
        (run_convert image_path thumb_path (thumbnail_size self) ;;
         ret true)
        (fun stderr =>
           print (ErrorCreatingThumbnail image_path stderr) ;;
           ret false).

(** [read_existing_index]; Python's [None] is [JNull]. *)
Definition read_existing_index (p : path) : M json :=
  try_except
    (index_exists <- path_exists p ;;
     if index_exists then
       data <- open_read p ;;
       match json_load data with
       | Some v => ret v
       | None => raise JSONDecodeError
       end
     else ret JNull)
    (fun e => print (WarnCouldNotRead p e) ;; ret JNull).

(** The decision before each manifest write:
    [not self.dry_run and (not existing or existing.get(key) != new)]. *)
Definition must_write (self : ImageProcessor) (existing : json)
    (key : string) (new : json) : M bool :=
  if dry_run self then ret false
  else if negb (truthy existing) then ret true
  else
    old <- py_get existing key JNull ;;
    ret (negb (py_eq old new)).

(** The image files of the album, lines 178 to 188. *)
Definition list_image_files (self : ImageProcessor) : M (list string) :=
  image_files <-
    foldM (fun image_files ext =>
             names <- iterdir [] ;;
             fs <- gets w_fs ;;
             ret (image_files
                  ++ filter (fun f => fs_is_file fs [f]
                                      && String.eqb (lower (suffix f)) ext)
                            names))
          [] (extensions self) ;;
  ret (sort_names image_files).

(** The body of the loop over the image files, lines 191 to 207. *)
Definition process_image (self : ImageProcessor)
    (existing_images : list (json * json)) (images_info : list json)
    (image : string) : M (list json) :=
  valid <- is_valid_image self [image] ;;
  if negb valid then ret images_info
  else
    let thumb_path := ["thumbnails"; image] in
    created <- create_thumbnail self [image] thumb_path ;;
    if created then
      current_hash <- calculate_image_hash [image] ;;
      let existing_image := index_get existing_images image in
      unchanged <-
        (if truthy existing_image then
           old_hash <- py_get existing_image "hash" JNull ;;
           ret (py_eq old_hash (JStr current_hash))
         else ret false) ;;
      if unchanged then ret (images_info ++ [existing_image])
      else
        image_info <- get_image_info [image] ;;
        ret (images_info ++ [image_info])
    else ret images_info.

(** The end of the loop body over the albums, lines 209 to 231. *)
Definition persist_album (self : ImageProcessor) (album : string)
    (existing_album_index : json) (images_info : list json) : M unit :=
  now <- datetime_now ;;
  let album_index :=
    JDict [("name", JStr album);
           ("images", JList images_info);
           ("count", JInt (Z.of_nat (List.length images_info)));
           ("generated", JStr (isoformat now));
           ("version", JStr "2.0")] in
  changed <- must_write self existing_album_index "images" (JList images_info) ;;
  if changed then
    write_json ["index.json"] album_index ;;
    print (CreatedAlbumIndex album (List.length images_info))
  else
    print (AlbumIndexUpToDate album (dry_run self)).

(** The name-indexed lookup of the prior entries, lines 172 to 176. *)
Definition index_existing_images (existing_album_index : json)
  : M (list (json * json)) :=
  if truthy existing_album_index then
    images <- py_get existing_album_index "images" (JList []) ;;
    imgs <- py_iter images ;;
    name_index imgs
  else ret [].

(** The body of the loop over the albums, run inside the album directory. *)
Definition process_album (self : ImageProcessor) (album : string) : M unit :=
  existing_album_index <- read_existing_index ["index.json"] ;;
  existing_images <- index_existing_images existing_album_index ;;
  image_files <- list_image_files self ;;
  images_info <- foldM (process_image self existing_images) [] image_files ;;
  persist_album self album existing_album_index images_info.

(** [process_images] *)
Definition process_images (self : ImageProcessor) : M unit :=
  albums <- get_albums ;;
  existing_root_index <- read_existing_index ["index.json"] ;;
  now <- datetime_now ;;
  let root_index :=
    JDict [("albums", JList (map JStr albums));
           ("generated", JStr (isoformat now));
           ("version", JStr "2.0")] in
  changed <- must_write self existing_root_index "albums"
                        (JList (map JStr albums)) ;;
  (if changed then
     write_json ["index.json"] root_index ;;
     print (CreatedRootIndex (List.length albums))
   else
     print (RootIndexUpToDate (dry_run self))) ;;
  for_ albums (fun album => in_dir album (process_album self album)).

(** [main], after argument parsing; [imagemagick] is what
    [check_imagemagick()] returned.  The result is the exit status. *)
Definition main (imagemagick : bool) (exts : list string) (size : Z * Z)
    (dry : bool) : M Z :=
  if negb imagemagick then
    print ImageMagickMissing ;;
    ret 1
  else
    try_except
      (processor <- init exts size dry ;;
       process_images processor ;;
       print ProcessingCompleted ;;
       ret 0)
      (fun e => print (ErrorMessage e) ;; ret 1).

End Program.

(** ** A small platform and sample galleries

    File contents are pictures, which carry their decoded size, and texts,
    which carry the JSON chunks written so far. *)

Module Demo.

Inductive blob :=
| Picture (w h : Z) (tag : string)
| Damaged (w h : Z) (tag : string)
| Exotic (w h : Z) (tag : string)
| Text (chunks : list (option json)).

Definition blob_app (a b : blob) : blob :=
  match a, b with
  | Text x, Text y => Text (x ++ y)
  | _, _ => a
  end.

Definition blob_tag (b : blob) : string :=
  match b with
  | Picture _ _ t | Damaged _ _ t | Exotic _ _ t => t
  | Text _ => "text"
  end.

Definition demo : Platform := {|
  bytes := blob;
  bytes_empty := Text [];
  bytes_app := blob_app;
  size_of := fun b =>
    match b with
    | Picture w h _ | Damaged w h _ | Exotic w h _ => w * h
    | Text l => Z.of_nat (List.length l)
    end;
  sha256_hexdigest := fun b => ("sha256:" ++ blob_tag b)%string;
  Image_open := fun b =>
    match b with
    | Picture w h _ | Damaged w h _ | Exotic w h _ => Some (w, h)
    | Text _ => None
    end;
  Image_verify := fun b =>
    match b with
    | Picture _ _ _ | Exotic _ _ _ => true
    | _ => false
    end;
  json_load := fun b =>
    match b with
    | Text [None; Some v] => if wf_json v then Some v else None
    | _ => None
    end;
  json_iterencode := fun v => [Text [None]; Text [Some v]];
  convert := fun b size =>
    match b with
    | Picture _ _ t => inr (Picture (fst size) (snd size) t)
    | _ => inl "convert: no decode delegate for this image format"
    end;
  isoformat := fun t => if t <? 1000 then "1970-01-01T00:00:00" else "1970-01-01T00:16:40";
|}.

#[local] Existing Instance demo.

Definition picture (t : Z) (w h : Z) (tag : string) : node :=
  File {| f_mtime := t; f_readable := true; f_data := Picture w h tag |}.

Definition world_of (fs : option node) (now : Z) : world :=
  {| w_fs := fs; w_now := now; w_quota := None; w_out := []; w_ev := [] |}.

(** One album with one picture, no thumbnail directory yet, no manifest. *)
Definition gallery : option node :=
  Some (Dir 10 [("A", Dir 20 [("a.jpg", picture 30 640 480 "a")])]).

Definition defaults (dry : bool) : ImageProcessor :=
  {| extensions := [".jpg"; ".jpeg"; ".png"; ".gif"];
     thumbnail_size := (300, 300); dry_run := dry |}.

(** The same album with an album manifest already in place. *)
Definition old_manifest : json :=
  JDict [("name", JStr "A"); ("images", JList []); ("count", JInt 0);
         ("generated", JStr "1970-01-01T00:00:00"); ("version", JStr "2.0")].

Definition text (t : Z) (v : json) : node :=
  File {| f_mtime := t; f_readable := true; f_data := Text [None; Some v] |}.

Definition album_with_manifest : option node :=
  Some (Dir 20 [("a.jpg", picture 30 640 480 "a");
                ("index.json", text 40 old_manifest)]).

(** The album after a run: the thumbnail is in place. *)
Definition album : option node :=
  Some (Dir 20 [("a.jpg", picture 30 640 480 "a");
                ("b.jpg", File {| f_mtime := 31; f_readable := true;
                                  f_data := Damaged 10 10 "b" |});
                ("c.jpg", File {| f_mtime := 32; f_readable := true;
                                  f_data := Exotic 10 10 "c" |});
                ("thumbnails", Dir 50 [("a.jpg", picture 50 300 300 "a")]);
                ("index.json", File {| f_mtime := 33; f_readable := true;
                                       f_data := Damaged 1 1 "not json" |})]).

(** A disk with room for one more chunk. *)
Definition nearly_full (fs : option node) (now : Z) : world :=
  {| w_fs := fs; w_now := now; w_quota := Some 1%nat; w_out := []; w_ev := [] |}.

Definition prior_entry : json :=
  JDict [("name", JStr "a.jpg"); ("hash", JStr "sha256:a");
         ("caption", JStr "kept from an earlier version")].


(** The worlds the first run of the program leaves, at time 1000. *)
Definition gallery_indexed : world :=
  Eval vm_compute in
    snd (main true [".jpg"] (300, 300) false (world_of gallery 1000)).


(** An album in which a regular file has the name of the thumbnail
    directory, an album whose manifest is a JSON list, and a root that holds
    more than albums. *)
Definition blocked_gallery : option node :=
  Some (Dir 10 [("A", Dir 20 [("a.jpg", picture 30 640 480 "a");
                              ("thumbnails", picture 31 1 1 "t")])]).

Definition album_with_list_manifest : option node :=
  Some (Dir 20 [("a.jpg", picture 30 640 480 "a");
                ("index.json", text 40 (JList [JInt 1]))]).

Definition gallery_with_notes : option node :=
  Some (Dir 10 [("README", text 11 (JStr "notes"));
                ("thumbnails", Dir 12 [("old.jpg", picture 12 300 300 "o")]);
                ("A", Dir 20 [("a.jpg", picture 30 640 480 "a")])]).

Definition photo (t : Z) (w h : Z) (tag : string) : file :=
  {| f_mtime := t; f_readable := true; f_data := Picture w h tag |}.

(** The album of [gallery] once the constructor has run. *)
Definition gallery_album : option node :=
  Some (Dir 20 [("a.jpg", picture 30 640 480 "a"); ("thumbnails", Dir 20 [])]).

(** A gallery that still holds the thumbnail of a deleted image. *)
Definition gallery_with_orphan : option node :=
  Some (Dir 10 [("A", Dir 20 [("a.jpg", picture 30 640 480 "a");
                              ("thumbnails",
                               Dir 25 [("gone.jpg", picture 25 300 300 "g")])])]).


Definition older_entry : json :=
  JDict [("name", JStr "a.jpg"); ("hash", JStr "sha256:0")].

End Demo.

(** * Specification-side definitions *)

Section Specification.

Context {P : Platform}.

(** The size PIL decodes from what lies at a thumbnail path, if it opens. *)
Definition decoded_size (n : node) : option (Z * Z) :=
  match n with
  | File f => if f_readable f then Image_open (f_data f) else None
  | Dir _ _ => None
  end.

(** Staleness as the specification words it: (1) the thumbnail does not
    exist, or (2) the source is strictly newer than the thumbnail, or (3) the
    thumbnail does not open or its size is not the target size. *)
Definition stale_by_spec (self : ImageProcessor) (fs : option node)
    (image_path thumb_path : path) : bool :=
  match fs_lookup fs thumb_path with
  | None => true
  | Some thumb =>
      match fs_lookup fs image_path with
      | Some image => st_mtime image >? st_mtime thumb
      | None => false
      end
      || match decoded_size thumb with
         | Some size => negb (size_eqb size (thumbnail_size self))
         | None => true
         end
  end.

Definition say (w : world) (m : msg) : world :=
  {| w_fs := w_fs w; w_now := w_now w; w_quota := w_quota w;
     w_out := w_out w ++ [m]; w_ev := w_ev w |}.

Definition record (w : world) (e : event) : world :=
  {| w_fs := w_fs w; w_now := w_now w; w_quota := w_quota w;
     w_out := w_out w; w_ev := w_ev w ++ [e] |}.



Definition content_at (fs : option node) (p : path) : option bytes :=
  match fs_lookup fs p with
  | Some (File f) => Some (f_data f)
  | _ => None
  end.

(** The filenames recorded in the manifest of an album. *)
Definition entry_name (e : json) : json :=
  match e with
  | JDict d => match assoc "name" d with Some n => n | None => JNull end
  | _ => JNull
  end.

Definition manifest_names (fs : option node) (album : string)
  : option (list json) :=
  match content_at fs [album; "index.json"] with
  | Some data =>
      match json_load data with
      | Some (JDict d) =>
          match assoc "images" d with
          | Some (JList l) => Some (map entry_name l)
          | _ => None
          end
      | _ => None
      end
  | None => None
  end.

(** The images sequence of the prior manifest, [None] when it has none. *)
Definition prior_images (existing : json) : json :=
  match existing with
  | JDict d => match assoc "images" d with Some x => x | None => JNull end
  | _ => JNull
  end.

(** The condition of the specification for persisting an album manifest: no
    prior manifest (absent or unreadable), or a prior images sequence that
    differs by value from the new one. *)
Definition changed_by_spec (existing : json) (images_info : list json) : bool :=
  match existing with
  | JNull => true
  | _ => negb (py_eq (prior_images existing) (JList images_info))
  end.

(** The album manifest assembled at line 210. *)
Definition album_index (album : string) (images_info : list json) (now : Z)
  : json :=
  JDict [("name", JStr album);
         ("images", JList images_info);
         ("count", JInt (Z.of_nat (List.length images_info)));
         ("generated", JStr (isoformat now));
         ("version", JStr "2.0")].


(** The claim that a manifest write is all or nothing: afterwards the file
    holds what it held before, or the whole new manifest. *)
Definition all_or_nothing (p : path) (v : json) (w : world) : Prop :=
  let w' := snd (write_json p v w) in
  content_at (w_fs w') p = content_at (w_fs w) p
  \/ content_at (w_fs w') p = Some (json_dump v).

(** *** One image of the album loop, as a function *)

(** [path.suffix.lower() in self.extensions] *)
Definition ext_ok (self : ImageProcessor) (name : string) : bool :=
  existsb (String.eqb (lower (suffix name))) (extensions self).

(** [Image.open] followed by [verify] on what lies at [p]: the exception
    raised, or the file and its decoded size. *)
Definition decode (fs : option node) (p : path) : exn + file * (Z * Z) :=
  match fs_lookup fs p with
  | Some (File f) =>
      if f_readable f then
        match Image_open (f_data f) with
        | Some size =>
            if Image_verify (f_data f) then inr (f, size)
            else inl UnidentifiedImageError
        | None => inl UnidentifiedImageError
        end
      else inl PermissionError
  | Some (Dir _ _) => inl IsADirectoryError
  | None => inl FileNotFoundError
  end.

(** The fresh metadata of [get_image_info]. *)
Definition image_info (name : string) (f : file) (size : Z * Z) : json :=
  JDict [("name", JStr name);
         ("width", JInt (fst size));
         ("height", JInt (snd size));
         ("size", JInt (size_of (f_data f)));
         ("modified", JStr (isoformat (f_mtime f)));
         ("thumbnail", JStr ("thumbnails/" ++ name)%string);
         ("hash", JStr (sha256_hexdigest (f_data f)))].

Definition entry_hash (e : json) : json :=
  match e with
  | JDict d => match assoc "hash" d with Some h => h | None => JNull end
  | _ => JNull
  end.

(** The entry the reconciler appends for an image: the prior entry of that
    name when its hash is the current one, fresh metadata otherwise. *)
Definition entry_for (existing_images : list (json * json)) (name : string)
    (f : file) (size : Z * Z) : json :=
  let existing_image := index_get existing_images name in
  if truthy existing_image
     && py_eq (entry_hash existing_image)
              (JStr (sha256_hexdigest (f_data f)))
  then existing_image
  else image_info name f size.

(** The values of a name index built from a manifest are JSON objects. *)
Definition proper (existing_images : list (json * json)) : Prop :=
  Forall (fun kv => exists d, snd kv = JDict d) existing_images.

Definition thumb_of (name : string) : path := ["thumbnails"; name].

(** What one turn of the loop appends, and the world it leaves. *)
Definition image_step (self : ImageProcessor)
    (existing_images : list (json * json)) (name : string) (w : world)
  : list json * world :=
  if negb (ext_ok self name) then ([], w)
  else
    match decode (w_fs w) [name] with
    | inl e => ([], say w (WarnInvalidImage [name] e))
    | inr (f, size) =>
        let entry := [entry_for existing_images name f size] in
        if dry_run self then
          (entry, say w (WouldCreateThumbnail (thumb_of name)))
        else if negb (stale_by_spec self (w_fs w) [name] (thumb_of name)) then
          (entry, say w (ThumbnailUpToDate (thumb_of name)))
        else
          match convert_outcome (w_now w) (w_fs w) [name] (thumb_of name)
                  (thumbnail_size self) with
          | inl s =>
              ([], say (record w (EvConvert [name] (thumb_of name) false))
                       (ErrorCreatingThumbnail [name] s))
          | inr r =>
              (entry, record (with_fs w (Some r))
                             (EvConvert [name] (thumb_of name) true))
          end
    end.

Fixpoint image_loop (self : ImageProcessor)
    (existing_images : list (json * json)) (names : list string) (w : world)
  : list json * world :=
  match names with
  | [] => ([], w)
  | name :: rest =>
      let (entry, w1) := image_step self existing_images name w in
      let (entries, w2) := image_loop self existing_images rest w1 in
      (entry ++ entries, w2)
  end.


(** Entries of a manifest that bear the same filename are the same entry. *)
Definition one_entry_per_name (imgs : list json) : Prop :=
  forall e1 e2, In e1 imgs -> In e2 imgs -> entry_name e1 = entry_name e2 ->
                e1 = e2.

(** *** A second run *)

(** The trace of a failed [convert]: the only event a settled album shows. *)
Definition failed_convert (e : event) : Prop :=
  match e with
  | EvConvert _ _ false => True
  | _ => False
  end.

(** [w'] comes from [w] without a change to the files: nothing was written,
    no directory made, no thumbnail generated. *)
Definition quiet (w w' : world) : Prop :=
  w_fs w' = w_fs w /\ w_now w' = w_now w /\ w_quota w' = w_quota w
  /\ exists evs, w_ev w' = w_ev w ++ evs /\ Forall failed_convert evs.

(** The error stream of [convert] on these files, [None] when it succeeds;
    the clock plays no part in it. *)
Definition convert_stderr (fs : option node) (src dst : path) (size : Z * Z)
  : option string :=
  match convert_outcome 0 fs src dst size with
  | inl s => Some s
  | inr _ => None
  end.

(** The thumbnail of [name] is in its final state: fresh when [made], stale
    with a failing [convert] otherwise. *)
Definition settled_as (self : ImageProcessor) (made : bool) (fs : option node)
    (name : string) : Prop :=
  if made then stale_by_spec self fs [name] (thumb_of name) = false
  else stale_by_spec self fs [name] (thumb_of name) = true
       /\ convert_stderr fs [name] (thumb_of name) (thumbnail_size self) <> None.

Definition names_of (fs : option node) : list string :=
  match fs with
  | Some (Dir _ d) => map fst d
  | _ => []
  end.

(** The files of an album before a run at time [now]: no image is dated
    after [now], and the thumbnails and the manifest can be read. *)
Definition album_ready (now : Z) (fs : option node) : Prop :=
  (forall name f, fs_lookup fs [name] = Some (File f) -> f_mtime f <= now)
  /\ (forall name f, fs_lookup fs (thumb_of name) = Some (File f) ->
                     f_readable f = true)
  /\ (forall f, fs_lookup fs ["index.json"] = Some (File f) ->
                f_readable f = true).

(** What the libraries and the tool are relied on for: a JSON value written
    by [json.dump] reads back as itself, [json.load] returns proper values,
    and a thumbnail that [convert] produced decodes at the requested size. *)
Record platform_laws : Prop := {
  json_round_trip :
    forall v, wf_json v = true -> json_load (json_dump v) = Some v;
  json_load_wf :
    forall data v, json_load data = Some v -> wf_json v = true;
  convert_size :
    forall data size out, convert data size = inr out -> Image_open out = Some size;
}.

(** The album directory holds a [thumbnails] directory. *)
Definition has_thumbs (fs : option node) : Prop :=
  exists m d m2 d2,
    fs = Some (Dir m d) /\ dlookup "thumbnails" d = Some (Dir m2 d2).

Definition root_is_dir (fs : option node) : bool :=
  match fs with
  | Some (Dir _ _) => true
  | _ => false
  end.

(** Two states of an album directory with the same entries at the top,
    apart from what the [thumbnails] directory holds. *)
Definition same_top (fs fs' : option node) : Prop :=
  (forall y f, fs_lookup fs' [y] = Some (File f)
               <-> fs_lookup fs [y] = Some (File f))
  /\ names_of fs' = names_of fs
  /\ fs_lookup fs' ["index.json"] = fs_lookup fs ["index.json"]
  /\ root_is_dir fs' = root_is_dir fs.


(** What [read_existing_index] finds at [p]: the value, and the exception
    it reports when the file is there but cannot be used. *)
Definition manifest_at (fs : option node) (p : path) : json * option exn :=
  match fs_lookup fs p with
  | None => (JNull, None)
  | Some (Dir _ _) => (JNull, Some IsADirectoryError)
  | Some (File f) =>
      if f_readable f then
        match json_load (f_data f) with
        | Some v => (v, None)
        | None => (JNull, Some JSONDecodeError)
        end
      else (JNull, Some PermissionError)
  end.

(** The image files [list_image_files] collects in a directory. *)
Definition image_files (self : ImageProcessor) (fs : option node)
  : list string :=
  sort_names
    (flat_map
       (fun ext => filter (fun f => fs_is_file fs [f]
                                    && String.eqb (lower (suffix f)) ext)
                          (names_of fs))
       (extensions self)).

Definition image_files_result (self : ImageProcessor) (fs : option node)
  : res (list string) :=
  if root_is_dir fs then Ret (image_files self fs)
  else
    match extensions self with
    | [] => Ret []
    | _ => Raise (match fs with
                  | None => FileNotFoundError
                  | Some _ => NotADirectoryError
                  end)
    end.

(** *** The root *)

(** The albums [get_albums] finds. *)
Definition albums_of (fs : option node) : list string :=
  filter (fun d => fs_is_dir fs [d] && negb (String.eqb d "thumbnails"))
         (names_of fs).

(** The root manifest assembled at line 149. *)
Definition root_index (albums : list string) (now : Z) : json :=
  JDict [("albums", JList (map JStr albums));
         ("generated", JStr (isoformat now));
         ("version", JStr "2.0")].







(** Every album has its [thumbnails] directory. *)
Definition thumbs_made (fs : option node) : Prop :=
  forall a, In a (albums_of fs) -> fs_is_dir fs [a; "thumbnails"] = true.

(** A computation that changes no file, makes no mutating call and leaves
    the clock and the disk quota alone; it may print. *)
Definition read_only {A : Type} (m : M A) : Prop :=
  forall w,
    w_fs (snd (m w)) = w_fs w /\ w_now (snd (m w)) = w_now w
    /\ w_quota (snd (m w)) = w_quota w /\ w_ev (snd (m w)) = w_ev w.


(** The world [in_dir a] runs its computation in, and the world it leaves. *)
Definition focus (a : string) (w : world) : world :=
  {| w_fs := fs_lookup (w_fs w) [a]; w_now := w_now w; w_quota := w_quota w;
     w_out := []; w_ev := [] |}.

Definition unfocus (a : string) (w sub' : world) : world :=
  {| w_fs := match w_fs w, w_fs sub' with
             | Some (Dir mt d), Some c => Some (Dir mt (dupdate a c d))
             | fs, _ => fs
             end;
     w_now := w_now w;
     w_quota := w_quota sub';
     w_out := w_out w ++ map (msg_in a) (w_out sub');
     w_ev := w_ev w ++ map (ev_in a) (w_ev sub') |}.

(** [existing.get(key)], [None] when [existing] has no such key. *)
Definition prior_value (key : string) (existing : json) : json :=
  match existing with
  | JDict d => match assoc key d with Some x => x | None => JNull end
  | _ => JNull
  end.

(** A computation that neither reads nor changes the world. *)
Definition stateless {A : Type} (m : M A) : Prop :=
  exists r, forall w, m w = (r, w).

Definition warned (w : world) (p : path) (e : option exn) : world :=
  match e with
  | Some e => say w (WarnCouldNotRead p e)
  | None => w
  end.

End Specification.

(** * Properties *)

Section Properties.

Context {P : Platform}.
Local Open Scope prog_scope.

Ltac unfold_monad :=
  unfold bind, ret, raise, try_except, try_except_called, gets, print, emit,
    datetime_now in *.

(** ** Thumbnail staleness *)

(** The run of [should_update_thumbnail], as the later proofs rewrite
    with it. *)
Lemma should_update_thumbnail_run :
  forall (self : ImageProcessor) (w : world) (image_path thumb_path : path),
    fs_exists (w_fs w) image_path = true ->
    should_update_thumbnail self image_path thumb_path w
    = (Ret (stale_by_spec self (w_fs w) image_path thumb_path), w).
Proof.
  intros self w image_path thumb_path Himg.
  unfold should_update_thumbnail, stale_by_spec, path_exists, stat, pil_open,
    open_read, fs_exists in *.
  unfold_monad.
  destruct (fs_lookup (w_fs w) thumb_path) as [thumb|] eqn:Hthumb; cbn;
    [|reflexivity].
  destruct (fs_lookup (w_fs w) image_path) as [image|] eqn:Himage;
    [|discriminate].
  cbn. rewrite Hthumb. cbn.
  destruct (st_mtime image >? st_mtime thumb); cbn; [reflexivity|].
  rewrite Hthumb.
  destruct thumb as [f|m d]; cbn; [|reflexivity].
  destruct (f_readable f); cbn; [|reflexivity].
  destruct (Image_open (f_data f)) as [size|]; cbn; [|reflexivity].
  destruct (size_eqb size (thumbnail_size self)); reflexivity.
Qed.


(** ** Reading a manifest *)


(** ** Directory entries and paths *)

Lemma dlookup_dupdate_eq :
  forall x n d c, dlookup x d = Some c -> dlookup x (dupdate x n d) = Some n.
Proof.
  intros x n d. induction d as [|[y c'] r IH]; intros c H; cbn in *.
  - discriminate.
  - destruct (String.eqb x y) eqn:E; cbn; rewrite E; [reflexivity|eauto].
Qed.

Lemma dlookup_dupdate_neq :
  forall x y n d, x <> y -> dlookup y (dupdate x n d) = dlookup y d.
Proof.
  intros x y n d Hxy. induction d as [|[z c] r IH]; cbn; [reflexivity|].
  destruct (String.eqb x z) eqn:E; cbn.
  - apply String.eqb_eq in E. subst z.
    destruct (String.eqb y x) eqn:E'; [|reflexivity].
    apply String.eqb_eq in E'. congruence.
  - rewrite IH. reflexivity.
Qed.

Lemma dupdate_names :
  forall x n d, map fst (dupdate x n d) = map fst d.
Proof.
  intros x n d. induction d as [|[y c] r IH]; cbn; [reflexivity|].
  destruct (String.eqb x y); cbn; [reflexivity|]. rewrite IH. reflexivity.
Qed.

Lemma dlookup_app_eq :
  forall x n d, dlookup x d = None -> dlookup x (d ++ [(x, n)]) = Some n.
Proof.
  intros x n d. induction d as [|[y c] r IH]; cbn; intros H.
  - rewrite String.eqb_refl. reflexivity.
  - destruct (String.eqb x y); [discriminate|auto].
Qed.

Lemma dlookup_app_neq :
  forall x y n d, x <> y -> dlookup y (d ++ [(x, n)]) = dlookup y d.
Proof.
  intros x y n d Hxy. induction d as [|[z c] r IH]; cbn.
  - destruct (String.eqb y x) eqn:E; [|reflexivity].
    apply String.eqb_eq in E. congruence.
  - destruct (String.eqb y z); [reflexivity|exact IH].
Qed.

Lemma lookup_store_same :
  forall now p new n n',
    store now p new n = Some n' -> lookup_path p n' = Some new.
Proof.
  intros now p new. induction p as [|x q IH]; intros n n' H; cbn in *.
  - congruence.
  - destruct n as [f|m d]; [discriminate|].
    destruct (dlookup x d) as [c|] eqn:Hx.
    + destruct (store now q new c) as [c'|] eqn:Hs; [|discriminate].
      injection H as <-. cbn. erewrite dlookup_dupdate_eq by eassumption.
      eauto.
    + destruct q; [|discriminate]. injection H as <-. cbn.
      rewrite dlookup_app_eq by assumption. reflexivity.
Qed.

Lemma store_existing :
  forall now p new n old,
    lookup_path p n = Some old -> exists n', store now p new n = Some n'.
Proof.
  intros now p new. induction p as [|x q IH]; intros n old H; cbn in *.
  - eauto.
  - destruct n as [f|m d]; [discriminate|].
    destruct (dlookup x d) as [c|]; [|discriminate].
    destruct (IH _ _ H) as [c' Hc']. rewrite Hc'. eauto.
Qed.

(** ** The missing root *)


(** ** Persisting the album manifest *)

(** The run of [persist_album] in its three cases. *)
Lemma persist_album_run :
  forall (self : ImageProcessor) (album : string) (existing : json)
         (images_info : list json) (w : world),
    (truthy existing = true -> exists d, existing = JDict d) ->
    persist_album self album existing images_info w
    = if dry_run self then (Ret tt, say w (AlbumIndexUpToDate album true))
      else if changed_by_spec existing images_info
      then (write_json ["index.json"] (album_index album images_info (w_now w)) ;;
            print (CreatedAlbumIndex album (List.length images_info))) w
      else (Ret tt, say w (AlbumIndexUpToDate album false)).
Proof.
  intros self album existing images_info w Hobj.
  unfold persist_album, must_write, changed_by_spec, album_index.
  unfold bind at 1. unfold datetime_now, gets.
  destruct (dry_run self) eqn:Hdry.
  - unfold bind at 1. unfold ret. reflexivity.
  - destruct (truthy existing) eqn:Ht; cbn [negb].
    + destruct (Hobj eq_refl) as [d ->].
      unfold bind at 1. unfold py_get, prior_images. unfold bind at 1. unfold ret.
      destruct (py_eq _ _); cbn [negb]; reflexivity.
    + unfold bind at 1. unfold ret.
      destruct existing as [|b|n|s0|l|d]; cbn in Ht; subst; try reflexivity.
      destruct d; [reflexivity|discriminate].
Qed.


(** ** Writing a manifest *)

Lemma write_chunks_spec :
  forall (p : path) (chunks : list bytes) (w : world) (f : file),
    fs_lookup (w_fs w) p = Some (File f) ->
    match for_ chunks (write_chunk p) w with
    | (Ret _, w') =>
        content_at (w_fs w') p = Some (fold_left bytes_app chunks (f_data f))
    | (Raise _, w') =>
        exists k, (k < List.length chunks)%nat
                  /\ content_at (w_fs w') p
                     = Some (fold_left bytes_app (firstn k chunks) (f_data f))
    end.
Proof.
  intros p chunks. unfold for_.
  induction chunks as [|c r IH]; intros w f Hf; cbn [foldM].
  - unfold ret, content_at. rewrite Hf. reflexivity.
  - unfold bind, write_chunk.
    assert (Hstep : forall q,
      match put p (File {| f_mtime := w_now w; f_readable := f_readable f;
                           f_data := bytes_app (f_data f) c |}) OSError
              (with_quota w q) with
      | (Ret _, w1) =>
          fs_lookup (w_fs w1) p
          = Some (File {| f_mtime := w_now w; f_readable := f_readable f;
                          f_data := bytes_app (f_data f) c |})
      | (Raise _, _) => False
      end).
    { intros q. unfold put, with_quota, with_fs; cbn.
      destruct (w_fs w) as [n|] eqn:Hfs; [|discriminate Hf]. cbn in *.
      destruct (store_existing (w_now w) p
                  (File {| f_mtime := w_now w; f_readable := f_readable f;
                           f_data := bytes_app (f_data f) c |}) n _ Hf)
        as [n' Hn'].
      rewrite Hn'. cbn. eapply lookup_store_same; eassumption. }
    assert (Hfail : exists k, (k < List.length (c :: r))%nat
              /\ content_at (w_fs w) p
                 = Some (fold_left bytes_app (firstn k (c :: r)) (f_data f))).
    { exists 0%nat. split; [cbn; lia|]. unfold content_at. rewrite Hf. reflexivity. }
    destruct (w_quota w) as [[|k]|]; [exact Hfail| |]; rewrite Hf.
    + specialize (Hstep (Some k)).
      destruct (put _ _ _ _) as [[[]|e] w1]; [|contradiction].
      specialize (IH w1 _ Hstep). cbn [f_data] in IH.
      destruct (foldM _ tt r w1) as [[[]|e] w2]; [exact IH|].
      destruct IH as [j [Hj Hc]]. exists (S j). split; [cbn; lia|exact Hc].
    + specialize (Hstep None).
      destruct (put _ _ _ _) as [[[]|e] w1]; [|contradiction].
      specialize (IH w1 _ Hstep). cbn [f_data] in IH.
      destruct (foldM _ tt r w1) as [[[]|e] w2]; [exact IH|].
      destruct IH as [j [Hj Hc]]. exists (S j). split; [cbn; lia|exact Hc].
Qed.

Lemma open_w_spec :
  forall (p : path) (w : world),
    match open_w p w with
    | (Ret _, w') =>
        exists f, fs_lookup (w_fs w') p = Some (File f)
                  /\ f_data f = bytes_empty
    | (Raise _, w') => w' = w
    end.
Proof.
  intros p w. unfold open_w.
  destruct (fs_lookup (w_fs w) p) as [[f|m d]|] eqn:Hp; [| reflexivity |];
    unfold bind, put, emit, with_fs; cbn;
    destruct (fs_store _ _ _ _) as [r|] eqn:Hs; cbn; try reflexivity;
    (destruct (w_fs w) as [n|]; [|discriminate Hs]); cbn in Hs;
    eexists; (split; [eapply lookup_store_same; eassumption|reflexivity]).
Qed.

(** What [write_json] leaves in the file, by outcome. *)
Lemma write_json_result :
  forall (p : path) (v : json) (w : world),
    match write_json p v w with
    | (Ret _, w') => content_at (w_fs w') p = Some (json_dump v)
    | (Raise _, w') =>
        w' = w
        \/ exists k, (k < List.length (json_iterencode v))%nat
                     /\ content_at (w_fs w') p
                        = Some (fold_left bytes_app
                                  (firstn k (json_iterencode v)) bytes_empty)
    end.
Proof.
  intros p v w. unfold write_json. unfold bind at 1.
  pose proof (open_w_spec p w) as Hopen.
  destruct (open_w p w) as [[[]|e] w1].
  - destruct Hopen as [f [Hf Hdata]].
    pose proof (write_chunks_spec p (json_iterencode v) w1 f Hf) as Hw.
    rewrite Hdata in Hw.
    destruct (for_ _ _ w1) as [[[]|e] w2]; [exact Hw|right; exact Hw].
  - left. exact Hopen.
Qed.

(** C8, as amended. A manifest write cuts the file to length zero and then
    appends the encoded chunks.  When it returns, the file holds the whole
    new manifest.  When it raises, either the file could not be opened and
    nothing changed, or the file is left with a strict prefix of the new
    manifest: its prior content is gone. *)
Theorem write_json_outcomes :
  forall (p : path) (v : json) (w : world),
    match write_json p v w with
    | (Ret _, w') => content_at (w_fs w') p = Some (json_dump v)
    | (Raise _, w') =>
        w' = w
        \/ exists k, (k < List.length (json_iterencode v))%nat
                     /\ content_at (w_fs w') p
                        = Some (fold_left bytes_app
                                  (firstn k (json_iterencode v)) bytes_empty)
    end.
Proof.
  intros p v w. exact (write_json_result p v w).
Qed.

(** ** One image *)

Lemma is_valid_image_run :
  forall (self : ImageProcessor) (name : string) (w : world),
    is_valid_image self [name] w
    = if negb (ext_ok self name) then (Ret false, w)
      else match decode (w_fs w) [name] with
           | inr _ => (Ret true, w)
           | inl e => (Ret false, say w (WarnInvalidImage [name] e))
           end.
Proof.
  intros self name w.
  unfold is_valid_image, ext_ok, decode, pil_open, pil_verify, open_read, say.
  cbn [path_name last].
  destruct (negb _); [reflexivity|].
  unfold_monad.
  destruct (fs_lookup (w_fs w) [name]) as [[f|m d]|]; try reflexivity.
  destruct (f_readable f); [|reflexivity].
  destruct (Image_open (f_data f)) as [size|]; [|reflexivity].
  cbn. destruct (Image_verify (f_data f)); reflexivity.
Qed.

Lemma decode_file :
  forall fs p f size,
    decode fs p = inr (f, size) ->
    fs_lookup fs p = Some (File f) /\ f_readable f = true
    /\ Image_open (f_data f) = Some size.
Proof.
  intros fs p f size. unfold decode.
  destruct (fs_lookup fs p) as [[g|m d]|]; try discriminate.
  destruct (f_readable g) eqn:Hr; [|discriminate].
  destruct (Image_open (f_data g)) as [sz|] eqn:Ho; [|discriminate].
  destruct (Image_verify (f_data g)); [|discriminate].
  intros H. injection H as <- <-. auto.
Qed.

Lemma calculate_image_hash_run :
  forall (p : path) (w : world) (f : file),
    fs_lookup (w_fs w) p = Some (File f) ->
    f_readable f = true ->
    calculate_image_hash p w = (Ret (sha256_hexdigest (f_data f)), w).
Proof.
  intros p w f Hf Hr. unfold calculate_image_hash, open_read. unfold_monad.
  rewrite Hf, Hr. reflexivity.
Qed.

Lemma get_image_info_run :
  forall (name : string) (w : world) (f : file) (size : Z * Z),
    fs_lookup (w_fs w) [name] = Some (File f) ->
    f_readable f = true ->
    Image_open (f_data f) = Some size ->
    get_image_info [name] w = (Ret (image_info name f size), w).
Proof.
  intros name w f size Hf Hr Ho.
  unfold get_image_info, calculate_image_hash, pil_open, open_read, stat,
    image_info.
  unfold_monad. rewrite Hf, Hr, Ho. cbn. rewrite Hf. cbn. rewrite Hf, Hr.
  reflexivity.
Qed.

Lemma create_thumbnail_run :
  forall (self : ImageProcessor) (image_path thumb_path : path) (w : world),
    fs_exists (w_fs w) image_path = true ->
    create_thumbnail self image_path thumb_path w
    = if dry_run self then (Ret true, say w (WouldCreateThumbnail thumb_path))
      else if negb (stale_by_spec self (w_fs w) image_path thumb_path)
      then (Ret true, say w (ThumbnailUpToDate thumb_path))
      else
        match convert_outcome (w_now w) (w_fs w) image_path thumb_path
                (thumbnail_size self) with
        | inl s =>
            (Ret false,
             say (record w (EvConvert image_path thumb_path false))
                 (ErrorCreatingThumbnail image_path s))
        | inr r =>
            (Ret true,
             record (with_fs w (Some r)) (EvConvert image_path thumb_path true))
        end.
Proof.
  intros self image_path thumb_path w Himg. unfold create_thumbnail.
  destruct (dry_run self); [reflexivity|].
  unfold bind at 1. rewrite should_update_thumbnail_run by assumption.
  destruct (stale_by_spec _ _ _ _); cbn [negb]; [|reflexivity].
  unfold try_except_called, run_convert. unfold bind at 1.
  destruct (convert_outcome _ _ _ _ _) as [s|r]; reflexivity.
Qed.

Lemma store_top_file :
  forall now a x new root r y f,
    store now [a; x] new root = Some r ->
    lookup_path [y] root = Some (File f) ->
    lookup_path [y] r = Some (File f).
Proof.
  intros now a x new root r y f Hs Hy. cbn in *.
  destruct root as [g|m d]; [discriminate|].
  destruct (dlookup a d) as [c|] eqn:Ha; [|discriminate].
  destruct c as [g|m2 d2]; [discriminate|].
  destruct (String.eqb_spec a y) as [->|Hay].
  - rewrite Ha in Hy. discriminate.
  - destruct (match dlookup x d2 with Some _ => _ | None => _ end);
      [|discriminate].
    injection Hs as <-. rewrite dlookup_dupdate_neq by assumption. exact Hy.
Qed.

Lemma convert_outcome_top_file :
  forall now fs src x size r y f,
    convert_outcome now fs src (thumb_of x) size = inr r ->
    fs_lookup fs [y] = Some (File f) ->
    lookup_path [y] r = Some (File f).
Proof.
  intros now fs src x size r y f Hc Hy. unfold convert_outcome in Hc.
  destruct (fs_lookup fs src) as [[g|? ?]|]; try discriminate.
  destruct (f_readable g); [|discriminate].
  destruct (convert (f_data g) size) as [s|out]; [discriminate|].
  destruct fs as [root|]; [|discriminate Hy]. cbn [fs_store fs_lookup] in *.
  destruct (lookup_path (thumb_of x) root) as [[o|? ?]|];
    try discriminate;
    match type of Hc with
    | match ?S with _ => _ end = _ => destruct S as [r'|] eqn:Hs
    end; try discriminate; injection Hc as <-;
    eapply store_top_file; eassumption.
Qed.

(** The loop body never raises on a name index built from a manifest, and
    does what [image_step] says. *)
Lemma process_image_run :
  forall (self : ImageProcessor) (E : list (json * json)) (acc : list json)
         (name : string) (w : world),
    proper E ->
    process_image self E acc name w
    = (Ret (acc ++ fst (image_step self E name w)),
       snd (image_step self E name w)).
Proof.
  intros self E acc name w HE. unfold process_image, image_step.
  unfold bind at 1. rewrite is_valid_image_run.
  destruct (negb (ext_ok self name)); cbn [negb fst snd].
  { unfold ret. rewrite app_nil_r. reflexivity. }
  destruct (decode (w_fs w) [name]) as [e|[f size]] eqn:Hd; cbn [negb fst snd].
  { unfold ret. rewrite app_nil_r. reflexivity. }
  destruct (decode_file _ _ _ _ Hd) as [Hf [Hr Ho]].
  assert (Hex : fs_exists (w_fs w) [name] = true).
  { unfold fs_exists. rewrite Hf. reflexivity. }
  unfold bind at 1. rewrite create_thumbnail_run by assumption.
  fold (thumb_of name).
  assert (Hrest : forall w1,
    fs_lookup (w_fs w1) [name] = Some (File f) ->
    (current_hash <- calculate_image_hash [name] ;;
     unchanged <-
       (if truthy (index_get E name)
        then old_hash <- py_get (index_get E name) "hash" JNull ;;
             ret (py_eq old_hash (JStr current_hash))
        else ret false) ;;
     (if unchanged then ret (acc ++ [index_get E name])
      else image_info <- get_image_info [name] ;;
           ret (acc ++ [image_info]))) w1
    = (Ret (acc ++ [entry_for E name f size]), w1)).
  { intros w1 Hf1. unfold bind at 1.
    rewrite (calculate_image_hash_run _ _ _ Hf1 Hr).
    unfold entry_for.
    destruct (truthy (index_get E name)) eqn:Ht; cbn [andb].
    - assert (Hd' : exists d, index_get E name = JDict d).
      { unfold index_get in *.
        destruct (find _ (rev E)) as [[k v]|] eqn:Hfind; [|discriminate Ht].
        apply find_some in Hfind. destruct Hfind as [Hin _].
        apply in_rev in Hin. unfold proper in HE. rewrite Forall_forall in HE.
        exact (HE _ Hin). }
      destruct Hd' as [d Hd']. rewrite Hd'. cbn [py_get entry_hash].
      unfold bind at 1. unfold bind at 1. unfold ret at 1. unfold ret at 1.
      destruct (py_eq _ _); [reflexivity|].
      unfold bind. rewrite (get_image_info_run _ _ _ _ Hf1 Hr Ho). reflexivity.
    - unfold bind at 1. unfold ret at 1.
      unfold bind. rewrite (get_image_info_run _ _ _ _ Hf1 Hr Ho). reflexivity. }
  destruct (dry_run self).
  { cbn [fst snd]. apply Hrest. exact Hf. }
  destruct (negb (stale_by_spec self (w_fs w) [name] (thumb_of name))).
  { cbn [fst snd]. apply Hrest. exact Hf. }
  destruct (convert_outcome _ _ _ _ _) as [s|r] eqn:Hc; cbn [fst snd].
  - unfold ret. rewrite app_nil_r. reflexivity.
  - apply Hrest. cbn. eapply convert_outcome_top_file; eassumption.
Qed.

Lemma image_loop_run :
  forall (self : ImageProcessor) (E : list (json * json)) (names : list string)
         (acc : list json) (w : world),
    proper E ->
    foldM (process_image self E) acc names w
    = (Ret (acc ++ fst (image_loop self E names w)),
       snd (image_loop self E names w)).
Proof.
  intros self E names. induction names as [|name rest IH]; intros acc w HE.
  - cbn. unfold ret. rewrite app_nil_r. reflexivity.
  - cbn [foldM image_loop]. unfold bind. rewrite process_image_run by assumption.
    destruct (image_step self E name w) as [entry w1]. cbn [fst snd].
    rewrite IH by assumption.
    destruct (image_loop self E rest w1) as [entries w2].
    cbn [fst snd]. rewrite app_assoc. reflexivity.
Qed.


(** ** Reuse of prior entries *)

Lemma py_eq_str :
  forall (x : json) (s : string), py_eq x (JStr s) = true <-> x = JStr s.
Proof.
  intros x s. destruct x; cbn; split; intros H; try discriminate; try congruence.
  - apply String.eqb_eq in H. congruence.
  - injection H as ->. apply String.eqb_refl.
Qed.

Lemma name_index_acc :
  forall (imgs : list json) (acc : list (json * json)) (w w' : world)
         (E : list (json * json)),
    foldM (fun d img =>
             k <- py_getitem img "name" ;;
             if hashable k then ret (d ++ [(k, img)]) else raise TypeError)
          acc imgs w = (Ret E, w') ->
    w' = w
    /\ E = acc ++ map (fun e => (entry_name e, e)) imgs
    /\ Forall (fun e => exists d, e = JDict d) imgs.
Proof.
  intros imgs. induction imgs as [|img r IH]; intros acc w w' E H.
  - cbn in H. unfold ret in H. injection H as <- <-. rewrite app_nil_r. auto.
  - cbn [foldM] in H. unfold bind at 1 in H. unfold py_getitem in H.
    destruct img as [| | | | |d]; try (cbn in H; discriminate H).
    unfold bind at 1 in H.
    destruct (assoc "name" d) as [k|] eqn:Hk; [|cbn in H; discriminate H].
    unfold ret at 1 in H.
    destruct (hashable k); [|cbn in H; discriminate H].
    unfold ret at 1 in H.
    destruct (IH _ _ _ _ H) as [-> [-> Hall]].
    split; [reflexivity|]. split.
    + cbn [map entry_name]. rewrite Hk. rewrite <- app_assoc. reflexivity.
    + constructor; [eauto|exact Hall].
Qed.

Lemma name_index_spec :
  forall (imgs : list json) (w w' : world) (E : list (json * json)),
    name_index imgs w = (Ret E, w') ->
    w' = w /\ E = map (fun e => (entry_name e, e)) imgs /\ proper E.
Proof.
  intros imgs w w' E H. unfold name_index in H.
  destruct (name_index_acc _ _ _ _ _ H) as [-> [-> Hall]].
  split; [reflexivity|]. split; [reflexivity|].
  unfold proper. rewrite Forall_forall in *. intros kv Hin.
  apply in_map_iff in Hin. destruct Hin as [e [<- Hin]]. cbn. auto.
Qed.

(** [d.get(name)] on the index of [imgs]: an entry of [imgs] of that name,
    the last one, or [None] when there is none. *)
Lemma index_get_spec :
  forall (imgs : list json) (name : string),
    let E := map (fun e => (entry_name e, e)) imgs in
    (index_get E name = JNull
     /\ forall e, In e imgs -> entry_name e <> JStr name)
    \/ (In (index_get E name) imgs
        /\ entry_name (index_get E name) = JStr name).
Proof.
  intros imgs name E. unfold index_get.
  destruct (find _ (rev E)) as [[k v]|] eqn:Hfind.
  - right. apply find_some in Hfind. destruct Hfind as [Hin Hk].
    apply in_rev in Hin. apply in_map_iff in Hin.
    destruct Hin as [e [He Hin]]. injection He as <- <-.
    cbn in Hk. apply py_eq_str in Hk. auto.
  - left. split; [reflexivity|]. intros e Hin Hname.
    assert (Hin' : In (entry_name e, e) (rev E)).
    { apply in_rev. rewrite rev_involutive. apply in_map_iff. eauto. }
    pose proof (find_none _ _ Hfind _ Hin') as Hno. cbn in Hno.
    rewrite Hname in Hno. cbn in Hno. rewrite String.eqb_refl in Hno.
    discriminate.
Qed.

Lemma entry_name_truthy :
  forall (e : json) (name : string), entry_name e = JStr name -> truthy e = true.
Proof.
  intros e name H. destruct e as [| | | | |d]; try discriminate.
  destruct d; [discriminate|reflexivity].
Qed.


(** ** The file system after a thumbnail was made *)

Lemma made_shape :
  forall now fs src x size r,
    convert_outcome now fs src (thumb_of x) size = inr r ->
    exists m d m2 d2 tf g,
      fs = Some (Dir m d)
      /\ dlookup "thumbnails" d = Some (Dir m2 d2)
      /\ r = Dir m (dupdate "thumbnails"
                      (match dlookup x d2 with
                       | Some _ => Dir m2 (dupdate x (File tf) d2)
                       | None => Dir now (d2 ++ [(x, File tf)])
                       end) d)
      /\ f_mtime tf = now
      /\ fs_lookup fs src = Some (File g) /\ f_readable g = true
      /\ convert (f_data g) size = inr (f_data tf)
      /\ f_readable tf = match dlookup x d2 with
                         | Some (File o) => f_readable o
                         | _ => true
                         end
      /\ (forall mm dd, dlookup x d2 <> Some (Dir mm dd)).
Proof.
  intros now fs src x size r Hc. unfold convert_outcome in Hc.
  destruct (fs_lookup fs src) as [[g|? ?]|] eqn:Hsrc; try discriminate.
  destruct (f_readable g) eqn:Hg; [|discriminate].
  destruct (convert (f_data g) size) as [s|out] eqn:Hout; [discriminate|].
  destruct fs as [[?|m d]|]; try discriminate.
  cbn [fs_lookup fs_store thumb_of lookup_path store] in Hc.
  destruct (dlookup "thumbnails" d) as [[?|m2 d2]|] eqn:Ht; try discriminate.
  destruct (dlookup x d2) as [[o|mm dd]|] eqn:Hx; try discriminate;
    injection Hc as <-;
    eexists m, d, m2, d2, _, g; rewrite ?Hx;
    repeat split; try reflexivity; try assumption; intros; discriminate.
Qed.

Lemma made_top :
  forall now fs src x size r y,
    convert_outcome now fs src (thumb_of x) size = inr r ->
    y <> "thumbnails" ->
    forall q, lookup_path (y :: q) r = fs_lookup fs (y :: q).
Proof.
  intros now fs src x size r y Hc Hy q.
  destruct (made_shape _ _ _ _ _ _ Hc)
    as [m [d [m2 [d2 [tf [g [-> [Ht [-> _]]]]]]]]].
  cbn. rewrite dlookup_dupdate_neq by congruence. reflexivity.
Qed.

Lemma made_top_file_back :
  forall now fs src x size r y f,
    convert_outcome now fs src (thumb_of x) size = inr r ->
    lookup_path [y] r = Some (File f) ->
    fs_lookup fs [y] = Some (File f).
Proof.
  intros now fs src x size r y f Hc Hy.
  destruct (String.eqb_spec y "thumbnails") as [->|Hne].
  - destruct (made_shape _ _ _ _ _ _ Hc)
      as [m [d [m2 [d2 [tf [g [-> [Ht [-> _]]]]]]]]].
    cbn in Hy. erewrite dlookup_dupdate_eq in Hy by eassumption.
    destruct (dlookup x d2); discriminate.
  - rewrite <- (made_top _ _ _ _ _ _ _ Hc Hne []). exact Hy.
Qed.

Lemma made_names :
  forall now fs src x size r,
    convert_outcome now fs src (thumb_of x) size = inr r ->
    names_of (Some r) = names_of fs.
Proof.
  intros now fs src x size r Hc.
  destruct (made_shape _ _ _ _ _ _ Hc)
    as [m [d [m2 [d2 [tf [g [-> [Ht [-> _]]]]]]]]].
  cbn. apply dupdate_names.
Qed.

Lemma made_thumb_other :
  forall now fs src x size r y,
    convert_outcome now fs src (thumb_of x) size = inr r ->
    y <> x ->
    lookup_path (thumb_of y) r = fs_lookup fs (thumb_of y).
Proof.
  intros now fs src x size r y Hc Hy.
  destruct (made_shape _ _ _ _ _ _ Hc)
    as [m [d [m2 [d2 [tf [g [-> [Ht [-> _]]]]]]]]].
  cbn. erewrite dlookup_dupdate_eq by eassumption. rewrite Ht.
  destruct (dlookup x d2).
  - rewrite dlookup_dupdate_neq by congruence. reflexivity.
  - rewrite dlookup_app_neq by congruence. reflexivity.
Qed.

Lemma made_thumb :
  forall now fs src x size r,
    convert_outcome now fs src (thumb_of x) size = inr r ->
    exists tf g,
      lookup_path (thumb_of x) r = Some (File tf)
      /\ f_mtime tf = now
      /\ fs_lookup fs src = Some (File g)
      /\ convert (f_data g) size = inr (f_data tf)
      /\ f_readable tf = match fs_lookup fs (thumb_of x) with
                         | Some (File o) => f_readable o
                         | _ => true
                         end.
Proof.
  intros now fs src x size r Hc.
  destruct (made_shape _ _ _ _ _ _ Hc)
    as [m [d [m2 [d2 [tf [g [-> [Ht [-> [Hm [Hg [_ [Hout [Hr _]]]]]]]]]]]]]].
  exists tf, g. cbn. erewrite dlookup_dupdate_eq by eassumption. rewrite Ht.
  split; [|split; [assumption|split; [assumption|split; [assumption|]]]].
  - destruct (dlookup x d2) eqn:Hx.
    + erewrite dlookup_dupdate_eq by eassumption. reflexivity.
    + rewrite dlookup_app_eq by assumption. reflexivity.
  - rewrite Hr. destruct (dlookup x d2); reflexivity.
Qed.

Lemma made_has_thumbs :
  forall now fs src x size r,
    convert_outcome now fs src (thumb_of x) size = inr r ->
    has_thumbs fs /\ has_thumbs (Some r).
Proof.
  intros now fs src x size r Hc.
  destruct (made_shape _ _ _ _ _ _ Hc)
    as [m [d [m2 [d2 [tf [g [-> [Ht [-> _]]]]]]]]].
  split.
  - exists m, d, m2, d2. auto.
  - destruct (dlookup x d2);
      eexists m, _, _, _; (split; [reflexivity|]);
      eapply dlookup_dupdate_eq; eassumption.
Qed.

Lemma store_thumb_succeeds :
  forall fs now y new,
    has_thumbs fs -> exists r, fs_store now (thumb_of y) new fs = Some r.
Proof.
  intros fs now y new [m [d [m2 [d2 [-> Ht]]]]]. cbn. rewrite Ht.
  destruct (dlookup y d2); eauto.
Qed.

Lemma store_none_indep :
  forall p now now' new new' n,
    store now p new n = None -> store now' p new' n = None.
Proof.
  induction p as [|x q IH]; intros now now' new new' n H; cbn in *.
  - discriminate.
  - destruct n as [f|m d]; [reflexivity|].
    destruct (dlookup x d) as [c|].
    + destruct (store now q new c) eqn:Hs; [discriminate|].
      rewrite (IH _ now' _ new' _ Hs). reflexivity.
    + destruct q; [discriminate|reflexivity].
Qed.

(** Whether [convert] fails, and with what error stream, does not depend
    on the time of the run. *)
Lemma convert_stderr_now :
  forall now fs src dst size,
    match convert_outcome now fs src dst size with
    | inl s => convert_stderr fs src dst size = Some s
    | inr _ => convert_stderr fs src dst size = None
    end.
Proof.
  intros now fs src dst size. unfold convert_stderr, convert_outcome.
  destruct (fs_lookup fs src) as [[g|? ?]|]; try reflexivity.
  destruct (f_readable g); [|reflexivity].
  destruct (convert (f_data g) size) as [s|out]; [reflexivity|].
  destruct fs as [root|]; [|reflexivity]. cbn [fs_store fs_lookup].
  destruct (lookup_path dst root) as [[o|? ?]|]; try reflexivity.
  - destruct (store now dst _ root) eqn:H1;
      destruct (store 0 dst _ root) eqn:H2; try reflexivity.
    + rewrite (store_none_indep _ _ now _
                 (File {| f_mtime := now; f_readable := f_readable o;
                          f_data := out |}) _ H2) in H1. discriminate.
    + rewrite (store_none_indep _ _ 0 _
                 (File {| f_mtime := 0; f_readable := f_readable o;
                          f_data := out |}) _ H1) in H2. discriminate.
  - destruct (store now dst _ root) eqn:H1;
      destruct (store 0 dst _ root) eqn:H2; try reflexivity.
    + rewrite (store_none_indep _ _ now _
                 (File {| f_mtime := now; f_readable := true;
                          f_data := out |}) _ H2) in H1. discriminate.
    + rewrite (store_none_indep _ _ 0 _
                 (File {| f_mtime := 0; f_readable := true;
                          f_data := out |}) _ H1) in H2. discriminate.
Qed.

Lemma stale_by_spec_ext :
  forall self fs fs' image_path thumb_path,
    fs_lookup fs' image_path = fs_lookup fs image_path ->
    fs_lookup fs' thumb_path = fs_lookup fs thumb_path ->
    stale_by_spec self fs' image_path thumb_path
    = stale_by_spec self fs image_path thumb_path.
Proof.
  intros self fs fs' ip tp H1 H2. unfold stale_by_spec. rewrite H1, H2.
  reflexivity.
Qed.



Lemma same_top_refl : forall fs, same_top fs fs.
Proof. intros fs. unfold same_top. intuition. Qed.

Lemma same_top_trans :
  forall fs1 fs2 fs3, same_top fs1 fs2 -> same_top fs2 fs3 -> same_top fs1 fs3.
Proof.
  intros fs1 fs2 fs3 [A1 [B1 [C1 D1]]] [A2 [B2 [C2 D2]]]. unfold same_top.
  split; [|split; [|split]; congruence].
  intros y f. rewrite A2, A1. reflexivity.
Qed.

Lemma made_same_top :
  forall now fs src x size r,
    convert_outcome now fs src (thumb_of x) size = inr r ->
    same_top fs (Some r).
Proof.
  intros now fs src x size r Hc. unfold same_top. split; [|split; [|split]].
  - intros y f. split.
    + eapply made_top_file_back; eassumption.
    + eapply convert_outcome_top_file; eassumption.
  - eapply made_names; eassumption.
  - apply (made_top _ _ _ _ _ _ "index.json" Hc). discriminate.
  - destruct (made_shape _ _ _ _ _ _ Hc)
      as [m [d [m2 [d2 [tf [g [-> [Ht [-> _]]]]]]]]]. reflexivity.
Qed.


Lemma made_ready :
  forall now fs src x size r,
    album_ready now fs ->
    convert_outcome now fs src (thumb_of x) size = inr r ->
    album_ready now (Some r).
Proof.
  intros now fs src x size r [Hclock [Hread Hidx]] Hc.
  destruct (made_same_top _ _ _ _ _ _ Hc) as [Hfiles [_ [Hindex _]]].
  split; [|split].
  - intros name f Hf. apply (Hclock name). apply Hfiles. exact Hf.
  - intros name f Hf. destruct (String.eqb_spec name x) as [->|Hne].
    + destruct (made_thumb _ _ _ _ _ _ Hc) as [tf [g [Ht [_ [_ [_ Hr]]]]]].
      cbn [fs_lookup] in Hf. rewrite Ht in Hf. injection Hf as <-.
      rewrite Hr. destruct (fs_lookup fs (thumb_of x)) as [[o|? ?]|] eqn:Ho;
        try reflexivity. eapply Hread; eassumption.
    + cbn [fs_lookup] in Hf.
      rewrite (made_thumb_other _ _ _ _ _ _ _ Hc Hne) in Hf.
      eapply Hread; eassumption.
  - intros f Hf. rewrite Hindex in Hf. apply Hidx. exact Hf.
Qed.

(** Making the thumbnail of [x] leaves the thumbnail of every other image
    of the album in the state it was in. *)
Lemma made_keeps_settled :
  forall self now fs x r name made f,
    convert_outcome now fs [x] (thumb_of x) (thumbnail_size self) = inr r ->
    stale_by_spec self fs [x] (thumb_of x) = true ->
    fs_lookup fs [name] = Some (File f) ->
    settled_as self made fs name ->
    settled_as self made (Some r) name.
Proof.
  intros self now fs x r name made f Hc Hstale Hf Hset.
  destruct (String.eqb_spec name x) as [->|Hne].
  - exfalso. unfold settled_as in Hset. destruct made.
    + congruence.
    + destruct Hset as [_ Hfail].
      pose proof (convert_stderr_now now fs [x] (thumb_of x)
                    (thumbnail_size self)) as Hn.
      rewrite Hc in Hn. contradiction.
  - assert (Hname : name <> "thumbnails").
    { intros ->. destruct (made_has_thumbs _ _ _ _ _ _ Hc)
        as [[m [d [m2 [d2 [-> Ht]]]]] _].
      cbn in Hf. rewrite Ht in Hf. discriminate. }
    assert (H1 : fs_lookup (Some r) [name] = fs_lookup fs [name]).
    { exact (made_top _ _ _ _ _ _ _ Hc Hname []). }
    assert (H2 : fs_lookup (Some r) (thumb_of name)
                 = fs_lookup fs (thumb_of name)).
    { exact (made_thumb_other _ _ _ _ _ _ _ Hc Hne). }
    unfold settled_as in *.
    rewrite (stale_by_spec_ext _ _ _ _ _ H1 H2).
    destruct made; [exact Hset|].
    destruct Hset as [Hs Hfail]. split; [exact Hs|].
    intros Hnone. apply Hfail.
    pose proof (convert_stderr_now 0 fs [name] (thumb_of name)
                  (thumbnail_size self)) as A.
    pose proof (convert_stderr_now 0 (Some r) [name] (thumb_of name)
                  (thumbnail_size self)) as B.
    destruct (made_has_thumbs _ _ _ _ _ _ Hc) as [Ht Ht'].
    unfold convert_stderr in *. unfold convert_outcome in *.
    rewrite H1, H2 in Hnone.
    destruct (fs_lookup fs [name]) as [[g|? ?]|]; try discriminate Hnone.
    destruct (f_readable g); [|discriminate Hnone].
    destruct (convert (f_data g) (thumbnail_size self)) as [s|out];
      [discriminate Hnone|].
    destruct (fs_lookup fs (thumb_of name)) as [[o|? ?]|];
      try discriminate Hnone.
    + destruct (store_thumb_succeeds fs 0 name
                  (File {| f_mtime := 0; f_readable := f_readable o;
                           f_data := out |}) Ht) as [r0 ->]. reflexivity.
    + destruct (store_thumb_succeeds fs 0 name
                  (File {| f_mtime := 0; f_readable := true;
                           f_data := out |}) Ht) as [r0 ->]. reflexivity.
Qed.

(** ** The loop over the images, and the same loop again *)


Lemma decode_same_top :
  forall fs fs' name x,
    same_top fs fs' ->
    decode fs' [name] = inr x <-> decode fs [name] = inr x.
Proof.
  intros fs fs' name [f size] [Hfiles _].
  split; intros H; destruct (decode_file _ _ _ _ H) as [Hf _];
    apply Hfiles in Hf || apply <- Hfiles in Hf;
    unfold decode in *; rewrite Hf;
    match goal with
    | H : context [fs_lookup ?a ?b] |- _ =>
        match type of H with
        | match fs_lookup a b with _ => _ end = _ =>
            destruct (fs_lookup a b) as [[g|? ?]|] eqn:Hg;
            try discriminate H
        end
    end.
  - apply Hfiles in Hg. rewrite Hg in Hf. injection Hf as <-. exact H.
  - apply <- Hfiles in Hg. rewrite Hg in Hf. injection Hf as <-. exact H.
Qed.

Lemma quiet_refl : forall w, quiet w w.
Proof.
  intros w. unfold quiet. repeat split; try reflexivity.
  exists []. rewrite app_nil_r. auto.
Qed.


Lemma quiet_say : forall w m, quiet w (say w m).
Proof.
  intros w m. unfold quiet, say; cbn. repeat split; try reflexivity.
  exists []. rewrite app_nil_r. auto.
Qed.

(** One turn either leaves the files alone, or makes the thumbnail of its
    image, which was stale. *)
Lemma image_step_frame :
  forall self E name w,
    let w' := snd (image_step self E name w) in
    w_now w' = w_now w /\ w_quota w' = w_quota w
    /\ (w_fs w' = w_fs w
        \/ (dry_run self = false
            /\ stale_by_spec self (w_fs w) [name] (thumb_of name) = true
            /\ exists r,
                 convert_outcome (w_now w) (w_fs w) [name] (thumb_of name)
                   (thumbnail_size self) = inr r
                 /\ w_fs w' = Some r)).
Proof.
  intros self E name w. unfold image_step.
  destruct (negb (ext_ok self name)); [cbn; auto|].
  destruct (decode (w_fs w) [name]) as [e|[f size]]; [cbn; auto|].
  destruct (dry_run self); [cbn; auto|].
  destruct (stale_by_spec self (w_fs w) [name] (thumb_of name)) eqn:Hs;
    cbn [negb]; [|cbn; auto].
  destruct (convert_outcome _ _ _ _ _) as [s|r] eqn:Hc; [cbn; auto|].
  cbn. split; [reflexivity|]. split; [reflexivity|]. right. eauto.
Qed.

Lemma image_step_invariants :
  forall self E name w,
    let w' := snd (image_step self E name w) in
    w_now w' = w_now w /\ w_quota w' = w_quota w
    /\ same_top (w_fs w) (w_fs w')
    /\ (dry_run self = true -> w_fs w' = w_fs w)
    /\ (album_ready (w_now w) (w_fs w) -> album_ready (w_now w) (w_fs w'))
    /\ (forall n made f,
          fs_lookup (w_fs w) [n] = Some (File f) ->
          settled_as self made (w_fs w) n ->
          settled_as self made (w_fs w') n).
Proof.
  intros self E name w w'.
  destruct (image_step_frame self E name w) as [Hnow [Hq Hfs]].
  fold w' in Hnow, Hq, Hfs.
  split; [exact Hnow|]. split; [exact Hq|].
  destruct Hfs as [Hfs|[Hdry [Hstale [r [Hc Hfs]]]]]; rewrite Hfs.
  - split; [apply same_top_refl|]. auto.
  - split; [eapply made_same_top; eassumption|].
    split; [congruence|].
    split; [intros Hr; eapply made_ready; eassumption|].
    intros n made f Hf Hset. eapply made_keeps_settled; eassumption.
Qed.

Lemma image_loop_invariants :
  forall self E names w,
    let w' := snd (image_loop self E names w) in
    w_now w' = w_now w /\ w_quota w' = w_quota w
    /\ same_top (w_fs w) (w_fs w')
    /\ (dry_run self = true -> w_fs w' = w_fs w)
    /\ (album_ready (w_now w) (w_fs w) -> album_ready (w_now w) (w_fs w'))
    /\ (forall n made f,
          fs_lookup (w_fs w) [n] = Some (File f) ->
          settled_as self made (w_fs w) n ->
          settled_as self made (w_fs w') n).
Proof.
  intros self E names. induction names as [|name rest IH]; intros w.
  - cbn. split; [reflexivity|]. split; [reflexivity|].
    split; [apply same_top_refl|]. auto.
  - cbn [image_loop].
    pose proof (image_step_invariants self E name w) as Hstep.
    destruct (image_step self E name w) as [entry w1]. cbn [snd] in Hstep.
    specialize (IH w1).
    destruct (image_loop self E rest w1) as [entries w2]. cbn [snd] in *.
    destruct Hstep as [N1 [Q1 [T1 [D1 [R1 S1]]]]].
    destruct IH as [N2 [Q2 [T2 [D2 [R2 S2]]]]].
    split; [congruence|]. split; [congruence|].
    split; [eapply same_top_trans; eassumption|].
    split; [intros Hd; rewrite D2, D1; auto|].
    split.
    + intros Hr. rewrite <- N1. apply R2. rewrite N1. auto.
    + intros n made f Hf Hset. destruct T1 as [Hfiles _].
      eapply S2; [apply Hfiles; eassumption|eapply S1; eassumption].
Qed.



(** The entries of the loop are the entries of decodable images. *)
Lemma image_loop_entries :
  forall self E names w e,
    In e (fst (image_loop self E names w)) ->
    exists name f size,
      In name names /\ decode (w_fs w) [name] = inr (f, size)
      /\ e = entry_for E name f size.
Proof.
  intros self E names. induction names as [|name rest IH]; intros w e Hin.
  - cbn in Hin. contradiction.
  - cbn [image_loop] in Hin.
    pose proof (image_step_invariants self E name w) as Hstep.
    assert (Hentry : forall x, In x (fst (image_step self E name w)) ->
              exists f size, decode (w_fs w) [name] = inr (f, size)
                             /\ x = entry_for E name f size).
    { unfold image_step. intros x.
      destruct (negb (ext_ok self name)); [intros []|].
      destruct (decode (w_fs w) [name]) as [err|[f size]]; [intros []|].
      destruct (dry_run self); [intros [<-|[]]; eauto|].
      destruct (negb _); [intros [<-|[]]; eauto|].
      destruct (convert_outcome _ _ _ _ _); [intros []|intros [<-|[]]; eauto]. }
    destruct (image_step self E name w) as [entry w1]. cbn [fst snd] in *.
    specialize (IH w1 e).
    destruct (image_loop self E rest w1) as [entries w2]. cbn [fst] in *.
    apply in_app_or in Hin. destruct Hin as [Hin|Hin].
    + destruct (Hentry _ Hin) as [f [size [Hd ->]]].
      exists name, f, size. split; [left; reflexivity|auto].
    + destruct (IH Hin) as [n [f [size [Hn [Hd ->]]]]].
      exists n, f, size. split; [right; exact Hn|]. split; [|reflexivity].
      destruct Hstep as [_ [_ [Htop _]]].
      apply (decode_same_top _ _ _ _ Htop). exact Hd.
Qed.




(** ** JSON values *)

Section JsonInduction.

Variable Q : json -> Prop.
Hypothesis Q_null : Q JNull.
Hypothesis Q_bool : forall b, Q (JBool b).
Hypothesis Q_int : forall n, Q (JInt n).
Hypothesis Q_str : forall s, Q (JStr s).
Hypothesis Q_list : forall l, Forall Q l -> Q (JList l).
Hypothesis Q_dict : forall d, Forall (fun kv => Q (snd kv)) d -> Q (JDict d).


End JsonInduction.

Lemma wf_dict_values :
  forall d,
    wf_json (JDict d) = true ->
    distinct (map fst d) = true /\ Forall (fun kv => wf_json (snd kv) = true) d.
Proof.
  intros d H. cbn [wf_json] in H. apply andb_prop in H. destruct H as [Hd Hv].
  split; [exact Hd|]. clear Hd.
  induction d as [|[k x] r IH]; [constructor|].
  apply andb_prop in Hv. destruct Hv as [Hx Hr].
  constructor; [exact Hx|exact (IH Hr)].
Qed.

Lemma wf_list_values :
  forall l, wf_json (JList l) = true -> Forall (fun x => wf_json x = true) l.
Proof.
  intros l H. cbn [wf_json] in H. rewrite forallb_forall in H.
  apply Forall_forall. exact H.
Qed.


Lemma assoc_in :
  forall (A : Type) k (d : list (string * A)) v,
    assoc k d = Some v -> In (k, v) d.
Proof.
  intros A k d v. induction d as [|[k' x] r IH]; cbn; [discriminate|].
  destruct (String.eqb_spec k k') as [->|Hne].
  - intros H. injection H as ->. left. reflexivity.
  - intros H. right. auto.
Qed.

Lemma wf_assoc :
  forall d k v, wf_json (JDict d) = true -> assoc k d = Some v ->
                wf_json v = true.
Proof.
  intros d k v Hwf Ha. destruct (wf_dict_values _ Hwf) as [_ Hv].
  rewrite Forall_forall in Hv. exact (Hv _ (assoc_in _ _ _ _ Ha)).
Qed.



(** ** The stages of an album *)

Lemma read_existing_index_run :
  forall (p : path) (w : world),
    read_existing_index p w
    = (Ret (fst (manifest_at (w_fs w) p)),
       warned w p (snd (manifest_at (w_fs w) p))).
Proof.
  intros p w.
  unfold read_existing_index, manifest_at, warned, path_exists, open_read,
    fs_exists, say.
  unfold_monad.
  destruct (fs_lookup (w_fs w) p) as [[f|m d]|] eqn:Hp; cbn; rewrite ?Hp;
    try reflexivity.
  destruct (f_readable f); [|reflexivity].
  destruct (json_load (f_data f)); reflexivity.
Qed.

Lemma manifest_at_wf :
  forall fs p, platform_laws -> wf_json (fst (manifest_at fs p)) = true.
Proof.
  intros fs p Hlaws. unfold manifest_at.
  destruct (fs_lookup fs p) as [[f|m d]|]; try reflexivity.
  destruct (f_readable f); [|reflexivity].
  destruct (json_load (f_data f)) as [v|] eqn:Hv; [|reflexivity].
  exact (json_load_wf Hlaws _ _ Hv).
Qed.

Lemma stateless_ret : forall A (a : A), stateless (ret a).
Proof. intros A a. exists (Ret a). reflexivity. Qed.

Lemma stateless_raise : forall A e, stateless (@raise _ A e).
Proof. intros A e. exists (Raise e). reflexivity. Qed.

Lemma stateless_bind :
  forall A B (m : M A) (k : A -> M B),
    stateless m -> (forall a, stateless (k a)) -> stateless (bind m k).
Proof.
  intros A B m k [r Hm] Hk. unfold bind. destruct r as [a|e].
  - destruct (Hk a) as [r' Hr']. exists r'. intros w. rewrite Hm. apply Hr'.
  - exists (Raise e). intros w. rewrite Hm. reflexivity.
Qed.

Lemma stateless_foldM :
  forall A B (f : A -> B -> M A) (l : list B) (acc : A),
    (forall a b, stateless (f a b)) -> stateless (foldM f acc l).
Proof.
  intros A B f l. induction l as [|x r IH]; intros acc Hf; cbn [foldM].
  - apply stateless_ret.
  - apply stateless_bind; auto.
Qed.

Lemma stateless_name_index : forall imgs, stateless (name_index imgs).
Proof.
  intros imgs. unfold name_index. apply stateless_foldM. intros d img.
  apply stateless_bind.
  - unfold py_getitem. destruct img; try apply stateless_raise.
    destruct (assoc "name" items);
      [apply stateless_ret|apply stateless_raise].
  - intros k. destruct (hashable k);
      [apply stateless_ret|apply stateless_raise].
Qed.

(** Indexing the prior entries reads no file and writes none. *)
Lemma stateless_index_existing_images :
  forall X, stateless (index_existing_images X).
Proof.
  intros X. unfold index_existing_images.
  destruct (truthy X); [|apply stateless_ret].
  apply stateless_bind.
  - unfold py_get. destruct X; try apply stateless_raise. apply stateless_ret.
  - intros images. apply stateless_bind.
    + unfold py_iter. destruct images; try apply stateless_raise;
        apply stateless_ret.
    + intros imgs. apply stateless_name_index.
Qed.

Lemma stateless_run :
  forall A (m : M A) (w w2 : world),
    stateless m -> m w2 = (fst (m w), w2) /\ snd (m w) = w.
Proof.
  intros A m w w2 [r Hm]. rewrite !Hm. auto.
Qed.

(** The index of a proper manifest value holds proper entries under their
    names. *)
Lemma index_existing_images_spec :
  forall X (w : world) E,
    fst (index_existing_images X w) = Ret E ->
    (truthy X = true -> exists d, X = JDict d)
    /\ exists imgs,
         E = map (fun e => (entry_name e, e)) imgs
         /\ proper E
         /\ (wf_json X = true -> Forall (fun e => wf_json e = true) imgs).
Proof.
  intros X w E H. unfold index_existing_images in H.
  destruct (truthy X) eqn:Ht.
  2:{ cbn in H. injection H as <-. split; [discriminate|].
      exists []. repeat split; constructor. }
  unfold py_get in H. destruct X as [| | | | |d]; try (cbn in H; discriminate H).
  split; [eauto|].
  unfold bind at 1 in H. unfold ret at 1 in H.
  assert (Himg : wf_json (JDict d) = true ->
                 wf_json (match assoc "images" d with
                          | Some x => x | None => JList [] end) = true).
  { intros Hwf. destruct (assoc "images" d) eqn:Ha; [|reflexivity].
    eapply wf_assoc; eassumption. }
  unfold py_iter in H.
  destruct (match assoc "images" d with Some x => x | None => JList [] end)
    as [| | |s|l|d']; try (cbn in H; discriminate H);
    unfold bind at 1 in H; unfold ret at 1 in H;
    match type of H with
    | fst (name_index ?l ?w) = _ =>
        destruct (name_index l w) as [[E'|e] w'] eqn:Hn;
        cbn in H; try discriminate H; injection H as ->;
        destruct (name_index_spec _ _ _ _ Hn) as [_ [HE Hp]];
        exists l; split; [exact HE|]; split; [exact Hp|]; intros Hwf
    end.
  - apply Forall_forall. intros x Hx. apply in_map_iff in Hx.
    destruct Hx as [c [<- _]]. reflexivity.
  - apply wf_list_values. exact (Himg Hwf).
  - apply Forall_forall. intros x Hx. apply in_map_iff in Hx.
    destruct Hx as [c [<- _]]. reflexivity.
Qed.

Lemma list_image_files_run :
  forall (self : ImageProcessor) (w : world),
    list_image_files self w = (image_files_result self (w_fs w), w).
Proof.
  intros self w. unfold list_image_files, image_files_result, image_files.
  unfold bind at 1.
  destruct (w_fs w) as [[f|m d]|] eqn:Hfs; cbn [root_is_dir names_of].
  - destruct (extensions self) as [|ext r]; [reflexivity|].
    cbn [foldM]. unfold bind, iterdir. rewrite Hfs. reflexivity.
  - assert (Hloop : forall exts acc,
      foldM (fun image_files ext =>
               names <- iterdir [] ;;
               fs <- gets w_fs ;;
               ret (image_files
                    ++ filter (fun f => fs_is_file fs [f]
                                        && String.eqb (lower (suffix f)) ext)
                              names))
            acc exts w
      = (Ret (acc ++ flat_map
                       (fun ext =>
                          filter (fun f => fs_is_file (Some (Dir m d)) [f]
                                           && String.eqb (lower (suffix f)) ext)
                                 (map fst d)) exts), w)).
    { induction exts as [|ext r IH]; intros acc; cbn [foldM flat_map].
      - unfold ret. rewrite app_nil_r. reflexivity.
      - unfold bind at 1. unfold bind at 1. unfold iterdir. rewrite Hfs.
        cbn [fs_lookup lookup_path]. unfold bind at 1. unfold gets, ret.
        rewrite Hfs. rewrite IH. rewrite app_assoc. reflexivity. }
    rewrite Hloop. reflexivity.
  - destruct (extensions self) as [|ext r]; [reflexivity|].
    cbn [foldM]. unfold bind, iterdir. rewrite Hfs. reflexivity.
Qed.


(** ** What a manifest write does to the directory *)

Lemma put_top :
  forall (x : string) (new : node) (e : exn) (w w' : world),
    put [x] new e w = (Ret tt, w') ->
    w_now w' = w_now w /\ w_quota w' = w_quota w /\ w_ev w' = w_ev w
    /\ w_out w' = w_out w
    /\ fs_lookup (w_fs w') [x] = Some new
    /\ (forall y q, y <> x ->
                    fs_lookup (w_fs w') (y :: q) = fs_lookup (w_fs w) (y :: q))
    /\ (names_of (w_fs w') = names_of (w_fs w)
        \/ (fs_lookup (w_fs w) [x] = None
            /\ names_of (w_fs w') = names_of (w_fs w) ++ [x]))
    /\ (fs_lookup (w_fs w) [x] <> None ->
        names_of (w_fs w') = names_of (w_fs w))
    /\ root_is_dir (w_fs w') = true /\ root_is_dir (w_fs w) = true.
Proof.
  intros x new e w w' H. unfold put in H.
  destruct (fs_store (w_now w) [x] new (w_fs w)) as [r|] eqn:Hs;
    [|discriminate]. injection H as <-. cbn.
  destruct (w_fs w) as [[f|m d]|]; try discriminate. cbn in Hs |- *.
  destruct (dlookup x d) as [c|] eqn:Hx; injection Hs as <-; cbn.
  - repeat split; try reflexivity.
    + erewrite dlookup_dupdate_eq by eassumption. reflexivity.
    + intros y q Hy. rewrite dlookup_dupdate_neq by congruence. reflexivity.
    + left. apply dupdate_names.
    + intros _. apply dupdate_names.
  - repeat split; try reflexivity.
    + rewrite dlookup_app_eq by assumption. reflexivity.
    + intros y q Hy. rewrite dlookup_app_neq by congruence. reflexivity.
    + right. split; [reflexivity|]. rewrite map_app. reflexivity.
    + intros Hn. congruence.
Qed.

Lemma write_chunks_top :
  forall (x : string) (chunks : list bytes) (w w' : world) (f : file),
    for_ chunks (write_chunk [x]) w = (Ret tt, w') ->
    fs_lookup (w_fs w) [x] = Some (File f) ->
    w_now w' = w_now w /\ w_ev w' = w_ev w /\ w_out w' = w_out w
    /\ (exists f', fs_lookup (w_fs w') [x] = Some (File f')
                   /\ f_readable f' = f_readable f)
    /\ (forall y q, y <> x ->
                    fs_lookup (w_fs w') (y :: q) = fs_lookup (w_fs w) (y :: q))
    /\ names_of (w_fs w') = names_of (w_fs w)
    /\ root_is_dir (w_fs w') = root_is_dir (w_fs w).
Proof.
  intros x chunks. unfold for_.
  induction chunks as [|c r IH]; intros w w' f H Hf; cbn [foldM] in H.
  - unfold ret in H. injection H as <-. repeat split; eauto.
  - unfold bind in H.
    destruct (write_chunk [x] c w) as [[[]|e] w1] eqn:Hw; [|discriminate].
    unfold write_chunk in Hw.
    assert (Hput : exists q,
      put [x] (File {| f_mtime := w_now w; f_readable := f_readable f;
                       f_data := bytes_app (f_data f) c |}) OSError
          (with_quota w q) = (Ret tt, w1)).
    { destruct (w_quota w) as [[|k]|]; [discriminate| |];
        rewrite Hf in Hw; eauto. }
    destruct Hput as [q Hput]. apply put_top in Hput. cbn in Hput.
    destruct Hput as [N [_ [Ev [Out [L [O [_ [Nm [D1 D0]]]]]]]]].
    destruct (IH _ _ _ H L) as [N' [Ev' [Out' [[f' [L' R']] [O' [Nm' D']]]]]].
    split; [congruence|]. split; [congruence|]. split; [congruence|].
    split; [exists f'; split; [exact L'|exact R']|].
    split; [intros y p Hy; rewrite O', O by assumption; reflexivity|].
    split; [rewrite Nm'; apply Nm; congruence|congruence].
Qed.

Lemma write_json_top :
  forall (x : string) (v : json) (w w' : world),
    write_json [x] v w = (Ret tt, w') ->
    w_now w' = w_now w /\ w_out w' = w_out w
    /\ (exists f, fs_lookup (w_fs w') [x] = Some (File f)
                  /\ f_data f = json_dump v
                  /\ f_readable f = match fs_lookup (w_fs w) [x] with
                                    | Some (File o) => f_readable o
                                    | _ => true
                                    end)
    /\ (forall y q, y <> x ->
                    fs_lookup (w_fs w') (y :: q) = fs_lookup (w_fs w) (y :: q))
    /\ (names_of (w_fs w') = names_of (w_fs w)
        \/ (fs_lookup (w_fs w) [x] = None
            /\ names_of (w_fs w') = names_of (w_fs w) ++ [x]))
    /\ root_is_dir (w_fs w') = true /\ root_is_dir (w_fs w) = true.
Proof.
  intros x v w w' H.
  pose proof (write_json_result [x] v w) as Hdata. rewrite H in Hdata.
  unfold write_json in H. unfold bind at 1 in H.
  destruct (open_w [x] w) as [[[]|e] w1] eqn:Ho; [|discriminate].
  assert (Hopen : exists f0,
    put [x] (File f0) FileNotFoundError w
    = (Ret tt, {| w_fs := w_fs w1; w_now := w_now w1; w_quota := w_quota w1;
                  w_out := w_out w1; w_ev := w_ev w |})
    /\ w_ev w1 = w_ev w ++ [EvOpenW [x]]
    /\ f_readable f0 = match fs_lookup (w_fs w) [x] with
                       | Some (File o) => f_readable o
                       | _ => true
                       end).
  { unfold open_w in Ho.
    destruct (fs_lookup (w_fs w) [x]) as [[o|? ?]|]; [|discriminate|];
      unfold bind in Ho;
      match type of Ho with
      | context [put ?p ?n ?e w] =>
          destruct (put p n e w) as [[[]|e'] w0] eqn:Hp; [|discriminate]
      end;
      unfold emit in Ho; injection Ho as <-; cbn;
      eexists; (split; [rewrite Hp; destruct w0; apply put_top in Hp;
                        cbn in *; destruct Hp as [_ [_ [-> _]]]; reflexivity|]);
      apply put_top in Hp; destruct Hp as [_ [_ [-> _]]];
      split; reflexivity. }
  destruct Hopen as [f0 [Hput [Hev Hr0]]]. apply put_top in Hput. cbn in Hput.
  destruct Hput as [N [_ [_ [Out [L [O [Nm [_ [D1 D0]]]]]]]]].
  destruct (write_chunks_top _ _ _ _ _ H L)
    as [N' [_ [Out' [[f' [L' R']] [O' [Nm' D']]]]]].
  split; [congruence|]. split; [congruence|].
  split.
  { exists f'. split; [exact L'|]. split; [|congruence].
    unfold content_at in Hdata. rewrite L' in Hdata. congruence. }
  split; [intros y q Hy; rewrite O', O by assumption; reflexivity|].
  split; [rewrite Nm'; exact Nm|]. split; [congruence|exact D0].
Qed.

(** ** Small facts for the second run *)

Lemma warned_quiet :
  forall w p e,
    w_fs (warned w p e) = w_fs w /\ w_now (warned w p e) = w_now w
    /\ quiet w (warned w p e).
Proof.
  intros w p [e|]; cbn; repeat split; try reflexivity;
    try apply quiet_say; apply quiet_refl.
Qed.

Lemma manifest_at_ext :
  forall fs fs' p,
    fs_lookup fs' p = fs_lookup fs p -> manifest_at fs' p = manifest_at fs p.
Proof. intros fs fs' p H. unfold manifest_at. rewrite H. reflexivity. Qed.

Lemma in_insert_sorted :
  forall x y l, In x (insert_sorted y l) <-> x = y \/ In x l.
Proof.
  intros x y l. induction l as [|z r IH]; cbn.
  - intuition.
  - destruct (String.leb y z); cbn; [intuition|].
    rewrite IH. intuition.
Qed.

Lemma in_sort_names : forall x l, In x (sort_names l) <-> In x l.
Proof.
  intros x l. unfold sort_names. induction l as [|y r IH]; cbn; [reflexivity|].
  rewrite in_insert_sorted, IH. intuition.
Qed.

Lemma image_files_ext_ok :
  forall self fs name, In name (image_files self fs) -> ext_ok self name = true.
Proof.
  intros self fs name H. unfold image_files in H.
  apply (proj1 (in_sort_names _ _)) in H.
  apply (proj1 (in_flat_map _ _ _)) in H. destruct H as [ext [Hext Hin]].
  apply filter_In in Hin. destruct Hin as [_ Hp].
  apply andb_prop in Hp. destruct Hp as [_ Hs].
  unfold ext_ok. apply existsb_exists. exists ext. auto.
Qed.



Lemma image_info_wf :
  forall name f size, wf_json (image_info name f size) = true.
Proof. intros name f size. reflexivity. Qed.

(** The entry appended for an image bears its filename and its current
    hash. *)
Lemma entry_for_fields :
  forall imgs name f size,
    let e := entry_for (map (fun e => (entry_name e, e)) imgs) name f size in
    entry_name e = JStr name
    /\ entry_hash e = JStr (sha256_hexdigest (f_data f))
    /\ (Forall (fun x => wf_json x = true) imgs -> wf_json e = true).
Proof.
  intros imgs name f size. cbn zeta. unfold entry_for.
  destruct (index_get_spec imgs name) as [[Hnull _]|[Hin Hname]].
  - cbn zeta in Hnull. rewrite Hnull. cbn.
    split; [reflexivity|]. split; [reflexivity|]. intros _. reflexivity.
  - cbn zeta in Hin, Hname. rewrite (entry_name_truthy _ _ Hname). cbn [andb].
    destruct (py_eq _ _) eqn:Hh.
    + apply py_eq_str in Hh. split; [exact Hname|]. split; [exact Hh|].
      intros Hall. rewrite Forall_forall in Hall. apply Hall. exact Hin.
    + cbn. split; [reflexivity|]. split; [reflexivity|]. intros _. reflexivity.
Qed.


Lemma album_index_wf :
  forall album images now,
    Forall (fun x => wf_json x = true) images ->
    wf_json (album_index album images now) = true.
Proof.
  intros album images now H. unfold album_index.
  assert (Hl : forallb wf_json images = true).
  { apply forallb_forall. apply Forall_forall. exact H. }
  cbn. rewrite Hl. reflexivity.
Qed.


(** In the entries an album loop appends, a filename has one entry: so it
    is in every manifest this program writes. *)
Lemma image_loop_one_entry_per_name :
  forall self imgs names w,
    one_entry_per_name
      (fst (image_loop self (map (fun e => (entry_name e, e)) imgs) names w)).
Proof.
  intros self imgs names w e1 e2 H1 H2 Hname.
  destruct (image_loop_entries _ _ _ _ _ H1) as [n1 [f1 [s1 [_ [D1 ->]]]]].
  destruct (image_loop_entries _ _ _ _ _ H2) as [n2 [f2 [s2 [_ [D2 ->]]]]].
  destruct (entry_for_fields imgs n1 f1 s1) as [N1 _].
  destruct (entry_for_fields imgs n2 f2 s2) as [N2 _].
  cbn zeta in N1, N2. rewrite N1, N2 in Hname. injection Hname as ->.
  rewrite D1 in D2. injection D2 as -> ->. reflexivity.
Qed.

(** ** An album, and the same album again *)




Lemma stateless_must_write :
  forall self X key new, stateless (must_write self X key new).
Proof.
  intros self X key new. unfold must_write.
  destruct (dry_run self); [apply stateless_ret|].
  destruct (negb (truthy X)); [apply stateless_ret|].
  apply stateless_bind.
  - unfold py_get. destruct X; try apply stateless_raise. apply stateless_ret.
  - intros old. apply stateless_ret.
Qed.


Lemma dlookup_names :
  forall y d, In y (map fst d) <-> dlookup y d <> None.
Proof.
  intros y d. induction d as [|[z c] r IH]; cbn.
  - split; [intros []|intros H; apply H; reflexivity].
  - destruct (String.eqb_spec y z) as [->|Hne].
    + split; [discriminate|auto].
    + rewrite <- IH. split; [intros [H|H]; [congruence|exact H]|auto].
Qed.

Lemma names_of_lookup :
  forall fs y, In y (names_of fs) <-> fs_lookup fs [y] <> None.
Proof.
  intros [[f|m d]|] y; cbn; try (split; [intros []|congruence]).
  rewrite dlookup_names. destruct (dlookup y d); reflexivity.
Qed.

(** A directory at the top of an album stays one. *)
Lemma same_top_dir :
  forall fs fs' y,
    same_top fs fs' -> fs_is_dir fs [y] = true -> fs_is_dir fs' [y] = true.
Proof.
  intros fs fs' y [Hfiles [Hnames _]] H. unfold fs_is_dir in *.
  destruct (fs_lookup fs [y]) as [[f|m d]|] eqn:E; try discriminate H.
  assert (Hin : In y (names_of fs')).
  { rewrite Hnames. apply names_of_lookup. congruence. }
  apply names_of_lookup in Hin.
  destruct (fs_lookup fs' [y]) as [[f'|m' d']|] eqn:E'; [|reflexivity|congruence].
  apply Hfiles in E'. congruence.
Qed.

(** An album pass keeps the clock, the kind of the album directory and its
    [thumbnails] directory, and in a dry run every file. *)
Lemma process_album_frame :
  forall self album w w1,
    process_album self album w = (Ret tt, w1) ->
    w_now w1 = w_now w
    /\ root_is_dir (w_fs w1) = root_is_dir (w_fs w)
    /\ (dry_run self = true -> w_fs w1 = w_fs w)
    /\ (fs_is_dir (w_fs w) ["thumbnails"] = true ->
        fs_is_dir (w_fs w1) ["thumbnails"] = true).
Proof.
  intros self album w w1 H.
  unfold process_album in H. unfold bind at 1 in H.
  rewrite read_existing_index_run in H.
  destruct (warned_quiet w ["index.json"]
              (snd (manifest_at (w_fs w) ["index.json"]))) as [Wfs [Wnow _]].
  set (wa := warned w ["index.json"]
               (snd (manifest_at (w_fs w) ["index.json"]))) in *.
  set (X1 := fst (manifest_at (w_fs w) ["index.json"])) in *.
  unfold bind at 1 in H.
  destruct (stateless_index_existing_images X1) as [rE HrE].
  rewrite HrE in H. destruct rE as [E1|e]; [|discriminate H].
  assert (HE1 : fst (index_existing_images X1 wa) = Ret E1)
    by (rewrite HrE; reflexivity).
  destruct (index_existing_images_spec X1 wa E1 HE1)
    as [Hdict1 [imgs1 [_ [Hproper1 _]]]].
  unfold bind at 1 in H. rewrite list_image_files_run in H.
  destruct (image_files_result self (w_fs wa)) as [L|e]; [|discriminate H].
  unfold bind at 1 in H. rewrite image_loop_run in H by assumption.
  cbn [app] in H.
  pose proof (image_loop_invariants self E1 L wa) as Hinv. cbn zeta in Hinv.
  set (I1 := fst (image_loop self E1 L wa)) in *.
  set (wL := snd (image_loop self E1 L wa)) in *.
  destruct Hinv as [NL [_ [TL [DL _]]]].
  assert (Hth : fs_is_dir (w_fs w) ["thumbnails"] = true ->
                fs_is_dir (w_fs wL) ["thumbnails"] = true).
  { intros Ht. apply (same_top_dir (w_fs wa)); [exact TL|]. rewrite Wfs.
    exact Ht. }
  destruct TL as [_ [_ [_ DirL]]].
  rewrite persist_album_run in H by assumption.
  destruct (dry_run self) eqn:Hdry.
  { injection H as <-. cbn. rewrite DL by reflexivity.
    split; [congruence|]. split; [congruence|].
    split; [intros _; congruence|]. rewrite Wfs. auto. }
  destruct (changed_by_spec X1 I1).
  2:{ injection H as <-. cbn.
      split; [congruence|]. split; [congruence|].
      split; [discriminate|exact Hth]. }
  unfold bind in H.
  destruct (write_json ["index.json"] (album_index album I1 (w_now wL)) wL)
    as [[[]|e] wW] eqn:Hw; [|discriminate H].
  unfold print in H. injection H as <-. cbn.
  destruct (write_json_top _ _ _ _ Hw) as [Nw [_ [_ [Hoth [_ [Hd1 Hd0]]]]]].
  split; [congruence|]. split; [congruence|]. split; [discriminate|].
  intros Ht. unfold fs_is_dir. rewrite Hoth by discriminate.
  apply Hth. exact Ht.
Qed.

(** ** The root: albums one after the other *)

Lemma fs_lookup_cons :
  forall fs a p, fs_lookup (fs_lookup fs [a]) p = fs_lookup fs (a :: p).
Proof.
  intros [[f|m d]|] a p; cbn; try reflexivity.
  destruct (dlookup a d); reflexivity.
Qed.


Lemma get_albums_run :
  forall w,
    get_albums w
    = match w_fs w with
      | Some (Dir _ _) => (Ret (albums_of (w_fs w)), w)
      | Some (File _) => (Raise NotADirectoryError, w)
      | None => (Raise FileNotFoundError, w)
      end.
Proof.
  intros w. unfold get_albums, albums_of, iterdir. unfold_monad.
  destruct (w_fs w) as [[f|m d]|] eqn:Hfs; cbn; rewrite ?Hfs; reflexivity.
Qed.

Lemma get_albums_dir :
  forall w,
    root_is_dir (w_fs w) = true -> get_albums w = (Ret (albums_of (w_fs w)), w).
Proof.
  intros w H. rewrite get_albums_run.
  destruct (w_fs w) as [[f|m d]|]; try discriminate H. reflexivity.
Qed.


Lemma in_dir_run :
  forall A (a : string) (m : M A) (w : world),
    in_dir a m w = (fst (m (focus a w)), unfocus a w (snd (m (focus a w)))).
Proof.
  intros A a m w. unfold in_dir, focus, unfocus.
  destruct (m _) as [r sub']. reflexivity.
Qed.



(** What the pass over one album does to the root directory. *)
Lemma unfocus_frame :
  forall a w sub',
    fs_is_dir (w_fs w) [a] = true ->
    root_is_dir (w_fs sub') = true ->
    let w' := unfocus a w sub' in
    w_now w' = w_now w
    /\ names_of (w_fs w') = names_of (w_fs w)
    /\ root_is_dir (w_fs w') = root_is_dir (w_fs w)
    /\ fs_lookup (w_fs w') [a] = w_fs sub'
    /\ (forall b q, b <> a ->
                    fs_lookup (w_fs w') (b :: q) = fs_lookup (w_fs w) (b :: q))
    /\ (forall b, fs_is_dir (w_fs w') [b] = fs_is_dir (w_fs w) [b]).
Proof.
  intros a w sub' Hdir Hsub. unfold unfocus. cbn.
  unfold fs_is_dir in Hdir.
  destruct (w_fs w) as [[f|mt d]|]; try discriminate Hdir. cbn in Hdir.
  destruct (dlookup a d) as [c0|] eqn:Ha; [|discriminate Hdir].
  destruct (w_fs sub') as [[f|m2 d2]|]; try discriminate Hsub. cbn.
  split; [reflexivity|]. split; [apply dupdate_names|]. split; [reflexivity|].
  split; [erewrite dlookup_dupdate_eq by eassumption; reflexivity|].
  split.
  - intros b q Hb. rewrite dlookup_dupdate_neq by congruence. reflexivity.
  - intros b. unfold fs_is_dir. cbn.
    destruct (String.eqb_spec b a) as [->|Hne].
    + erewrite dlookup_dupdate_eq by eassumption. rewrite Ha.
      destruct c0; [discriminate Hdir|reflexivity].
    + rewrite dlookup_dupdate_neq by congruence. reflexivity.
Qed.



Lemma write_json_not_dir :
  forall p v w w',
    write_json p v w = (Ret tt, w') -> fs_is_dir (w_fs w) p = false.
Proof.
  intros p v w w' H. unfold write_json, open_w in H. unfold bind at 1 in H.
  unfold fs_is_dir. destruct (fs_lookup (w_fs w) p) as [[f|m d]|];
    try reflexivity. discriminate H.
Qed.

Lemma must_write_run :
  forall self X key new w b w',
    must_write self X key new w = (Ret b, w') ->
    w' = w
    /\ b = negb (dry_run self)
           && (negb (truthy X) || negb (py_eq (prior_value key X) new))
    /\ (dry_run self = false -> truthy X = true -> exists d, X = JDict d).
Proof.
  intros self X key new w b w' H. unfold must_write in H.
  destruct (dry_run self).
  { injection H as <- <-. repeat split; discriminate. }
  destruct (truthy X) eqn:Ht; cbn [negb] in H |- *.
  - unfold py_get in H. destruct X as [| | | | |d]; try discriminate H.
    unfold bind, ret in H. injection H as <- <-.
    repeat split; eauto.
  - injection H as <- <-. repeat split. discriminate.
Qed.

Lemma albums_of_ext :
  forall fs fs' x,
    (forall b, fs_is_dir fs' [b] = fs_is_dir fs [b]) ->
    names_of fs' = names_of fs
    \/ (names_of fs' = names_of fs ++ [x] /\ fs_is_dir fs [x] = false) ->
    albums_of fs' = albums_of fs.
Proof.
  intros fs fs' x Hdirs Hnames. unfold albums_of.
  assert (Hp : forall b,
    fs_is_dir fs' [b] && negb (String.eqb b "thumbnails")
    = fs_is_dir fs [b] && negb (String.eqb b "thumbnails")).
  { intros b. rewrite Hdirs. reflexivity. }
  destruct Hnames as [->|[-> Hx]].
  - apply filter_ext. exact Hp.
  - rewrite filter_app. cbn [filter]. rewrite Hdirs, Hx. cbn.
    rewrite app_nil_r. apply filter_ext. exact Hp.
Qed.

Lemma root_index_wf :
  forall albums now, wf_json (root_index albums now) = true.
Proof.
  intros albums now. unfold root_index.
  assert (Hl : forallb wf_json (map JStr albums) = true).
  { apply forallb_forall. intros x Hx. apply in_map_iff in Hx.
    destruct Hx as [a [<- _]]. reflexivity. }
  cbn. rewrite Hl. reflexivity.
Qed.




(** ** Dry runs *)










Lemma read_only_lookup :
  forall A (p : path) (k : option node -> res A),
    read_only (fun w => (k (fs_lookup (w_fs w) p), w)).
Proof. intros A p k w. cbn. auto. Qed.
















Lemma init_dry_run :
  forall exts size dry w self w',
    init exts size dry w = (Ret self, w') -> dry_run self = dry.
Proof.
  intros exts size dry w self w' H. unfold init in H. unfold bind at 1 in H.
  unfold path_exists, gets in H. unfold bind at 1 in H.
  destruct (negb (fs_exists (w_fs w) [])); [discriminate H|].
  unfold ret at 1 in H. unfold bind at 1 in H.
  destruct ((if negb dry
             then albums <- get_albums ;;
                  for_ albums (fun album => mkdir [album; "thumbnails"])
             else ret tt) w) as [[[]|e] w1]; [|discriminate H].
  unfold ret in H. injection H as <- _. reflexivity.
Qed.


(** ** A pass, and the same pass again *)


(** ** The constructor, and the program run twice *)

(** [mkdir] of an album's [thumbnails] directory adds that directory and
    nothing else. *)
Lemma mkdir_thumbs :
  forall a w w1,
    mkdir [a; "thumbnails"] w = (Ret tt, w1) ->
    w_now w1 = w_now w
    /\ names_of (w_fs w1) = names_of (w_fs w)
    /\ fs_is_dir (w_fs w1) [a; "thumbnails"] = true
    /\ forall p, p <> [a; "thumbnails"] ->
         (forall f, fs_lookup (w_fs w1) p = Some (File f)
                    <-> fs_lookup (w_fs w) p = Some (File f))
         /\ fs_is_dir (w_fs w1) p = fs_is_dir (w_fs w) p.
Proof.
  intros a w w1 H. unfold mkdir in H.
  destruct (fs_lookup (w_fs w) [a; "thumbnails"]) as [[f|m d]|] eqn:Hl.
  - discriminate H.
  - injection H as <-. unfold fs_is_dir. rewrite Hl.
    repeat split; auto.
  - unfold bind, put, emit in H.
    destruct (fs_store (w_now w) [a; "thumbnails"] (Dir (w_now w) []) (w_fs w))
      as [r|] eqn:Hs; [|discriminate H].
    injection H as <-. cbn [w_fs w_now with_fs].
    destruct (w_fs w) as [[f0|m0 d0]|]; try discriminate Hs.
    cbn in Hs, Hl.
    destruct (dlookup a d0) as [[g|m2 d2]|] eqn:Ha; try discriminate Hs.
    cbn in Hs, Hl.
    destruct (dlookup "thumbnails" d2) as [c|] eqn:Ht; [discriminate Hl|].
    injection Hs as <-.
    split; [reflexivity|]. split; [cbn; apply dupdate_names|].
    split.
    { unfold fs_is_dir. cbn.
      rewrite (dlookup_dupdate_eq _ _ _ _ Ha). cbn.
      rewrite dlookup_app_eq by exact Ht. reflexivity. }
    intros p Hp. unfold fs_is_dir. destruct p as [|b q].
    { cbn. split; [|reflexivity]. intros f. split; discriminate. }
    cbn [fs_lookup lookup_path].
    destruct (String.eqb_spec a b) as [<-|Hab].
    + rewrite (dlookup_dupdate_eq _ _ _ _ Ha), Ha.
      destruct q as [|y q'].
      { cbn. split; [|reflexivity]. intros f. split; discriminate. }
      cbn [lookup_path].
      destruct (String.eqb_spec "thumbnails" y) as [<-|Hy].
      * rewrite dlookup_app_eq by exact Ht. rewrite Ht.
        destruct q' as [|x q'']; [congruence|]. cbn.
        split; [|reflexivity]. intros f. split; discriminate.
      * rewrite dlookup_app_neq by exact Hy.
        split; [|reflexivity]. intros f. reflexivity.
    + rewrite dlookup_dupdate_neq by exact Hab.
      split; [|reflexivity]. intros f. reflexivity.
Qed.

Lemma mkdirs_run :
  forall As w w1,
    for_ As (fun album => mkdir [album; "thumbnails"]) w = (Ret tt, w1) ->
    w_now w1 = w_now w
    /\ names_of (w_fs w1) = names_of (w_fs w)
    /\ (forall a, In a As -> fs_is_dir (w_fs w1) [a; "thumbnails"] = true)
    /\ (forall p, fs_is_dir (w_fs w) p = true -> fs_is_dir (w_fs w1) p = true)
    /\ (forall b, fs_is_dir (w_fs w1) [b] = fs_is_dir (w_fs w) [b])
    /\ (forall p f, fs_lookup (w_fs w1) p = Some (File f) ->
                    fs_lookup (w_fs w) p = Some (File f)).
Proof.
  intros As. unfold for_.
  induction As as [|a rest IH]; intros w w1 H; cbn [foldM] in H.
  - unfold ret in H. injection H as <-. repeat split; auto; intros a [].
  - unfold bind in H.
    destruct (mkdir [a; "thumbnails"] w) as [[[]|e] w'] eqn:Hm;
      [|discriminate H].
    destruct (mkdir_thumbs _ _ _ Hm) as [N [Nm [Ta K]]].
    destruct (IH _ _ H) as [N' [Nm' [T' [D' [B' F']]]]].
    split; [congruence|]. split; [congruence|]. split.
    { intros b [<-|Hb]; [apply D'; exact Ta|apply T'; exact Hb]. }
    split.
    { intros p Hp. apply D'.
      destruct (list_eq_dec string_dec p [a; "thumbnails"]) as [->|Hne];
        [exact Ta|].
      destruct (K p Hne) as [_ ->]. exact Hp. }
    split.
    { intros b. rewrite B'. apply K. discriminate. }
    intros p f Hf. apply F' in Hf.
    destruct (list_eq_dec string_dec p [a; "thumbnails"]) as [->|Hne].
    + unfold fs_is_dir in Ta. rewrite Hf in Ta. discriminate Ta.
    + apply (K p Hne). exact Hf.
Qed.

Lemma mkdirs_noop :
  forall As w,
    (forall a, In a As -> fs_is_dir (w_fs w) [a; "thumbnails"] = true) ->
    for_ As (fun album => mkdir [album; "thumbnails"]) w = (Ret tt, w).
Proof.
  intros As w H. unfold for_.
  induction As as [|a rest IH]; cbn [foldM]; [reflexivity|].
  unfold bind.
  assert (Hm : mkdir [a; "thumbnails"] w = (Ret tt, w)).
  { specialize (H a (or_introl eq_refl)). unfold mkdir, fs_is_dir in *.
    destruct (fs_lookup (w_fs w) [a; "thumbnails"]) as [[f|m d]|];
      try discriminate H. reflexivity. }
  rewrite Hm. apply IH. intros b Hb. apply H. right. exact Hb.
Qed.

(** A constructor that returned: it made the [thumbnails] directories,
    unless the run is dry, and no file. *)
Lemma init_run :
  forall exts size dry w self wi,
    init exts size dry w = (Ret self, wi) ->
    self = {| extensions := map normalize_ext exts; thumbnail_size := size;
              dry_run := dry |}
    /\ w_now wi = w_now w
    /\ (dry = true -> wi = w)
    /\ (dry = false ->
        thumbs_made (w_fs wi)
        /\ forall p f, fs_lookup (w_fs wi) p = Some (File f) ->
                       fs_lookup (w_fs w) p = Some (File f)).
Proof.
  intros exts size dry w self wi H. unfold init in H. unfold bind at 1 in H.
  unfold path_exists, gets in H. unfold bind at 1 in H.
  destruct (negb (fs_exists (w_fs w) [])); [discriminate H|].
  unfold ret at 1 in H. unfold bind at 1 in H.
  destruct dry; cbn [negb] in H.
  - unfold ret in H. injection H as <- <-.
    repeat split; auto; discriminate.
  - unfold bind at 1 in H.
    destruct (root_is_dir (w_fs w)) eqn:Hd.
    2:{ rewrite get_albums_run in H.
        destruct (w_fs w) as [[f|m d]|]; discriminate. }
    rewrite (get_albums_dir _ Hd) in H.
    destruct (for_ (albums_of (w_fs w))
                (fun album => mkdir [album; "thumbnails"]) w)
      as [[[]|e] w'] eqn:Hm; [|discriminate H].
    unfold ret in H. injection H as <- <-.
    destruct (mkdirs_run _ _ _ Hm) as [N [Nm [T [_ [B F]]]]].
    split; [reflexivity|]. split; [exact N|]. split; [discriminate|].
    intros _. split; [|exact F].
    intros a Ha. apply T.
    rewrite <- (albums_of_ext (w_fs w) (w_fs w') ""); [exact Ha|exact B|].
    left. exact Nm.
Qed.

(** On a gallery that has its [thumbnails] directories the constructor
    changes nothing. *)
Lemma init_noop :
  forall exts size dry w,
    root_is_dir (w_fs w) = true ->
    (dry = false -> thumbs_made (w_fs w)) ->
    init exts size dry w
    = (Ret {| extensions := map normalize_ext exts; thumbnail_size := size;
              dry_run := dry |}, w).
Proof.
  intros exts size dry w Hd Hth. unfold init. unfold bind at 1.
  unfold path_exists, gets. unfold bind at 1.
  assert (Hex : fs_exists (w_fs w) [] = true).
  { destruct (w_fs w) as [[f|m d]|]; try discriminate Hd. reflexivity. }
  rewrite Hex. cbn [negb]. unfold ret at 1. unfold bind at 1.
  destruct dry; cbn [negb]; [reflexivity|].
  unfold bind at 1. rewrite (get_albums_dir _ Hd).
  rewrite mkdirs_noop by (apply Hth; reflexivity). reflexivity.
Qed.

(** ** Idempotence *)


(** * Further properties of the code *)

(** ** The program as a whole *)



(** X3. A root path that is a regular file passes the existence test of
    the constructor, and listing it raises [NotADirectoryError]: [main]
    reports that error and exits with status 1, and nothing is changed. *)
Theorem root_file_is_fatal :
  forall (exts : list string) (size : Z * Z) (dry : bool) (w : world) (f : file),
    w_fs w = Some (File f) ->
    main true exts size dry w
    = (Ret 1, say w (ErrorMessage NotADirectoryError)).
Proof.
  intros exts size dry w f Hfs. unfold main. cbn [negb]. unfold try_except.
  assert (Hg : get_albums w = (Raise NotADirectoryError, w))
    by (rewrite get_albums_run, Hfs; reflexivity).
  unfold bind at 1. unfold init. unfold bind at 1.
  unfold path_exists, gets, fs_exists. rewrite Hfs. cbn [fs_lookup lookup_path negb].
  unfold bind at 1. unfold ret at 1. unfold bind at 1.
  destruct dry; cbn [negb].
  - unfold ret at 1. unfold ret at 1. unfold bind at 1.
    unfold process_images. unfold bind at 1. rewrite Hg. reflexivity.
  - unfold bind at 1. rewrite Hg. reflexivity.
Qed.

(** ** Extensions *)






(** ** Validation *)

(** X5. [is_valid_image] never raises and never changes anything, whatever
    lies at the path: it answers [True], or [False] in silence when the
    extension is not a configured one, or [False] after one warning that
    names the path and the exception of PIL or of the system. *)
Theorem is_valid_image_never_raises :
  forall (self : ImageProcessor) (p : path) (w : world),
    is_valid_image self p w = (Ret true, w)
    \/ is_valid_image self p w = (Ret false, w)
    \/ exists e, is_valid_image self p w
                 = (Ret false, say w (WarnInvalidImage p e)).
Proof.
  intros self p w. unfold is_valid_image.
  destruct (negb _); [right; left; reflexivity|].
  unfold pil_open, pil_verify, open_read, say. unfold_monad.
  destruct (fs_lookup (w_fs w) p) as [[f|m d]|];
    try (right; right; eexists; reflexivity).
  destruct (f_readable f); [|right; right; eexists; reflexivity].
  destruct (Image_open (f_data f)) as [size|];
    [|right; right; eexists; reflexivity].
  cbn. destruct (Image_verify (f_data f));
    [left; reflexivity|right; right; eexists; reflexivity].
Qed.

(** ** The constructor *)

Lemma mkdir_out :
  forall p w w', mkdir p w = (Ret tt, w') -> w_out w' = w_out w.
Proof.
  intros p w w' H. unfold mkdir in H.
  destruct (fs_lookup (w_fs w) p) as [[f|m d]|].
  - discriminate H.
  - injection H as <-. reflexivity.
  - unfold bind, put, emit in H.
    destruct (fs_store _ _ _ _); [|discriminate H].
    injection H as <-. reflexivity.
Qed.

Lemma mkdirs_frame :
  forall As w w1,
    for_ As (fun album => mkdir [album; "thumbnails"]) w = (Ret tt, w1) ->
    w_out w1 = w_out w
    /\ forall p f, fs_lookup (w_fs w) p = Some (File f) ->
                   fs_lookup (w_fs w1) p = Some (File f).
Proof.
  intros As. unfold for_.
  induction As as [|a rest IH]; intros w w1 H; cbn [foldM] in H.
  - unfold ret in H. injection H as <-. auto.
  - unfold bind in H.
    destruct (mkdir [a; "thumbnails"] w) as [[[]|e] w'] eqn:Hm;
      [|discriminate H].
    destruct (mkdir_thumbs _ _ _ Hm) as [_ [_ [_ K]]].
    destruct (IH _ _ H) as [O F].
    split; [rewrite O; eapply mkdir_out; eassumption|].
    intros p f Hf. apply F.
    destruct (list_eq_dec string_dec p [a; "thumbnails"]) as [->|Hne].
    + unfold mkdir in Hm. rewrite Hf in Hm. discriminate Hm.
    + apply (K p Hne). exact Hf.
Qed.

Lemma mkdir_other :
  forall a x w w1 b q,
    mkdir [a; x] w = (Ret tt, w1) -> b <> a ->
    fs_lookup (w_fs w1) (b :: q) = fs_lookup (w_fs w) (b :: q).
Proof.
  intros a x w w1 b q H Hb. unfold mkdir in H.
  destruct (fs_lookup (w_fs w) [a; x]) as [[f|m d]|] eqn:Hl.
  - discriminate H.
  - injection H as <-. reflexivity.
  - unfold bind, put, emit in H.
    destruct (fs_store (w_now w) [a; x] (Dir (w_now w) []) (w_fs w))
      as [r|] eqn:Hs; [|discriminate H].
    injection H as <-. cbn [w_fs with_fs].
    destruct (w_fs w) as [[f0|m0 d0]|]; try discriminate Hs.
    cbn in Hs.
    destruct (dlookup a d0) as [[g|m2 d2]|] eqn:Ha; try discriminate Hs.
    destruct (dlookup x d2); injection Hs as <-; cbn [fs_lookup lookup_path];
      rewrite dlookup_dupdate_neq by congruence; reflexivity.
Qed.

Lemma mkdirs_other :
  forall As w w1 b q,
    for_ As (fun album => mkdir [album; "thumbnails"]) w = (Ret tt, w1) ->
    ~ In b As ->
    fs_lookup (w_fs w1) (b :: q) = fs_lookup (w_fs w) (b :: q).
Proof.
  intros As. unfold for_.
  induction As as [|a rest IH]; intros w w1 b q H Hb; cbn [foldM] in H.
  - unfold ret in H. injection H as <-. reflexivity.
  - unfold bind in H.
    destruct (mkdir [a; "thumbnails"] w) as [[[]|e] w'] eqn:Hm;
      [|discriminate H].
    rewrite (IH _ _ b q H) by (intros Hin; apply Hb; right; exact Hin).
    eapply mkdir_other; [exact Hm|].
    intros ->. apply Hb. left. reflexivity.
Qed.

(** What the constructor of a real run leaves when it returns. *)
Lemma init_frame :
  forall (exts : list string) (size : Z * Z) (w : world)
         (self : ImageProcessor) (wi : world),
    init exts size false w = (Ret self, wi) ->
    thumbs_made (w_fs wi)
    /\ albums_of (w_fs wi) = albums_of (w_fs w)
    /\ (forall p f, fs_lookup (w_fs wi) p = Some (File f)
                    <-> fs_lookup (w_fs w) p = Some (File f))
    /\ w_out wi = w_out w
    /\ (forall b q, ~ In b (albums_of (w_fs w)) ->
                    fs_lookup (w_fs wi) (b :: q) = fs_lookup (w_fs w) (b :: q)).
Proof.
  intros exts size w self wi H. unfold init in H. unfold bind at 1 in H.
  unfold path_exists, gets in H. unfold bind at 1 in H.
  destruct (negb (fs_exists (w_fs w) [])); [discriminate H|].
  unfold ret at 1 in H. unfold bind at 1 in H. cbn [negb] in H.
  unfold bind at 1 in H.
  destruct (root_is_dir (w_fs w)) eqn:Hd.
  2:{ rewrite get_albums_run in H.
      destruct (w_fs w) as [[f|m d]|]; discriminate. }
  rewrite (get_albums_dir _ Hd) in H.
  destruct (for_ (albums_of (w_fs w))
              (fun album => mkdir [album; "thumbnails"]) w)
    as [[[]|e] w'] eqn:Hm; [|discriminate H].
  unfold ret in H. injection H as _ <-.
  destruct (mkdirs_run _ _ _ Hm) as [_ [Nm [T [_ [B F]]]]].
  destruct (mkdirs_frame _ _ _ Hm) as [O F'].
  assert (HA : albums_of (w_fs w') = albums_of (w_fs w)).
  { apply (albums_of_ext (w_fs w) (w_fs w') ""); [exact B|left; exact Nm]. }
  split; [|split; [exact HA|split; [|split; [exact O|]]]].
  - intros a Ha. apply T. rewrite <- HA. exact Ha.
  - intros p f. split; [apply F|apply F'].
  - intros b q Hb. eapply mkdirs_other; eassumption.
Qed.

(** X6. When the constructor of a real run returns, every album has its
    [thumbnails] directory; the albums are those it found, no file was
    created, changed or removed, and nothing was printed. *)
Theorem init_makes_thumbnails_dirs :
  forall (exts : list string) (size : Z * Z) (w : world)
         (self : ImageProcessor) (wi : world),
    init exts size false w = (Ret self, wi) ->
    thumbs_made (w_fs wi)
    /\ albums_of (w_fs wi) = albums_of (w_fs w)
    /\ (forall p f, fs_lookup (w_fs wi) p = Some (File f)
                    <-> fs_lookup (w_fs w) p = Some (File f))
    /\ w_out wi = w_out w.
Proof.
  intros exts size w self wi H.
  destruct (init_frame _ _ _ _ _ H) as [T [A [F [O _]]]]. auto.
Qed.

Lemma store_in_dir :
  forall fs now b x new,
    fs_is_dir fs [b] = true -> exists r, fs_store now [b; x] new fs = Some r.
Proof.
  intros fs now b x new H. unfold fs_is_dir in H.
  destruct fs as [[f|m d]|]; try discriminate H. cbn in H |- *.
  destruct (dlookup b d) as [[g|m2 d2]|]; try discriminate H.
  destruct (dlookup x d2); eauto.
Qed.

Lemma mkdirs_blocked :
  forall As a f w,
    In a As ->
    fs_lookup (w_fs w) [a; "thumbnails"] = Some (File f) ->
    (forall b, In b As -> fs_is_dir (w_fs w) [b] = true) ->
    exists w',
      for_ As (fun album => mkdir [album; "thumbnails"]) w
      = (Raise FileExistsError, w')
      /\ w_out w' = w_out w.
Proof.
  intros As a f. unfold for_.
  induction As as [|b rest IH]; intros w Hin Hf Hdirs; [destruct Hin|].
  cbn [foldM]. unfold bind.
  destruct (mkdir [b; "thumbnails"] w) as [[[]|e] w1] eqn:Hm.
  - assert (Hba : b <> a).
    { intros ->. unfold mkdir in Hm. rewrite Hf in Hm. discriminate Hm. }
    destruct (mkdir_thumbs _ _ _ Hm) as [_ [_ [_ K]]].
    destruct (IH w1) as [w' [Hrun Hout]].
    + destruct Hin as [Hin|Hin]; [congruence|exact Hin].
    + apply (K [a; "thumbnails"]); [congruence|exact Hf].
    + intros c Hc.
      destruct (K [c]) as [_ ->]; [discriminate|]. apply Hdirs. right. exact Hc.
    + exists w'. split; [exact Hrun|].
      rewrite Hout. eapply mkdir_out. eassumption.
  - exists w1. unfold mkdir in Hm.
    destruct (fs_lookup (w_fs w) [b; "thumbnails"]) as [[g|m d]|].
    + injection Hm as <- <-. auto.
    + discriminate Hm.
    + unfold bind, put, emit in Hm.
      destruct (store_in_dir (w_fs w) (w_now w) b "thumbnails"
                  (Dir (w_now w) [])) as [r Hr].
      { apply Hdirs. left. reflexivity. }
      rewrite Hr in Hm. discriminate Hm.
Qed.

(** X7. A regular file named [thumbnails] in an album stops a real run in
    the constructor: [mkdir] raises [FileExistsError], which [main] reports
    before it exits with status 1; no pass over the albums takes place. *)
Theorem thumbnails_file_blocks_init :
  forall (exts : list string) (size : Z * Z) (w : world) (a : string)
         (f : file),
    In a (albums_of (w_fs w)) ->
    fs_lookup (w_fs w) [a; "thumbnails"] = Some (File f) ->
    exists w',
      init exts size false w = (Raise FileExistsError, w')
      /\ main true exts size false w
         = (Ret 1, say w' (ErrorMessage FileExistsError))
      /\ w_out w' = w_out w.
Proof.
  intros exts size w a f Ha Hf.
  assert (Hd : root_is_dir (w_fs w) = true).
  { destruct (w_fs w) as [[g|m d]|]; try destruct Ha. reflexivity. }
  destruct (mkdirs_blocked (albums_of (w_fs w)) a f w Ha Hf) as [w' [Hrun Hout]].
  { intros b Hb. unfold albums_of in Hb. apply filter_In in Hb.
    destruct Hb as [_ Hb]. apply andb_prop in Hb. apply Hb. }
  assert (Hi : init exts size false w = (Raise FileExistsError, w')).
  { unfold init. unfold bind at 1. unfold path_exists, gets.
    unfold bind at 1.
    assert (Hex : fs_exists (w_fs w) [] = true).
    { destruct (w_fs w) as [[g|m d]|]; try discriminate Hd. reflexivity. }
    rewrite Hex. cbn [negb]. unfold ret at 1. unfold bind at 1.
    unfold bind at 1. rewrite (get_albums_dir _ Hd). rewrite Hrun.
    reflexivity. }
  exists w'. split; [exact Hi|]. split; [|exact Hout].
  unfold main. cbn [negb]. unfold try_except. unfold bind at 1.
  rewrite Hi. reflexivity.
Qed.

(** ** Thumbnails *)

(** X8. An orphan thumbnail: when the thumbnail exists and its source image
    does not, [should_update_thumbnail] does not answer, it raises the
    [FileNotFoundError] of [stat], and so does [create_thumbnail] in a real
    run, which catches the failure of [convert] only. *)
Theorem orphan_thumbnail_raises :
  forall (self : ImageProcessor) (image_path thumb_path : path) (w : world),
    fs_exists (w_fs w) thumb_path = true ->
    fs_exists (w_fs w) image_path = false ->
    should_update_thumbnail self image_path thumb_path w
    = (Raise FileNotFoundError, w)
    /\ (dry_run self = false ->
        create_thumbnail self image_path thumb_path w
        = (Raise FileNotFoundError, w)).
Proof.
  intros self image_path thumb_path w Ht Hi.
  assert (Hs : should_update_thumbnail self image_path thumb_path w
               = (Raise FileNotFoundError, w)).
  { unfold should_update_thumbnail, path_exists, stat, gets.
    unfold bind at 1. rewrite Ht. cbn [negb]. unfold bind at 1.
    unfold fs_exists in Hi.
    destruct (fs_lookup (w_fs w) image_path); [discriminate Hi|reflexivity]. }
  split; [exact Hs|].
  intros Hdry. unfold create_thumbnail. rewrite Hdry. unfold bind at 1.
  rewrite Hs. reflexivity.
Qed.


(** X10. A thumbnail that [create_thumbnail] made or found fresh in a real
    run is fresh for [should_update_thumbnail] straight away, when the image
    is not dated after the clock, a thumbnail file already in place can be
    read, and the output of [convert] has the requested size. *)
Theorem created_thumbnail_is_fresh :
  forall (self : ImageProcessor) (x : string) (w w' : world) (g : file),
    platform_laws ->
    dry_run self = false ->
    fs_lookup (w_fs w) [x] = Some (File g) ->
    f_mtime g <= w_now w ->
    (forall t, fs_lookup (w_fs w) (thumb_of x) = Some (File t) ->
               f_readable t = true) ->
    create_thumbnail self [x] (thumb_of x) w = (Ret true, w') ->
    should_update_thumbnail self [x] (thumb_of x) w' = (Ret false, w').
Proof.
  intros self x w w' g Hlaws Hdry Hg Hclock Hread H.
  assert (Himg : fs_exists (w_fs w) [x] = true)
    by (unfold fs_exists; rewrite Hg; reflexivity).
  rewrite create_thumbnail_run in H by exact Himg. rewrite Hdry in H.
  destruct (stale_by_spec self (w_fs w) [x] (thumb_of x)) eqn:Hst;
    cbn [negb] in H.
  - destruct (convert_outcome (w_now w) (w_fs w) [x] (thumb_of x)
                (thumbnail_size self)) as [s|r] eqn:Hc; [discriminate H|].
    injection H as <-.
    destruct (made_thumb _ _ _ _ _ _ Hc) as [tf [g' [Ht [Hm [Hg' [Hout Hr]]]]]].
    assert (Hx : lookup_path [x] r = Some (File g)).
    { eapply convert_outcome_top_file; eassumption. }
    rewrite should_update_thumbnail_run.
    2:{ cbn [record with_fs w_fs]. unfold fs_exists. cbn [fs_lookup].
        rewrite Hx. reflexivity. }
    cbn [record with_fs w_fs]. unfold stale_by_spec. cbn [fs_lookup].
    rewrite Ht, Hx. cbn [st_mtime].
    assert (Hle : (f_mtime g >? f_mtime tf) = false).
    { rewrite Hm, Z.gtb_ltb. apply Z.ltb_ge. exact Hclock. }
    rewrite Hle. cbn [orb decoded_size].
    assert (Hrd : f_readable tf = true).
    { rewrite Hr. destruct (fs_lookup (w_fs w) (thumb_of x)) as [[o|? ?]|] eqn:Ho;
        try reflexivity. apply Hread. reflexivity. }
    rewrite Hrd. rewrite (convert_size Hlaws _ _ _ Hout).
    unfold size_eqb. rewrite !Z.eqb_refl. reflexivity.
  - injection H as <-.
    rewrite should_update_thumbnail_run by exact Himg.
    cbn [say w_fs]. rewrite Hst. reflexivity.
Qed.

(** ** Manifests *)

(** X11. Write, then read: a manifest that [json.dump] wrote completely is
    what [read_existing_index] returns next, without a warning, provided
    the JSON codec round-trips and a file already at the path could be
    read. *)
Theorem manifest_round_trip :
  forall (x : string) (v : json) (w w' : world),
    platform_laws ->
    wf_json v = true ->
    (forall o, fs_lookup (w_fs w) [x] = Some (File o) -> f_readable o = true) ->
    write_json [x] v w = (Ret tt, w') ->
    read_existing_index [x] w' = (Ret v, w').
Proof.
  intros x v w w' Hlaws Hwf Hread H.
  destruct (write_json_top _ _ _ _ H) as [_ [_ [[f [Hf [Hdata Hr]]] _]]].
  rewrite read_existing_index_run. unfold manifest_at. rewrite Hf.
  assert (Hrd : f_readable f = true).
  { rewrite Hr. destruct (fs_lookup (w_fs w) [x]) as [[o|? ?]|] eqn:Ho;
      try reflexivity. apply Hread. reflexivity. }
  rewrite Hrd, Hdata, (json_round_trip Hlaws) by exact Hwf.
  reflexivity.
Qed.

(** ** The image files of an album *)

Lemma image_files_in :
  forall self fs name,
    In name (image_files self fs)
    <-> fs_is_file fs [name] = true /\ ext_ok self name = true.
Proof.
  intros self fs name. unfold image_files.
  rewrite in_sort_names, in_flat_map. unfold ext_ok. rewrite existsb_exists.
  split.
  - intros [ext [Hext Hin]]. apply filter_In in Hin. destruct Hin as [_ Hp].
    apply andb_prop in Hp. destruct Hp as [Hf Hs]. split; [exact Hf|eauto].
  - intros [Hf [ext [Hext Hs]]]. exists ext. split; [exact Hext|].
    apply filter_In. split.
    + apply names_of_lookup. unfold fs_is_file in Hf.
      destruct (fs_lookup fs [name]); [discriminate|discriminate Hf].
    + rewrite Hf, Hs. reflexivity.
Qed.

Lemma insert_sorted_sorted :
  forall x l,
    Sorted (fun a b => String.leb a b = true) l ->
    Sorted (fun a b => String.leb a b = true) (insert_sorted x l).
Proof.
  intros x l. induction l as [|y r IH]; intros Hs; cbn.
  - repeat constructor.
  - destruct (String.leb x y) eqn:Hxy.
    + constructor; [exact Hs|]. constructor. exact Hxy.
    + apply Sorted_inv in Hs. destruct Hs as [Hr Hhd].
      constructor; [apply IH; exact Hr|].
      assert (Hyx : String.leb y x = true).
      { destruct (String.leb_total x y) as [H|H]; [congruence|exact H]. }
      destruct r as [|z r']; cbn; [constructor; exact Hyx|].
      destruct (String.leb x z); constructor; [exact Hyx|].
      inversion Hhd. assumption.
Qed.

Lemma sort_names_sorted :
  forall l, Sorted (fun a b => String.leb a b = true) (sort_names l).
Proof.
  induction l as [|x r IH]; cbn; [constructor|].
  apply insert_sorted_sorted. exact IH.
Qed.

(** X12. The image files of an album, as lines 178 to 188 collect them:
    when the collection returns, nothing was changed, a name is in the list
    exactly when it is a regular file of the directory whose lower-cased
    suffix is one of the configured extensions (so no directory, and not
    the [thumbnails] directory, is ever taken for an image), and the list
    is in ascending order of the names. *)
Theorem list_image_files_spec :
  forall (self : ImageProcessor) (w w' : world) (L : list string),
    list_image_files self w = (Ret L, w') ->
    w' = w
    /\ (forall name, In name L
                     <-> fs_is_file (w_fs w) [name] = true
                         /\ ext_ok self name = true)
    /\ Sorted (fun a b => String.leb a b = true) L.
Proof.
  intros self w w' L H. rewrite list_image_files_run in H.
  injection H as HL <-. split; [reflexivity|].
  unfold image_files_result in HL.
  destruct (root_is_dir (w_fs w)) eqn:Hd.
  - injection HL as <-. split; [apply image_files_in|apply sort_names_sorted].
  - destruct (extensions self) as [|ext r] eqn:He; [|discriminate HL].
    injection HL as <-. split; [|constructor].
    intros name. split; [intros []|].
    intros [_ Hx]. unfold ext_ok in Hx. rewrite He in Hx. discriminate Hx.
Qed.

Lemma insert_sorted_NoDup :
  forall x l, NoDup l -> ~ In x l -> NoDup (insert_sorted x l).
Proof.
  intros x l. induction l as [|y r IH]; intros Hn Hx; cbn.
  - constructor; [exact Hx|constructor].
  - destruct (String.leb x y); [constructor; assumption|].
    inversion Hn as [|? ? Hy Hr]; subst.
    constructor.
    + rewrite in_insert_sorted. intros [->|H]; [apply Hx; left; reflexivity|].
      exact (Hy H).
    + apply IH; [exact Hr|]. intros H. apply Hx. right. exact H.
Qed.

Lemma sort_names_NoDup : forall l, NoDup l -> NoDup (sort_names l).
Proof.
  induction l as [|x r IH]; intros Hn; cbn; [constructor|].
  inversion Hn as [|? ? Hx Hr]; subst.
  apply insert_sorted_NoDup; [apply IH; exact Hr|].
  rewrite in_sort_names. exact Hx.
Qed.

Lemma image_files_NoDup :
  forall self fs,
    NoDup (extensions self) -> NoDup (names_of fs) ->
    NoDup (image_files self fs).
Proof.
  intros self fs Hexts Hnames. unfold image_files. apply sort_names_NoDup.
  induction (extensions self) as [|ext r IH]; cbn [flat_map]; [constructor|].
  inversion Hexts as [|? ? Hext Hr]; subst.
  apply NoDup_app; [apply NoDup_filter; exact Hnames|apply IH; exact Hr|].
  intros a Ha Hin. apply filter_In in Ha. destruct Ha as [_ Ha].
  apply andb_prop in Ha. destruct Ha as [_ Ha]. apply String.eqb_eq in Ha.
  apply in_flat_map in Hin. destruct Hin as [ext' [Hext' Hin]].
  apply filter_In in Hin. destruct Hin as [_ Hin].
  apply andb_prop in Hin. destruct Hin as [_ Hin]. apply String.eqb_eq in Hin.
  apply Hext. congruence.
Qed.

(** X13. With configured extensions that are pairwise different after
    normalisation, and a directory listing without repeated names, every
    image file is collected once. *)
Theorem image_files_collected_once :
  forall (self : ImageProcessor) (w w' : world) (L : list string),
    NoDup (extensions self) ->
    NoDup (names_of (w_fs w)) ->
    list_image_files self w = (Ret L, w') ->
    NoDup L.
Proof.
  intros self w w' L Hexts Hnames H. rewrite list_image_files_run in H.
  injection H as HL _. unfold image_files_result in HL.
  destruct (root_is_dir (w_fs w)).
  - injection HL as <-. apply image_files_NoDup; assumption.
  - destruct (extensions self); [|discriminate HL].
    injection HL as <-. constructor.
Qed.

(** ** The entries of the new manifest *)

(** X14. What enters the images of an album: every entry the loop over the
    image files assembles, be it a reused prior entry or fresh metadata,
    belongs to one of the listed files, which opens and verifies as an
    image, and it bears the name of that file and the SHA-256 of its
    present content. *)
Theorem manifest_entries_are_current :
  forall (self : ImageProcessor) (imgs : list json) (E : list (json * json))
         (names : list string) (entries : list json) (w0 w0' w w' : world)
         (e : json),
    name_index imgs w0 = (Ret E, w0') ->
    foldM (process_image self E) [] names w = (Ret entries, w') ->
    In e entries ->
    exists name f size,
      In name names
      /\ decode (w_fs w) [name] = inr (f, size)
      /\ entry_name e = JStr name
      /\ entry_hash e = JStr (sha256_hexdigest (f_data f)).
Proof.
  intros self imgs E names entries w0 w0' w w' e HE H Hin.
  destruct (name_index_spec _ _ _ _ HE) as [_ [-> Hproper]].
  rewrite image_loop_run in H by exact Hproper. injection H as <- _.
  cbn [app] in Hin.
  destruct (image_loop_entries _ _ _ _ _ Hin) as [name [f [size [Hn [Hd ->]]]]].
  destruct (entry_for_fields imgs name f size) as [N [Hh _]].
  exists name, f, size. auto.
Qed.




(** ** The name index of the prior entries *)

Lemma find_none :
  forall A (p : A -> bool) l,
    (forall x, In x l -> p x = false) -> find p l = None.
Proof.
  intros A p l H. induction l as [|x r IH]; cbn; [reflexivity|].
  rewrite (H x (or_introl eq_refl)). apply IH. intros y Hy. apply H.
  right. exact Hy.
Qed.

Lemma find_skip :
  forall A (p : A -> bool) l1 l2,
    (forall x, In x l1 -> p x = false) -> find p (l1 ++ l2) = find p l2.
Proof.
  intros A p l1 l2 H. induction l1 as [|x r IH]; cbn; [reflexivity|].
  rewrite (H x (or_introl eq_refl)). apply IH. intros y Hy. apply H.
  right. exact Hy.
Qed.

(** X16. The dict of line 173 and its [get]: a name that no prior entry
    bears is looked up as [None]; of several prior entries with one name
    the last in the manifest is the one found. *)
Theorem prior_entry_lookup :
  forall (imgs : list json) (E : list (json * json)) (w w' : world)
         (name : string),
    name_index imgs w = (Ret E, w') ->
    ((forall e, In e imgs -> entry_name e <> JStr name) ->
     index_get E name = JNull)
    /\ (forall before e after,
          imgs = before ++ e :: after ->
          entry_name e = JStr name ->
          (forall e', In e' after -> entry_name e' <> JStr name) ->
          index_get E name = e).
Proof.
  intros imgs E w w' name HE.
  destruct (name_index_spec _ _ _ _ HE) as [_ [-> _]].
  assert (Hmiss : forall l,
            (forall e, In e l -> entry_name e <> JStr name) ->
            forall x, In x (rev (map (fun e => (entry_name e, e)) l)) ->
                      py_eq (fst x) (JStr name) = false).
  { intros l Hl x Hx. apply in_rev in Hx. apply in_map_iff in Hx.
    destruct Hx as [e [<- He]]. cbn [fst].
    destruct (py_eq (entry_name e) (JStr name)) eqn:Hp; [|reflexivity].
    apply py_eq_str in Hp. destruct (Hl e He Hp). }
  unfold index_get. split.
  - intros Hno. rewrite find_none; [reflexivity|]. apply Hmiss. exact Hno.
  - intros before e after -> Hname Hafter.
    rewrite map_app, rev_app_distr. cbn [map rev]. rewrite <- app_assoc.
    rewrite find_skip by (apply Hmiss; exact Hafter).
    cbn [app find fst]. rewrite Hname.
    assert (Hp : py_eq (JStr name) (JStr name) = true)
      by (apply py_eq_str; reflexivity).
    rewrite Hp. reflexivity.
Qed.

(** X17. A prior album manifest that is JSON but not of the expected shape
    is no recoverable failure: a value other than an object (a non-empty
    list, a number, a string) makes the pass over the album raise
    [AttributeError], and a first images entry without a [name] makes it
    raise [KeyError]; in both cases before anything is printed or
    changed. *)
Theorem misshapen_manifest_aborts :
  forall (self : ImageProcessor) (album : string) (w : world) (f : file)
         (X : json),
    fs_lookup (w_fs w) ["index.json"] = Some (File f) ->
    f_readable f = true ->
    json_load (f_data f) = Some X ->
    (truthy X = true -> (forall d, X <> JDict d) ->
     process_album self album w = (Raise AttributeError, w))
    /\ (forall d ed rest,
          X = JDict d ->
          assoc "images" d = Some (JList (JDict ed :: rest)) ->
          assoc "name" ed = None ->
          process_album self album w = (Raise (KeyError "name"), w)).
Proof.
  intros self album w f X Hf Hr Hload.
  assert (Hread : read_existing_index ["index.json"] w = (Ret X, w)).
  { rewrite read_existing_index_run. unfold manifest_at.
    rewrite Hf, Hr, Hload. reflexivity. }
  split.
  - intros Ht Hnd. unfold process_album. unfold bind at 1. rewrite Hread.
    unfold bind at 1. unfold index_existing_images. rewrite Ht.
    unfold bind at 1. unfold py_get.
    destruct X as [| | | | |d]; try reflexivity. destruct (Hnd d eq_refl).
  - intros d ed rest -> Himg Hname.
    unfold process_album. unfold bind at 1. rewrite Hread.
    unfold bind at 1. unfold index_existing_images.
    assert (Ht : truthy (JDict d) = true)
      by (destruct d; [discriminate Himg|reflexivity]).
    rewrite Ht. unfold py_get. rewrite Himg. unfold bind at 1.
    unfold ret at 1. unfold py_iter. unfold bind at 1. unfold ret at 1.
    unfold name_index. cbn [foldM]. unfold bind at 1. unfold bind at 1.
    unfold py_getitem. rewrite Hname. reflexivity.
Qed.

(** ** What a run leaves alone *)

Lemma process_album_files :
  forall self album w w1,
    process_album self album w = (Ret tt, w1) ->
    forall y f, y <> "index.json" ->
      (fs_lookup (w_fs w1) [y] = Some (File f)
       <-> fs_lookup (w_fs w) [y] = Some (File f)).
Proof.
  intros self album w w1 H y f Hy.
  unfold process_album in H. unfold bind at 1 in H.
  rewrite read_existing_index_run in H.
  destruct (warned_quiet w ["index.json"]
              (snd (manifest_at (w_fs w) ["index.json"]))) as [Wfs [Wnow _]].
  set (wa := warned w ["index.json"]
               (snd (manifest_at (w_fs w) ["index.json"]))) in *.
  set (X1 := fst (manifest_at (w_fs w) ["index.json"])) in *.
  unfold bind at 1 in H.
  destruct (stateless_index_existing_images X1) as [rE HrE].
  rewrite HrE in H. destruct rE as [E1|e]; [|discriminate H].
  assert (HE1 : fst (index_existing_images X1 wa) = Ret E1)
    by (rewrite HrE; reflexivity).
  destruct (index_existing_images_spec X1 wa E1 HE1)
    as [Hdict1 [imgs1 [_ [Hproper1 _]]]].
  unfold bind at 1 in H. rewrite list_image_files_run in H.
  destruct (image_files_result self (w_fs wa)) as [L|e]; [|discriminate H].
  unfold bind at 1 in H. rewrite image_loop_run in H by assumption.
  cbn [app] in H.
  pose proof (image_loop_invariants self E1 L wa) as Hinv. cbn zeta in Hinv.
  set (I1 := fst (image_loop self E1 L wa)) in *.
  set (wL := snd (image_loop self E1 L wa)) in *.
  destruct Hinv as [_ [_ [[Files _] _]]].
  rewrite persist_album_run in H by assumption.
  destruct (dry_run self) eqn:Hdry.
  { injection H as <-. cbn [say w_fs]. rewrite Files, Wfs. reflexivity. }
  destruct (changed_by_spec X1 I1).
  2:{ injection H as <-. cbn [say w_fs]. rewrite Files, Wfs. reflexivity. }
  unfold bind in H.
  destruct (write_json ["index.json"] (album_index album I1 (w_now wL)) wL)
    as [[[]|e] wW] eqn:Hw; [|discriminate H].
  unfold print in H. injection H as <-. cbn [w_fs].
  destruct (write_json_top _ _ _ _ Hw) as [_ [_ [_ [Hoth _]]]].
  rewrite Hoth by exact Hy. rewrite Files, Wfs. reflexivity.
Qed.

Lemma albums_loop_frame :
  forall self As w w1,
    for_ As (fun a => in_dir a (process_album self a)) w = (Ret tt, w1) ->
    (forall a, In a As -> fs_is_dir (w_fs w) [a] = true) ->
    names_of (w_fs w1) = names_of (w_fs w)
    /\ (forall b q, ~ In b As ->
                    fs_lookup (w_fs w1) (b :: q) = fs_lookup (w_fs w) (b :: q))
    /\ (forall b, fs_is_dir (w_fs w1) [b] = fs_is_dir (w_fs w) [b])
    /\ (forall a y f, y <> "index.json" ->
          (fs_lookup (w_fs w1) [a; y] = Some (File f)
           <-> fs_lookup (w_fs w) [a; y] = Some (File f))).
Proof.
  intros self As. unfold for_.
  induction As as [|a rest IH]; intros w w1 H Hdirs; cbn [foldM] in H.
  - unfold ret in H. injection H as <-. repeat split; auto.
  - unfold bind in H. rewrite in_dir_run in H.
    destruct (process_album self a (focus a w)) as [[[]|e] sub'] eqn:Hsub;
      cbn [fst snd] in H; [|discriminate H].
    assert (Hda : fs_is_dir (w_fs w) [a] = true)
      by (apply Hdirs; left; reflexivity).
    destruct (process_album_frame _ _ _ _ Hsub) as [_ [Fdir _]].
    assert (Hsubdir : root_is_dir (w_fs sub') = true).
    { rewrite Fdir. cbn. unfold fs_is_dir in Hda.
      destruct (fs_lookup (w_fs w) [a]) as [[f|m d]|];
        try discriminate Hda. reflexivity. }
    destruct (unfocus_frame a w sub' Hda Hsubdir)
      as [_ [Unames [_ [Ua [Uothers Udirs]]]]].
    set (w' := unfocus a w sub') in *.
    destruct (IH w' w1 H) as [Nm [O [Ds Fs]]].
    { intros b Hb. rewrite Udirs. apply Hdirs. right. exact Hb. }
    split; [congruence|]. split.
    { intros b q Hb. rewrite O by (intros Hin; apply Hb; right; exact Hin).
      apply Uothers. intros ->. apply Hb. left. reflexivity. }
    split; [intros b; rewrite Ds; apply Udirs|].
    intros b y f Hy. rewrite (Fs b y f Hy).
    destruct (String.eqb_spec b a) as [->|Hne].
    + rewrite <- (fs_lookup_cons (w_fs w') a [y]), Ua.
      rewrite (process_album_files _ _ _ _ Hsub y f Hy). cbn [focus w_fs].
      rewrite fs_lookup_cons. reflexivity.
    + rewrite Uothers by exact Hne. reflexivity.
Qed.

(** The step of [process_images] before the loop over the albums: the root
    manifest is kept, or written anew. *)
Lemma process_images_root :
  forall self w w1,
    process_images self w = (Ret tt, w1) ->
    root_is_dir (w_fs w) = true
    /\ exists wR,
         for_ (albums_of (w_fs w))
           (fun album => in_dir album (process_album self album)) wR
         = (Ret tt, w1)
         /\ w_now wR = w_now w
         /\ (forall y q, y <> "index.json" ->
               fs_lookup (w_fs wR) (y :: q) = fs_lookup (w_fs w) (y :: q))
         /\ (forall b, fs_is_dir (w_fs wR) [b] = fs_is_dir (w_fs w) [b])
         /\ albums_of (w_fs wR) = albums_of (w_fs w)
         /\ ((w_fs wR = w_fs w
              /\ (dry_run self = false ->
                  truthy (fst (manifest_at (w_fs w) ["index.json"])) = true
                  /\ py_eq (prior_value "albums"
                              (fst (manifest_at (w_fs w) ["index.json"])))
                           (JList (map JStr (albums_of (w_fs w)))) = true))
             \/ (dry_run self = false
                 /\ fs_is_dir (w_fs w) ["index.json"] = false
                 /\ exists f,
                      fs_lookup (w_fs wR) ["index.json"] = Some (File f)
                      /\ f_data f
                         = json_dump (root_index (albums_of (w_fs w)) (w_now w))
                      /\ f_readable f
                         = match fs_lookup (w_fs w) ["index.json"] with
                           | Some (File o) => f_readable o
                           | _ => true
                           end)).
Proof.
  intros self w w1 H.
  unfold process_images in H. unfold bind at 1 in H.
  assert (Hdir0 : root_is_dir (w_fs w) = true).
  { rewrite get_albums_run in H.
    destruct (w_fs w) as [[f0|m0 d0]|]; try discriminate H. reflexivity. }
  split; [exact Hdir0|].
  rewrite (get_albums_dir _ Hdir0) in H.
  set (A := albums_of (w_fs w)) in *.
  unfold bind at 1 in H. rewrite read_existing_index_run in H.
  destruct (warned_quiet w ["index.json"]
              (snd (manifest_at (w_fs w) ["index.json"]))) as [Wfs [Wnow _]].
  set (wa := warned w ["index.json"]
               (snd (manifest_at (w_fs w) ["index.json"]))) in *.
  set (X1 := fst (manifest_at (w_fs w) ["index.json"])) in *.
  unfold bind at 1 in H. unfold datetime_now, gets in H.
  unfold bind at 1 in H.
  destruct (stateless_must_write self X1 "albums" (JList (map JStr A)))
    as [rb Hrb].
  rewrite Hrb in H. destruct rb as [b|e]; [|discriminate H].
  destruct (must_write_run _ _ _ _ _ _ _ (Hrb wa)) as [_ [Hb _]].
  unfold bind at 1 in H.
  destruct b.
  - destruct (dry_run self) eqn:Hdry; [discriminate Hb|].
    destruct ((write_json ["index.json"]
                 (JDict [("albums", JList (map JStr A));
                         ("generated", JStr (isoformat (w_now wa)));
                         ("version", JStr "2.0")]) ;;
               print (CreatedRootIndex (List.length A))) wa)
      as [[[]|e] wR] eqn:Hw; [|discriminate H].
    exists wR. split; [exact H|].
    unfold bind in Hw.
    destruct (write_json ["index.json"] _ wa) as [[[]|e] wW] eqn:Hww;
      [|discriminate Hw].
    unfold print in Hw. injection Hw as <-. cbn [w_fs w_now].
    pose proof (write_json_not_dir _ _ _ _ Hww) as Hnd.
    destruct (write_json_top _ _ _ _ Hww)
      as [Nw [_ [[f [Hf [Hdata Hread]]] [Hothers [Hnm _]]]]].
    rewrite Wfs in *.
    assert (Hdirs : forall b, fs_is_dir (w_fs wW) [b] = fs_is_dir (w_fs w) [b]).
    { intros y. destruct (String.eqb_spec y "index.json") as [->|Hne].
      - rewrite Hnd. unfold fs_is_dir. rewrite Hf. reflexivity.
      - unfold fs_is_dir. rewrite Hothers by exact Hne. reflexivity. }
    split; [congruence|]. split; [exact Hothers|]. split; [exact Hdirs|].
    split.
    { apply (albums_of_ext (w_fs w) (w_fs wW) "index.json"); [exact Hdirs|].
      destruct Hnm as [Hn|[_ Hn]]; auto. }
    right. split; [reflexivity|]. split; [exact Hnd|].
    exists f. split; [exact Hf|]. split; [|exact Hread].
    rewrite Hdata, Wnow. reflexivity.
  - exists (say wa (RootIndexUpToDate (dry_run self))).
    unfold print in H. split; [exact H|]. cbn [say w_fs w_now].
    rewrite Wfs, Wnow.
    split; [reflexivity|]. split; [reflexivity|]. split; [reflexivity|].
    split; [reflexivity|]. left. split; [reflexivity|].
    intros Hdry. rewrite Hdry in Hb. cbn [negb andb] in Hb.
    symmetry in Hb. apply orb_false_elim in Hb. destruct Hb as [Ht Hp].
    apply negb_false_iff in Ht. apply negb_false_iff in Hp. auto.
Qed.

Lemma albums_are_dirs :
  forall fs a, In a (albums_of fs) -> fs_is_dir fs [a] = true.
Proof.
  intros fs a Ha. unfold albums_of in Ha. apply filter_In in Ha.
  destruct Ha as [_ Ha]. apply andb_prop in Ha. apply Ha.
Qed.

Lemma process_images_frame :
  forall self w w1,
    process_images self w = (Ret tt, w1) ->
    albums_of (w_fs w1) = albums_of (w_fs w)
    /\ (forall b q, b <> "index.json" -> ~ In b (albums_of (w_fs w)) ->
                    fs_lookup (w_fs w1) (b :: q) = fs_lookup (w_fs w) (b :: q))
    /\ (forall a y f, In a (albums_of (w_fs w)) -> y <> "index.json" ->
          (fs_lookup (w_fs w1) [a; y] = Some (File f)
           <-> fs_lookup (w_fs w) [a; y] = Some (File f))).
Proof.
  intros self w w1 H.
  destruct (process_images_root _ _ _ H)
    as [_ [wR [Hloop [_ [Oth [Dirs [HA Hcase]]]]]]].
  destruct (albums_loop_frame _ _ _ _ Hloop) as [Nm [O [Ds Fs]]].
  { intros a Ha. rewrite Dirs. apply albums_are_dirs. exact Ha. }
  split; [|split].
  - rewrite <- HA. apply (albums_of_ext (w_fs wR) (w_fs w1) "");
      [exact Ds|left; exact Nm].
  - intros b q Hb Hn. rewrite O by exact Hn. apply Oth. exact Hb.
  - intros a y f Ha Hy. rewrite (Fs a y f Hy).
    assert (Hne : a <> "index.json" \/ w_fs wR = w_fs w).
    { destruct Hcase as [[Hfs _]|[_ [Hnd _]]]; [right; exact Hfs|left].
      intros ->. rewrite (albums_are_dirs _ _ Ha) in Hnd. discriminate Hnd. }
    destruct Hne as [Hne|Hfs]; [rewrite Oth by exact Hne|rewrite Hfs];
      reflexivity.
Qed.

Lemma main_completed :
  forall exts size dry w w1,
    main true exts size dry w = (Ret 0, w1) ->
    exists self wi wp,
      init exts size dry w = (Ret self, wi)
      /\ process_images self wi = (Ret tt, wp)
      /\ w1 = say wp ProcessingCompleted.
Proof.
  intros exts size dry w w1 H.
  unfold main in H. cbn [negb] in H. unfold try_except, bind in H.
  destruct (init exts size dry w) as [[self|e] wi] eqn:Hi.
  2:{ unfold print, ret in H. injection H as H _. discriminate H. }
  destruct (process_images self wi) as [[[]|e] wp] eqn:Hp.
  2:{ unfold print, ret in H. injection H as H _. discriminate H. }
  unfold print, ret in H. injection H as <-. exists self, wi, wp.
  split; [reflexivity|]. split; [exact Hp|reflexivity].
Qed.

(** X18. A run that completes never touches a source image: for every
    album, the regular files directly in it, the manifest [index.json]
    apart, are after the run exactly those that were there before, each
    with its content, its modification time and its permissions. *)
Theorem source_images_untouched :
  forall (exts : list string) (size : Z * Z) (dry : bool) (w w1 : world)
         (a y : string) (f : file),
    main true exts size dry w = (Ret 0, w1) ->
    In a (albums_of (w_fs w)) ->
    y <> "index.json" ->
    (fs_lookup (w_fs w1) [a; y] = Some (File f)
     <-> fs_lookup (w_fs w) [a; y] = Some (File f)).
Proof.
  intros exts size dry w w1 a y f H Ha Hy.
  destruct (main_completed _ _ _ _ _ H) as [self [wi [wp [Hi [Hp ->]]]]].
  cbn [say w_fs].
  destruct (process_images_frame _ _ _ Hp) as [_ [_ Fs]].
  destruct dry.
  - destruct (init_run _ _ _ _ _ _ Hi) as [_ [_ [Dry _]]].
    rewrite (Dry eq_refl) in *. apply Fs; assumption.
  - destruct (init_frame _ _ _ _ _ Hi) as [_ [HA [F _]]].
    rewrite Fs by (rewrite ?HA; assumption). apply F.
Qed.

(** X19. A run that completes changes nothing outside the albums and the
    root manifest: what lies under the root at a name that is neither an
    album nor [index.json], a file or a whole directory such as a
    [thumbnails] directory of the root, is left as it was. *)
Theorem outside_albums_untouched :
  forall (exts : list string) (size : Z * Z) (dry : bool) (w w1 : world)
         (b : string) (q : path),
    main true exts size dry w = (Ret 0, w1) ->
    ~ In b (albums_of (w_fs w)) ->
    b <> "index.json" ->
    fs_lookup (w_fs w1) (b :: q) = fs_lookup (w_fs w) (b :: q).
Proof.
  intros exts size dry w w1 b q H Hb Hne.
  destruct (main_completed _ _ _ _ _ H) as [self [wi [wp [Hi [Hp ->]]]]].
  cbn [say w_fs].
  destruct (process_images_frame _ _ _ Hp) as [_ [Oth _]].
  destruct dry.
  - destruct (init_run _ _ _ _ _ _ Hi) as [_ [_ [Dry _]]].
    rewrite (Dry eq_refl) in *. apply Oth; assumption.
  - destruct (init_frame _ _ _ _ _ Hi) as [_ [HA [_ [_ O]]]].
    rewrite Oth by (rewrite ?HA; assumption). apply O. exact Hb.
Qed.

Lemma py_eq_strs :
  forall x l, py_eq x (JList (map JStr l)) = true -> x = JList (map JStr l).
Proof.
  intros x l H. destruct x as [| | | |items|]; try discriminate H.
  revert l H. induction items as [|a r IH]; intros [|s l] H; cbn in H;
    try discriminate H; [reflexivity|].
  apply andb_prop in H. destruct H as [Ha Hr].
  apply py_eq_str in Ha. subst a.
  specialize (IH l). cbn in IH. specialize (IH Hr). injection IH as ->.
  reflexivity.
Qed.

(** X20. After a real run that completes, the root manifest read back
    lists the albums: its [albums] field is the list of the names of the
    directories under the root, [thumbnails] apart, in the order of the
    listing.  The JSON codec is taken to round-trip, and a root manifest
    already there to be readable. *)
Theorem root_manifest_lists_albums :
  forall (exts : list string) (size : Z * Z) (w w1 : world),
    platform_laws ->
    (forall o, fs_lookup (w_fs w) ["index.json"] = Some (File o) ->
               f_readable o = true) ->
    main true exts size false w = (Ret 0, w1) ->
    prior_value "albums" (fst (manifest_at (w_fs w1) ["index.json"]))
    = JList (map JStr (albums_of (w_fs w1))).
Proof.
  intros exts size w w1 Hlaws Hread H.
  destruct (main_completed _ _ _ _ _ H) as [self [wi [wp [Hi [Hp ->]]]]].
  cbn [say w_fs].
  assert (Hdry : dry_run self = false) by (eapply init_dry_run; eassumption).
  destruct (init_frame _ _ _ _ _ Hi) as [_ [_ [F _]]].
  assert (Hread' : forall o, fs_lookup (w_fs wi) ["index.json"] = Some (File o) ->
                             f_readable o = true).
  { intros o Ho. apply Hread. apply F. exact Ho. }
  destruct (process_images_root _ _ _ Hp)
    as [_ [wR [Hloop [_ [Oth [Dirs [HA Hcase]]]]]]].
  destruct (albums_loop_frame _ _ _ _ Hloop) as [Nm [O [Ds _]]].
  { intros a Ha. rewrite Dirs. apply albums_are_dirs. exact Ha. }
  assert (HA1 : albums_of (w_fs wp) = albums_of (w_fs wi)).
  { rewrite <- HA. apply (albums_of_ext (w_fs wR) (w_fs wp) "");
      [exact Ds|left; exact Nm]. }
  rewrite HA1.
  destruct Hcase as [[Hfs Hkept]|[_ [Hnd [f [Hf [Hdata Hr]]]]]].
  - destruct (Hkept Hdry) as [Ht Hp'].
    assert (Hnin : ~ In "index.json" (albums_of (w_fs wi))).
    { intros Hin. apply albums_are_dirs in Hin. unfold manifest_at in Ht.
      unfold fs_is_dir in Hin.
      destruct (fs_lookup (w_fs wi) ["index.json"]) as [[o|? ?]|];
        try discriminate Hin. discriminate Ht. }
    rewrite (manifest_at_ext (w_fs wi) (w_fs wp) ["index.json"]).
    + apply py_eq_strs. exact Hp'.
    + rewrite O by exact Hnin. rewrite Hfs. reflexivity.
  - assert (Hnin : ~ In "index.json" (albums_of (w_fs wi))).
    { intros Hin. apply albums_are_dirs in Hin. congruence. }
    unfold manifest_at. rewrite O by exact Hnin. rewrite Hf.
    assert (Hrd : f_readable f = true).
    { rewrite Hr. destruct (fs_lookup (w_fs wi) ["index.json"]) as [[o|? ?]|] eqn:Ho;
        try reflexivity. apply Hread'. reflexivity. }
    rewrite Hrd, Hdata, (json_round_trip Hlaws) by apply root_index_wf.
    reflexivity.
Qed.

(** ** The loop over the images *)


(** ** Thumbnails are never removed *)

Lemma image_step_keeps_thumbs :
  forall self E name w z,
    fs_exists (w_fs w) (thumb_of z) = true ->
    fs_exists (w_fs (snd (image_step self E name w))) (thumb_of z) = true.
Proof.
  intros self E name w z Hz.
  destruct (image_step_frame self E name w) as [_ [_ [->|[_ [_ [r [Hc ->]]]]]]];
    [exact Hz|].
  unfold fs_exists. cbn [fs_lookup].
  destruct (String.eqb_spec z name) as [->|Hne].
  - destruct (made_thumb _ _ _ _ _ _ Hc) as [tf [g [-> _]]]. reflexivity.
  - rewrite (made_thumb_other _ _ _ _ _ _ z Hc) by exact Hne. exact Hz.
Qed.

Lemma image_loop_keeps_thumbs :
  forall self E names w z,
    fs_exists (w_fs w) (thumb_of z) = true ->
    fs_exists (w_fs (snd (image_loop self E names w))) (thumb_of z) = true.
Proof.
  intros self E names. induction names as [|name rest IH]; intros w z Hz.
  - exact Hz.
  - cbn [image_loop].
    pose proof (image_step_keeps_thumbs self E name w z Hz) as H1.
    destruct (image_step self E name w) as [entry w1]. cbn [snd] in H1.
    specialize (IH w1 z H1).
    destruct (image_loop self E rest w1) as [entries w2]. exact IH.
Qed.

Lemma process_album_keeps_thumbs :
  forall self album w w1 z,
    process_album self album w = (Ret tt, w1) ->
    fs_exists (w_fs w) (thumb_of z) = true ->
    fs_exists (w_fs w1) (thumb_of z) = true.
Proof.
  intros self album w w1 z H Hz.
  unfold process_album in H. unfold bind at 1 in H.
  rewrite read_existing_index_run in H.
  destruct (warned_quiet w ["index.json"]
              (snd (manifest_at (w_fs w) ["index.json"]))) as [Wfs [Wnow _]].
  set (wa := warned w ["index.json"]
               (snd (manifest_at (w_fs w) ["index.json"]))) in *.
  set (X1 := fst (manifest_at (w_fs w) ["index.json"])) in *.
  unfold bind at 1 in H.
  destruct (stateless_index_existing_images X1) as [rE HrE].
  rewrite HrE in H. destruct rE as [E1|e]; [|discriminate H].
  assert (HE1 : fst (index_existing_images X1 wa) = Ret E1)
    by (rewrite HrE; reflexivity).
  destruct (index_existing_images_spec X1 wa E1 HE1)
    as [Hdict1 [imgs1 [_ [Hproper1 _]]]].
  unfold bind at 1 in H. rewrite list_image_files_run in H.
  destruct (image_files_result self (w_fs wa)) as [L|e]; [|discriminate H].
  unfold bind at 1 in H. rewrite image_loop_run in H by assumption.
  cbn [app] in H.
  assert (HzL : fs_exists (w_fs (snd (image_loop self E1 L wa))) (thumb_of z)
                = true).
  { apply image_loop_keeps_thumbs. rewrite Wfs. exact Hz. }
  set (I1 := fst (image_loop self E1 L wa)) in *.
  set (wL := snd (image_loop self E1 L wa)) in *.
  rewrite persist_album_run in H by assumption.
  destruct (dry_run self) eqn:Hdry.
  { injection H as <-. exact HzL. }
  destruct (changed_by_spec X1 I1).
  2:{ injection H as <-. exact HzL. }
  unfold bind in H.
  destruct (write_json ["index.json"] (album_index album I1 (w_now wL)) wL)
    as [[[]|e] wW] eqn:Hw; [|discriminate H].
  unfold print in H. injection H as <-. cbn [w_fs].
  destruct (write_json_top _ _ _ _ Hw) as [_ [_ [_ [Hoth _]]]].
  unfold fs_exists, thumb_of. rewrite Hoth by discriminate. exact HzL.
Qed.

Lemma albums_loop_keeps_thumbs :
  forall self As w w1 a z,
    for_ As (fun a => in_dir a (process_album self a)) w = (Ret tt, w1) ->
    (forall a, In a As -> fs_is_dir (w_fs w) [a] = true) ->
    fs_exists (w_fs w) (a :: thumb_of z) = true ->
    fs_exists (w_fs w1) (a :: thumb_of z) = true.
Proof.
  intros self As. unfold for_.
  induction As as [|b rest IH]; intros w w1 a z H Hdirs Hz; cbn [foldM] in H.
  - unfold ret in H. injection H as <-. exact Hz.
  - unfold bind in H. rewrite in_dir_run in H.
    destruct (process_album self b (focus b w)) as [[[]|e] sub'] eqn:Hsub;
      cbn [fst snd] in H; [|discriminate H].
    assert (Hdb : fs_is_dir (w_fs w) [b] = true)
      by (apply Hdirs; left; reflexivity).
    destruct (process_album_frame _ _ _ _ Hsub) as [_ [Fdir _]].
    assert (Hsubdir : root_is_dir (w_fs sub') = true).
    { rewrite Fdir. cbn. unfold fs_is_dir in Hdb.
      destruct (fs_lookup (w_fs w) [b]) as [[f|m d]|];
        try discriminate Hdb. reflexivity. }
    destruct (unfocus_frame b w sub' Hdb Hsubdir)
      as [_ [_ [_ [Ub [Uothers Udirs]]]]].
    apply (IH _ _ a z H).
    + intros c Hc. rewrite Udirs. apply Hdirs. right. exact Hc.
    + unfold fs_exists in *. destruct (String.eqb_spec a b) as [->|Hne].
      * rewrite <- fs_lookup_cons, Ub.
        apply (process_album_keeps_thumbs _ _ _ _ z Hsub).
        cbn [focus w_fs]. unfold fs_exists. rewrite fs_lookup_cons. exact Hz.
      * rewrite Uothers by exact Hne. exact Hz.
Qed.

Lemma init_keeps :
  forall exts size dry w self wi p,
    init exts size dry w = (Ret self, wi) ->
    fs_exists (w_fs w) p = true -> fs_exists (w_fs wi) p = true.
Proof.
  intros exts size dry w self wi p H Hp.
  destruct dry.
  { destruct (init_run _ _ _ _ _ _ H) as [_ [_ [Dry _]]].
    rewrite (Dry eq_refl). exact Hp. }
  unfold init in H. unfold bind at 1 in H.
  unfold path_exists, gets in H. unfold bind at 1 in H.
  destruct (negb (fs_exists (w_fs w) [])); [discriminate H|].
  unfold ret at 1 in H. unfold bind at 1 in H. cbn [negb] in H.
  unfold bind at 1 in H.
  destruct (root_is_dir (w_fs w)) eqn:Hd.
  2:{ rewrite get_albums_run in H.
      destruct (w_fs w) as [[f|m d]|]; discriminate. }
  rewrite (get_albums_dir _ Hd) in H.
  destruct (for_ (albums_of (w_fs w))
              (fun album => mkdir [album; "thumbnails"]) w)
    as [[[]|e] w'] eqn:Hm; [|discriminate H].
  unfold ret in H. injection H as _ <-.
  destruct (mkdirs_run _ _ _ Hm) as [_ [_ [_ [D _]]]].
  destruct (mkdirs_frame _ _ _ Hm) as [_ F].
  unfold fs_exists in *.
  destruct (fs_lookup (w_fs w) p) as [[f|m d]|] eqn:Hl; [| |discriminate Hp].
  - rewrite (F p f Hl). reflexivity.
  - assert (Hdir : fs_is_dir (w_fs w') p = true)
      by (apply D; unfold fs_is_dir; rewrite Hl; reflexivity).
    unfold fs_is_dir in Hdir.
    destruct (fs_lookup (w_fs w') p); [reflexivity|discriminate Hdir].
Qed.

Lemma below_non_dir :
  forall fs a y q, fs_is_dir fs [a] = false -> fs_lookup fs (a :: y :: q) = None.
Proof.
  intros [[f|m d]|] a y q H; try reflexivity. unfold fs_is_dir in H.
  cbn in H |- *. destruct (dlookup a d) as [[g|m2 d2]|]; try reflexivity.
  discriminate H.
Qed.

(** X22. Nothing cleans up: a run that completes removes no thumbnail.
    What exists at [<album>/thumbnails/<name>] before the run, the
    thumbnail of an image long deleted included, exists after it. *)
Theorem thumbnails_never_removed :
  forall (exts : list string) (size : Z * Z) (dry : bool) (w w1 : world)
         (a z : string),
    main true exts size dry w = (Ret 0, w1) ->
    fs_exists (w_fs w) [a; "thumbnails"; z] = true ->
    fs_exists (w_fs w1) [a; "thumbnails"; z] = true.
Proof.
  intros exts size dry w w1 a z H Hz.
  destruct (main_completed _ _ _ _ _ H) as [self [wi [wp [Hi [Hp ->]]]]].
  cbn [say w_fs].
  pose proof (init_keeps _ _ _ _ _ _ _ Hi Hz) as Hzi.
  destruct (process_images_root _ _ _ Hp)
    as [_ [wR [Hloop [_ [Oth [Dirs [_ Hcase]]]]]]].
  apply (albums_loop_keeps_thumbs _ _ _ _ a z Hloop).
  - intros b Hb. rewrite Dirs. apply albums_are_dirs. exact Hb.
  - destruct Hcase as [[-> _]|[_ [Hnd _]]]; [exact Hzi|].
    destruct (String.eqb_spec a "index.json") as [->|Hne].
    + unfold fs_exists in Hzi. rewrite below_non_dir in Hzi by exact Hnd.
      discriminate Hzi.
    + unfold fs_exists. rewrite Oth by exact Hne. exact Hzi.
Qed.

(** ** The album manifest after a pass *)

Lemma py_eq_list_inv :
  forall x l',
    py_eq x (JList l') = true ->
    exists l, x = JList l /\ Forall2 (fun a b => py_eq a b = true) l l'.
Proof.
  intros x l' H. destruct x as [| | | |l|]; try discriminate H.
  exists l. split; [reflexivity|].
  revert l' H. induction l as [|a r IH]; intros [|b r'] H; cbn in H;
    try discriminate H; [constructor|].
  apply andb_prop in H. destruct H as [Ha Hr].
  constructor; [exact Ha|]. apply IH. cbn. exact Hr.
Qed.

Lemma py_eq_dict_inv :
  forall a b,
    py_eq (JDict a) (JDict b) = true ->
    List.length a = List.length b
    /\ forall k x, In (k, x) a ->
                   exists y, assoc k b = Some y /\ py_eq x y = true.
Proof.
  intros a b H. cbn [py_eq] in H. apply andb_prop in H.
  destruct H as [Hlen Hgo]. apply Nat.eqb_eq in Hlen. split; [exact Hlen|].
  clear Hlen. revert Hgo. induction a as [|[k0 x0] a' IH]; intros Hgo k x Hin.
  - destruct Hin.
  - apply andb_prop in Hgo. destruct Hgo as [H0 Hrest].
    destruct Hin as [Heq|Hin].
    + injection Heq as <- <-.
      destruct (assoc k0 b) as [y|]; [|discriminate H0]. eauto.
    + apply IH; assumption.
Qed.

Lemma distinct_NoDup : forall l, distinct l = true -> NoDup l.
Proof.
  induction l as [|x r IH]; cbn; intros H; [constructor|].
  apply andb_prop in H. destruct H as [Hx Hr].
  constructor; [|apply IH; exact Hr].
  intros Hin. apply negb_true_iff in Hx.
  assert (Ht : existsb (String.eqb x) r = true).
  { apply existsb_exists. exists x. split; [exact Hin|apply String.eqb_refl]. }
  congruence.
Qed.

Lemma assoc_of_in :
  forall (d : list (string * json)) k,
    In k (map fst d) -> exists x, assoc k d = Some x.
Proof.
  intros d k. induction d as [|[k' x'] r IH]; cbn; [intros []|].
  destruct (String.eqb_spec k k') as [->|Hne]; [eauto|].
  intros [H|H]; [congruence|auto].
Qed.

(** A value equal, for Python, to an object with a string under [k] is an
    object with that string under [k]. *)
Lemma py_eq_dict_field :
  forall e b k s,
    py_eq e (JDict b) = true ->
    wf_json e = true ->
    assoc k b = Some (JStr s) ->
    exists a, e = JDict a /\ assoc k a = Some (JStr s).
Proof.
  intros e b k s Heq Hwf Hk.
  destruct e as [| | | | |a]; try discriminate Heq.
  exists a. split; [reflexivity|].
  destruct (py_eq_dict_inv _ _ Heq) as [Hlen Hall].
  destruct (wf_dict_values _ Hwf) as [Hd _]. apply distinct_NoDup in Hd.
  assert (Hincl : incl (map fst a) (map fst b)).
  { intros k' Hk'. apply in_map_iff in Hk'. destruct Hk' as [[k2 x2] [<- Hin]].
    destruct (Hall _ _ Hin) as [y [Hy _]]. apply assoc_in in Hy.
    apply (in_map fst) in Hy. exact Hy. }
  assert (Hback : incl (map fst b) (map fst a)).
  { apply NoDup_length_incl; [exact Hd| |exact Hincl].
    rewrite !length_map, Hlen. apply Nat.le_refl. }
  assert (Hin : In k (map fst a)).
  { apply Hback. apply assoc_in in Hk. apply (in_map fst) in Hk. exact Hk. }
  destruct (assoc_of_in a k Hin) as [x Hx]. rewrite Hx. f_equal.
  destruct (Hall _ _ (assoc_in _ _ _ _ Hx)) as [y [Hy Hp]].
  rewrite Hk in Hy. injection Hy as <-. apply py_eq_str. exact Hp.
Qed.

Lemma Forall2_in_l :
  forall A B (R : A -> B -> Prop) l l' a,
    Forall2 R l l' -> In a l -> exists b, In b l' /\ R a b.
Proof.
  intros A B R l l' a H. induction H as [|x y r r' Hxy _ IH]; [intros []|].
  intros [<-|Hin].
  - exists y. split; [left; reflexivity|exact Hxy].
  - destruct (IH Hin) as [b [Hb Hr]]. exists b. split; [right; exact Hb|exact Hr].
Qed.

Lemma entry_field_inv :
  forall e k s,
    match e with
    | JDict d => match assoc k d with Some n => n | None => JNull end
    | _ => JNull
    end = JStr s ->
    exists d, e = JDict d /\ assoc k d = Some (JStr s).
Proof.
  intros e k s H. destruct e as [| | | | |d]; try discriminate H.
  exists d. split; [reflexivity|].
  destruct (assoc k d); [congruence|discriminate H].
Qed.

(** X23. The album manifest after a real pass over the album that
    returns, be it written in this pass or kept from before: its images
    field is a list, and every entry of it bears the name of a file of the
    album with a configured extension that opened and verified as an image
    in this pass, and the SHA-256 of that file's content.  No entry of a
    deleted or damaged file survives.  The JSON codec is taken to
    round-trip and to return proper values, and a manifest already there to
    be readable. *)
Theorem album_manifest_after_pass :
  forall (self : ImageProcessor) (album : string) (w w1 : world),
    platform_laws ->
    dry_run self = false ->
    (forall o, fs_lookup (w_fs w) ["index.json"] = Some (File o) ->
               f_readable o = true) ->
    process_album self album w = (Ret tt, w1) ->
    exists imgs,
      prior_images (fst (manifest_at (w_fs w1) ["index.json"])) = JList imgs
      /\ forall e, In e imgs ->
           exists name f size,
             ext_ok self name = true
             /\ decode (w_fs w) [name] = inr (f, size)
             /\ entry_name e = JStr name
             /\ entry_hash e = JStr (sha256_hexdigest (f_data f)).
Proof.
  intros self album w w1 Hlaws Hdry Hreadable H.
  unfold process_album in H. unfold bind at 1 in H.
  rewrite read_existing_index_run in H.
  destruct (warned_quiet w ["index.json"]
              (snd (manifest_at (w_fs w) ["index.json"]))) as [Wfs [Wnow _]].
  set (wa := warned w ["index.json"]
               (snd (manifest_at (w_fs w) ["index.json"]))) in *.
  set (X1 := fst (manifest_at (w_fs w) ["index.json"])) in *.
  assert (HX1wf : wf_json X1 = true) by (apply manifest_at_wf; exact Hlaws).
  unfold bind at 1 in H.
  destruct (stateless_index_existing_images X1) as [rE HrE].
  rewrite HrE in H. destruct rE as [E1|e]; [|discriminate H].
  assert (HE1 : fst (index_existing_images X1 wa) = Ret E1)
    by (rewrite HrE; reflexivity).
  destruct (index_existing_images_spec X1 wa E1 HE1)
    as [Hdict1 [imgs1 [HE1map [Hproper1 Hwf1]]]].
  specialize (Hwf1 HX1wf).
  unfold bind at 1 in H. rewrite list_image_files_run in H.
  destruct (image_files_result self (w_fs wa)) as [L|e] eqn:HL;
    [|discriminate H].
  unfold bind at 1 in H. rewrite image_loop_run in H by assumption.
  cbn [app] in H.
  pose proof (image_loop_invariants self E1 L wa) as Hinv. cbn zeta in Hinv.
  assert (Hfields : forall e, In e (fst (image_loop self E1 L wa)) ->
            wf_json e = true
            /\ exists name g size,
                 ext_ok self name = true
                 /\ decode (w_fs w) [name] = inr (g, size)
                 /\ entry_name e = JStr name
                 /\ entry_hash e = JStr (sha256_hexdigest (f_data g))).
  { intros e He.
    destruct (image_loop_entries _ _ _ _ _ He) as [n [g [sz [Hn [Hd He']]]]].
    pose proof (entry_for_fields imgs1 n g sz) as Hef. cbn zeta in Hef.
    rewrite <- HE1map, <- He' in Hef. destruct Hef as [A [B C]].
    split; [auto|]. exists n, g, sz. rewrite <- Wfs.
    split; [|auto]. unfold image_files_result in HL.
    destruct (root_is_dir (w_fs wa)).
    - injection HL as <-. eapply image_files_ext_ok. exact Hn.
    - destruct (extensions self); [|discriminate HL].
      injection HL as <-. destruct Hn. }
  set (I1 := fst (image_loop self E1 L wa)) in *.
  set (wL := snd (image_loop self E1 L wa)) in *.
  destruct Hinv as [_ [_ [[_ [_ [Hix _]]] _]]].
  rewrite persist_album_run in H by assumption. rewrite Hdry in H.
  destruct (changed_by_spec X1 I1) eqn:Hchanged.
  - unfold bind in H.
    destruct (write_json ["index.json"] (album_index album I1 (w_now wL)) wL)
      as [[[]|e] wW] eqn:Hw; [|discriminate H].
    unfold print in H. injection H as <-. cbn [w_fs].
    destruct (write_json_top _ _ _ _ Hw) as [_ [_ [[f [Hf [Hdata Hread]]] _]]].
    assert (HwfI : Forall (fun x => wf_json x = true) I1).
    { apply Forall_forall. intros e He. apply (Hfields e He). }
    assert (Hrd : f_readable f = true).
    { rewrite Hread, Hix, Wfs.
      destruct (fs_lookup (w_fs w) ["index.json"]) as [[o|? ?]|] eqn:Ho;
        try reflexivity. apply Hreadable. reflexivity. }
    exists I1. split.
    + unfold manifest_at. rewrite Hf, Hrd, Hdata.
      rewrite (json_round_trip Hlaws) by (apply album_index_wf; exact HwfI).
      reflexivity.
    + intros e He. apply (Hfields e He).
  - injection H as <-. cbn [say w_fs].
    assert (HX : fst (manifest_at (w_fs wL) ["index.json"]) = X1).
    { unfold X1. rewrite <- Wfs. f_equal. apply manifest_at_ext. exact Hix. }
    rewrite HX.
    assert (Hp : py_eq (prior_images X1) (JList I1) = true).
    { unfold changed_by_spec in Hchanged.
      destruct X1; try discriminate Hchanged;
        apply negb_false_iff in Hchanged; exact Hchanged. }
    destruct (py_eq_list_inv _ _ Hp) as [imgs [Himgs Hall]].
    exists imgs. split; [exact Himgs|].
    assert (Hwfi : Forall (fun x => wf_json x = true) imgs).
    { apply wf_list_values. rewrite <- Himgs. unfold prior_images.
      destruct X1 as [| | | | |d]; try reflexivity.
      destruct (assoc "images" d) eqn:Ha; [|reflexivity].
      eapply wf_assoc; eassumption. }
    intros e He.
    destruct (Forall2_in_l _ _ _ _ _ _ Hall He) as [e1 [He1 Heq]].
    destruct (Hfields e1 He1) as [_ [n [g [sz [Hext [Hd [Hn Hh]]]]]]].
    rewrite Forall_forall in Hwfi. specialize (Hwfi e He).
    exists n, g, sz. split; [exact Hext|]. split; [exact Hd|].
    destruct (entry_field_inv e1 "name" _ Hn) as [b [-> Hnb]].
    destruct (entry_field_inv (JDict b) "hash" _ Hh) as [b' [Hb' Hhb]].
    injection Hb' as <-.
    destruct (py_eq_dict_field _ _ _ _ Heq Hwfi Hnb) as [a [-> Hna]].
    destruct (py_eq_dict_field _ _ _ _ Heq Hwfi Hhb) as [a' [Ha' Hha]].
    injection Ha' as <-. cbn [entry_name entry_hash]. rewrite Hna, Hha. auto.
Qed.

(** ** Two edge cases *)


Lemma write_json_top_succeeds :
  forall x v w,
    root_is_dir (w_fs w) = true ->
    fs_is_dir (w_fs w) [x] = false ->
    w_quota w = None ->
    exists w', write_json [x] v w = (Ret tt, w').
Proof.
  intros x v w Hroot Hnd Hq. unfold write_json. unfold bind at 1.
  assert (Hopen : exists w1 f,
            open_w [x] w = (Ret tt, w1) /\ w_quota w1 = None
            /\ root_is_dir (w_fs w1) = true
            /\ fs_lookup (w_fs w1) [x] = Some (File f)).
  { unfold open_w, fs_is_dir in *.
    destruct (w_fs w) as [[f0|m d]|] eqn:Hfs; try discriminate Hroot.
    cbn [fs_lookup lookup_path] in *.
    unfold bind, put, emit. rewrite Hfs. cbn [fs_store store].
    destruct (dlookup x d) as [[f|m2 d2]|] eqn:Hx; try discriminate Hnd;
      cbn [with_fs w_fs w_quota]; eexists _, _;
      (split; [reflexivity|]); (split; [exact Hq|]);
      (split; [reflexivity|]); cbn [w_fs fs_lookup lookup_path].
    - erewrite dlookup_dupdate_eq by eassumption. reflexivity.
    - rewrite dlookup_app_eq by assumption. reflexivity. }
  destruct Hopen as [w1 [f [-> [Hq1 [Hr1 Hf1]]]]].
  clear Hroot Hnd Hq. revert w1 f Hq1 Hr1 Hf1. unfold for_.
  induction (json_iterencode v) as [|c r IH]; intros w1 f Hq1 Hr1 Hf1;
    cbn [foldM].
  - exists w1. reflexivity.
  - unfold bind. unfold write_chunk at 1. rewrite Hq1, Hf1.
    unfold put. cbn [with_quota w_now w_fs].
    destruct (w_fs w1) as [[f0|m d]|] eqn:Hfs; try discriminate Hr1.
    cbn [fs_lookup lookup_path] in Hf1. cbn [fs_store store].
    destruct (dlookup x d) as [c0|] eqn:Hx; [|discriminate Hf1].
    cbn [lookup_path] in Hf1. cbn [with_fs].
    eapply IH; cbn [w_quota w_fs with_fs with_quota];
      [reflexivity|reflexivity|].
    cbn [fs_lookup lookup_path].
    erewrite dlookup_dupdate_eq by eassumption. reflexivity.
Qed.

(** X25. The empty gallery: on a root directory without entries and a
    disk that takes the write, a real run makes no directory, writes the
    root manifest with an empty albums list and nothing else, and exits
    with status 0. *)
Theorem empty_gallery_run :
  forall (exts : list string) (size : Z * Z) (w : world) (m : Z),
    w_fs w = Some (Dir m []) ->
    w_quota w = None ->
    exists w1,
      main true exts size false w = (Ret 0, w1)
      /\ w_ev w1 = w_ev w ++ [EvOpenW ["index.json"]]
      /\ w_out w1 = w_out w ++ [CreatedRootIndex 0; ProcessingCompleted]
      /\ content_at (w_fs w1) ["index.json"]
         = Some (json_dump (root_index [] (w_now w)))
      /\ names_of (w_fs w1) = ["index.json"].
Proof.
  intros exts size w m Hfs Hq.
  assert (Hroot : root_is_dir (w_fs w) = true) by (rewrite Hfs; reflexivity).
  assert (HA : albums_of (w_fs w) = []) by (rewrite Hfs; reflexivity).
  assert (Hi : init exts size false w
               = (Ret {| extensions := map normalize_ext exts;
                         thumbnail_size := size; dry_run := false |}, w)).
  { apply init_noop; [exact Hroot|]. intros _ a Ha. rewrite HA in Ha.
    destruct Ha. }
  destruct (write_json_top_succeeds "index.json" (root_index [] (w_now w)) w
              Hroot) as [wW Hw]; [rewrite Hfs; reflexivity|exact Hq|].
  pose proof (write_json_result ["index.json"] (root_index [] (w_now w)) w)
    as Hdata. rewrite Hw in Hdata.
  destruct (write_json_top _ _ _ _ Hw) as [_ [Ho [_ [_ [Hnm _]]]]].
  assert (Hev : w_ev wW = w_ev w ++ [EvOpenW ["index.json"]]).
  { unfold write_json in Hw. unfold bind at 1 in Hw.
    destruct (open_w ["index.json"] w) as [[[]|e] w0] eqn:Hopen;
      [|discriminate Hw].
    assert (Hev0 : w_ev w0 = w_ev w ++ [EvOpenW ["index.json"]]).
    { unfold open_w in Hopen. rewrite Hfs in Hopen. cbn in Hopen.
      unfold bind, put, emit in Hopen. rewrite Hfs in Hopen. cbn in Hopen.
      injection Hopen as <-. reflexivity. }
    rewrite <- Hev0.
    assert (Hf0 : exists f, fs_lookup (w_fs w0) ["index.json"] = Some (File f)).
    { pose proof (open_w_spec ["index.json"] w) as Hs. rewrite Hopen in Hs.
      destruct Hs as [f [Hf _]]. eauto. }
    destruct Hf0 as [f0 Hf0].
    apply (write_chunks_top _ _ _ _ _ Hw Hf0). }
  exists (say (say wW (CreatedRootIndex 0)) ProcessingCompleted).
  split; [|split; [exact Hev|split; [|split; [exact Hdata|]]]].
  - unfold main. cbn [negb]. unfold try_except. unfold bind at 1.
    rewrite Hi. unfold bind at 1. unfold process_images.
    cbn [dry_run]. unfold bind at 1. rewrite (get_albums_dir _ Hroot), HA.
    unfold bind at 1. rewrite read_existing_index_run.
    unfold manifest_at. rewrite Hfs. cbn [fs_lookup lookup_path dlookup fst snd warned].
    unfold bind at 1. unfold datetime_now, gets. unfold bind at 1.
    unfold must_write. cbn [dry_run truthy negb]. unfold ret at 1.
    unfold bind at 1. unfold bind at 1.
    change (JDict [("albums", JList (map JStr []));
                   ("generated", JStr (isoformat (w_now w)));
                   ("version", JStr "2.0")])
      with (root_index [] (w_now w)).
    rewrite Hw. reflexivity.
  - cbn [say w_out]. rewrite Ho, <- app_assoc. reflexivity.
  - cbn [say w_fs]. destruct Hnm as [Hn|[_ Hn]]; rewrite Hn, Hfs.
    + exfalso. unfold content_at in Hdata.
      destruct (fs_lookup (w_fs wW) ["index.json"]) eqn:Hl; [|discriminate Hdata].
      assert (Hin : In "index.json" (names_of (w_fs wW)))
        by (apply names_of_lookup; congruence).
      rewrite Hn, Hfs in Hin. destruct Hin.
    + reflexivity.
Qed.

End Properties.

(** * The properties on the sample galleries *)

Section Samples.

#[local] Existing Instance Demo.demo.







(** C8, the claim as stated fails: when the disk takes one chunk and then
    is full, the manifest file is left with the first chunk only, which is
    neither its prior content nor the new manifest. *)
Lemma interrupted_write_is_partial :
  ~ all_or_nothing ["index.json"] (album_index "A" [] 1000)
      (Demo.nearly_full Demo.album_with_manifest 1000).
Proof.
  intros [H|H]; vm_compute in H; discriminate H.
Qed.



(** C5, at the failing input: a gallery without manifests and without
    thumbnails.  The real run creates the root manifest, the thumbnail and
    the album manifest; the dry run changes nothing, but reports both
    manifests as up to date: it skips the up-to-date comparison and its
    report is not the decisions of the real run. *)
Theorem dry_run_report_differs :
  let w := Demo.world_of Demo.gallery 1000 in
  let dry := snd (main true [".jpg"] (300, 300) true w) in
  let real := snd (main true [".jpg"] (300, 300) false w) in
  w_fs dry = w_fs w
  /\ w_ev dry = []
  /\ w_out dry = [RootIndexUpToDate true;
                  WouldCreateThumbnail ["A"; "thumbnails"; "a.jpg"];
                  AlbumIndexUpToDate "A" true;
                  ProcessingCompleted]
  /\ w_out real = [CreatedRootIndex 1;
                   CreatedAlbumIndex "A" 1;
                   ProcessingCompleted]
  /\ w_ev real = [EvMkdir ["A"; "thumbnails"];
                  EvOpenW ["index.json"];
                  EvConvert ["A"; "a.jpg"] ["A"; "thumbnails"; "a.jpg"] true;
                  EvOpenW ["A"; "index.json"]].
Proof.
  vm_compute. repeat split; reflexivity.
Qed.

(** C10, at the failing input: with the extensions [.jpg] and [JPG], which
    normalise to the same entry, the one picture of the album is recorded
    twice in the album manifest. *)
Theorem duplicate_extension_duplicates_entries :
  let w := Demo.world_of Demo.gallery 1000 in
  manifest_names (w_fs (snd (main true [".jpg"; "JPG"] (300, 300) false w))) "A"
  = Some [JStr "a.jpg"; JStr "a.jpg"].
Proof.
  vm_compute. reflexivity.
Qed.

Lemma demo_laws : platform_laws.
Proof.
  constructor.
  - intros v Hv. cbn. rewrite Hv. reflexivity.
  - intros data v H. cbn in H.
    destruct data as [| | |[|[x|] [|[y|] [|? ?]]]]; try discriminate H.
    destruct (wf_json y) eqn:Hy; [|discriminate H]. injection H as <-.
    exact Hy.
  - intros data [tw th] out H. cbn in H.
    destruct data; try discriminate H. injection H as <-. reflexivity.
Qed.



(** ** The further properties on the samples *)

Ltac distinct_names :=
  repeat constructor; cbn;
  repeat (let H := fresh in intros [H|H]; [discriminate H|revert H]);
  intros [].

Lemma root_file_is_fatal_witness :
  main true [".jpg"] (300, 300) false
    (Demo.world_of (Some (Demo.picture 30 640 480 "a")) 1000)
  = (Ret 1, say (Demo.world_of (Some (Demo.picture 30 640 480 "a")) 1000)
                (ErrorMessage NotADirectoryError)).
Proof.
  exact (root_file_is_fatal [".jpg"] (300, 300) false
           (Demo.world_of (Some (Demo.picture 30 640 480 "a")) 1000) _
           eq_refl).
Defined.

Lemma init_makes_thumbnails_dirs_witness :
  let wi := snd (init [".jpg"] (300, 300) false
                   (Demo.world_of Demo.gallery 1000)) in
  thumbs_made (w_fs wi)
  /\ albums_of (w_fs wi) = albums_of Demo.gallery
  /\ (forall p f, fs_lookup (w_fs wi) p = Some (File f)
                  <-> fs_lookup Demo.gallery p = Some (File f))
  /\ w_out wi = [].
Proof.
  apply (init_makes_thumbnails_dirs [".jpg"] (300, 300)
           (Demo.world_of Demo.gallery 1000)
           {| extensions := [".jpg"]; thumbnail_size := (300, 300);
              dry_run := false |}).
  vm_compute. reflexivity.
Defined.

Lemma thumbnails_file_blocks_init_witness :
  exists w',
    init [".jpg"] (300, 300) false (Demo.world_of Demo.blocked_gallery 1000)
    = (Raise FileExistsError, w')
    /\ main true [".jpg"] (300, 300) false
         (Demo.world_of Demo.blocked_gallery 1000)
       = (Ret 1, say w' (ErrorMessage FileExistsError))
    /\ w_out w' = [].
Proof.
  refine (thumbnails_file_blocks_init [".jpg"] (300, 300)
            (Demo.world_of Demo.blocked_gallery 1000) "A"
            (Demo.photo 31 1 1 "t") _ eq_refl).
  vm_compute. left. reflexivity.
Defined.

Lemma orphan_thumbnail_raises_witness :
  should_update_thumbnail (Demo.defaults false) ["z.jpg"] (thumb_of "a.jpg")
    (Demo.world_of Demo.album 1000)
  = (Raise FileNotFoundError, Demo.world_of Demo.album 1000).
Proof.
  exact (proj1 (orphan_thumbnail_raises (Demo.defaults false) ["z.jpg"]
                  (thumb_of "a.jpg") (Demo.world_of Demo.album 1000)
                  eq_refl eq_refl)).
Defined.


Lemma created_thumbnail_is_fresh_witness :
  let w' := snd (create_thumbnail (Demo.defaults false) ["a.jpg"]
                   (thumb_of "a.jpg") (Demo.world_of Demo.gallery_album 1000)) in
  should_update_thumbnail (Demo.defaults false) ["a.jpg"] (thumb_of "a.jpg") w'
  = (Ret false, w').
Proof.
  apply (created_thumbnail_is_fresh (Demo.defaults false) "a.jpg"
           (Demo.world_of Demo.gallery_album 1000)
           (snd (create_thumbnail (Demo.defaults false) ["a.jpg"]
                   (thumb_of "a.jpg") (Demo.world_of Demo.gallery_album 1000)))
           (Demo.photo 30 640 480 "a")).
  - exact demo_laws.
  - reflexivity.
  - reflexivity.
  - vm_compute. discriminate.
  - intros t H. vm_compute in H. discriminate H.
  - vm_compute. reflexivity.
Defined.

Lemma manifest_round_trip_witness :
  let w' := snd (write_json ["index.json"] Demo.old_manifest
                   (Demo.world_of Demo.album 1000)) in
  read_existing_index ["index.json"] w' = (Ret Demo.old_manifest, w').
Proof.
  apply (manifest_round_trip "index.json" Demo.old_manifest
           (Demo.world_of Demo.album 1000)).
  - exact demo_laws.
  - reflexivity.
  - intros o H. vm_compute in H. injection H as <-. reflexivity.
  - vm_compute. reflexivity.
Defined.

Lemma list_image_files_spec_witness :
  let w := Demo.world_of Demo.album 1000 in
  w = w
  /\ (forall name, In name ["a.jpg"; "b.jpg"; "c.jpg"]
                   <-> fs_is_file (w_fs w) [name] = true
                       /\ ext_ok (Demo.defaults false) name = true)
  /\ Sorted (fun a b => String.leb a b = true) ["a.jpg"; "b.jpg"; "c.jpg"].
Proof.
  apply (list_image_files_spec (Demo.defaults false)
           (Demo.world_of Demo.album 1000)).
  vm_compute. reflexivity.
Defined.

Lemma image_files_collected_once_witness :
  NoDup ["a.jpg"; "b.jpg"; "c.jpg"].
Proof.
  apply (image_files_collected_once (Demo.defaults false)
           (Demo.world_of Demo.album 1000) (Demo.world_of Demo.album 1000)).
  - distinct_names.
  - distinct_names.
  - vm_compute. reflexivity.
Defined.

Lemma manifest_entries_are_current_witness :
  exists name f size,
    In name ["a.jpg"]
    /\ decode Demo.album [name] = inr (f, size)
    /\ entry_name Demo.prior_entry = JStr name
    /\ entry_hash Demo.prior_entry = JStr (sha256_hexdigest (f_data f)).
Proof.
  apply (manifest_entries_are_current (Demo.defaults false) [Demo.prior_entry]
           [(JStr "a.jpg", Demo.prior_entry)] ["a.jpg"] [Demo.prior_entry]
           (Demo.world_of Demo.album 1000) (Demo.world_of Demo.album 1000)
           (Demo.world_of Demo.album 1000)
           (say (Demo.world_of Demo.album 1000)
                (ThumbnailUpToDate (thumb_of "a.jpg")))).
  - reflexivity.
  - vm_compute. reflexivity.
  - left. reflexivity.
Defined.


Lemma prior_entry_lookup_witness :
  index_get [(JStr "a.jpg", Demo.older_entry); (JStr "a.jpg", Demo.prior_entry)]
    "a.jpg"
  = Demo.prior_entry.
Proof.
  refine (proj2 (prior_entry_lookup [Demo.older_entry; Demo.prior_entry]
                   [(JStr "a.jpg", Demo.older_entry);
                    (JStr "a.jpg", Demo.prior_entry)]
                   (Demo.world_of Demo.album 1000)
                   (Demo.world_of Demo.album 1000) "a.jpg" eq_refl)
                [Demo.older_entry] Demo.prior_entry [] eq_refl eq_refl _).
  intros e' [].
Defined.

Lemma misshapen_manifest_aborts_witness :
  process_album (Demo.defaults false) "A"
    (Demo.world_of Demo.album_with_list_manifest 1000)
  = (Raise AttributeError, Demo.world_of Demo.album_with_list_manifest 1000).
Proof.
  refine (proj1 (misshapen_manifest_aborts (Demo.defaults false) "A"
                   (Demo.world_of Demo.album_with_list_manifest 1000)
                   {| f_mtime := 40; f_readable := true;
                      f_data := Demo.Text [None; Some (JList [JInt 1])] |}
                   (JList [JInt 1]) eq_refl eq_refl eq_refl)
                eq_refl _).
  intros d H. discriminate H.
Defined.

Lemma source_images_untouched_witness :
  let f := (Demo.photo 30 640 480 "a") in
  fs_lookup (w_fs Demo.gallery_indexed) ["A"; "a.jpg"] = Some (File f)
  <-> fs_lookup Demo.gallery ["A"; "a.jpg"] = Some (File f).
Proof.
  apply (source_images_untouched [".jpg"] (300, 300) false
           (Demo.world_of Demo.gallery 1000) Demo.gallery_indexed).
  - vm_compute. reflexivity.
  - vm_compute. left. reflexivity.
  - discriminate.
Defined.

Lemma outside_albums_untouched_witness :
  let w1 := snd (main true [".jpg"] (300, 300) false
                   (Demo.world_of Demo.gallery_with_notes 1000)) in
  fs_lookup (w_fs w1) ["thumbnails"; "old.jpg"]
  = fs_lookup Demo.gallery_with_notes ["thumbnails"; "old.jpg"].
Proof.
  apply (outside_albums_untouched [".jpg"] (300, 300) false
           (Demo.world_of Demo.gallery_with_notes 1000)).
  - vm_compute. reflexivity.
  - vm_compute. intros [H|[]]. discriminate H.
  - discriminate.
Defined.

Lemma root_manifest_lists_albums_witness :
  prior_value "albums"
    (fst (manifest_at (w_fs Demo.gallery_indexed) ["index.json"]))
  = JList (map JStr (albums_of (w_fs Demo.gallery_indexed))).
Proof.
  apply (root_manifest_lists_albums [".jpg"] (300, 300)
           (Demo.world_of Demo.gallery 1000) Demo.gallery_indexed).
  - exact demo_laws.
  - intros o H. vm_compute in H. discriminate H.
  - vm_compute. reflexivity.
Defined.


Lemma thumbnails_never_removed_witness :
  let w1 := snd (main true [".jpg"] (300, 300) false
                   (Demo.world_of Demo.gallery_with_orphan 1000)) in
  fs_exists (w_fs w1) ["A"; "thumbnails"; "gone.jpg"] = true.
Proof.
  apply (thumbnails_never_removed [".jpg"] (300, 300) false
           (Demo.world_of Demo.gallery_with_orphan 1000)).
  - vm_compute. reflexivity.
  - reflexivity.
Defined.

Lemma album_manifest_after_pass_witness :
  let w := Demo.world_of Demo.album 1000 in
  let w1 := snd (process_album (Demo.defaults false) "A" w) in
  exists imgs,
    prior_images (fst (manifest_at (w_fs w1) ["index.json"])) = JList imgs
    /\ forall e, In e imgs ->
         exists name f size,
           ext_ok (Demo.defaults false) name = true
           /\ decode (w_fs w) [name] = inr (f, size)
           /\ entry_name e = JStr name
           /\ entry_hash e = JStr (sha256_hexdigest (f_data f)).
Proof.
  apply (album_manifest_after_pass (Demo.defaults false) "A"
           (Demo.world_of Demo.album 1000)).
  - exact demo_laws.
  - reflexivity.
  - intros o H. vm_compute in H. injection H as <-. reflexivity.
  - vm_compute. reflexivity.
Defined.


Lemma empty_gallery_run_witness :
  let w := Demo.world_of (Some (Dir 10 [])) 1000 in
  exists w1,
    main true [".jpg"] (300, 300) false w = (Ret 0, w1)
    /\ w_ev w1 = w_ev w ++ [EvOpenW ["index.json"]]
    /\ w_out w1 = w_out w ++ [CreatedRootIndex 0; ProcessingCompleted]
    /\ content_at (w_fs w1) ["index.json"]
       = Some (json_dump (root_index [] (w_now w)))
    /\ names_of (w_fs w1) = ["index.json"].
Proof.
  exact (empty_gallery_run [".jpg"] (300, 300)
           (Demo.world_of (Some (Dir 10 [])) 1000) 10 eq_refl eq_refl).
Defined.

End Samples.
